(** * file-drive-api: folder hierarchy, permission propagation and
    authorization resolution

    A shallow embedding of the folder service, the file service, the
    permission service and the permission middleware, over an explicit model
    of the three MongoDB collections they share.

    Conventions of the embedding:
    - a JavaScript string is a [string]; each [ascii] stands for one code
      unit, so the model covers the strings whose code units are below 256;
    - an ObjectId is a number; a string that is meant to hold an id is an
      [IdString]: the twenty-four hexadecimal digits of an ObjectId, in
      lower case or with letters in upper case, or some other text;
    - a collection keyed by [_id] is a [gmap]; the permission collection,
      which is searched by fields other than [_id], is a list in natural
      (insertion) order;
    - an [async] method is a function in the monad [M]: it threads the store
      and may fail; a failure keeps the writes made before it, as the code
      runs without transactions;
    - timestamps are left out. *)

From stdpp Require Import gmap strings list fin_maps.
From Stdlib Require Import Ascii ZArith Lia.
From Stdlib Require QArith.

Open Scope string_scope.
Open Scope list_scope.
Open Scope nat_scope.

(** ** Identifiers *)

Abbreviation ObjectId := N.

(** A string received where an id is expected.  [OidStr o] is the string
    [o.toString()]: the twenty-four hexadecimal digits of [o] in lower case.
    [OidCased o upper] is another spelling of the same digits: digit [i],
    counted from the right, is written in upper case where bit [i] of
    [upper] is set.  [Types.ObjectId.isValid] accepts both and
    [new Types.ObjectId(..)] turns both into [o].  [RawStr s] is any other
    text ([s] itself), which [isValid] rejects. *)
Inductive IdString :=
| OidStr (o : ObjectId)
| OidCased (o : ObjectId) (upper : N)
| RawStr (s : string).

#[global] Instance IdString_eq_dec : EqDecision IdString.
Proof. solve_decision. Defined.

(** [Types.ObjectId.isValid(s)] *)
Definition isValid (s : IdString) : bool :=
  match s with OidStr _ | OidCased _ _ => true | RawStr _ => false end.

(** JavaScript truthiness of a string: every string but the empty one. *)
Definition truthy (s : string) : bool :=
  match s with EmptyString => false | String _ _ => true end.

Definition truthyId (s : IdString) : bool :=
  match s with OidStr _ | OidCased _ _ => true | RawStr s => truthy s end.

(** [id.toString()]: twenty-four lower-case hexadecimal digits. *)
Definition hex_digit (d : N) : ascii :=
  ascii_of_N (if (d <? 10)%N then 48 + d else 87 + d)%N.

Fixpoint hex_digits (n : nat) (v : N) (acc : string) : string :=
  match n with
  | O => acc
  | S n' => hex_digits n' (v / 16)%N (String (hex_digit (v mod 16)%N) acc)
  end.

Definition oidToString (o : ObjectId) : string := hex_digits 24 o "".

(** The digits written with the case that [upper] gives. *)
Definition hex_digit_cased (up : bool) (d : N) : ascii :=
  ascii_of_N (if (d <? 10)%N then 48 + d else if up then 55 + d else 87 + d)%N.

Fixpoint hex_digits_cased (n : nat) (v upper : N) (acc : string) : string :=
  match n with
  | O => acc
  | S n' =>
      hex_digits_cased n' (v / 16)%N (upper / 2)%N
        (String (hex_digit_cased (N.odd upper) (v mod 16)%N) acc)
  end.

(** The string itself, as a template literal interpolates it. *)
Definition idText (s : IdString) : string :=
  match s with
  | OidStr o => oidToString o
  | OidCased o upper => hex_digits_cased 24 o upper ""
  | RawStr s => s
  end.

(** The ObjectId a valid string stands for. *)
Definition objectIdOf (s : IdString) : ObjectId :=
  match s with OidStr o | OidCased o _ => o | RawStr _ => 0%N end.

(** ** Strings *)

(** The characters kept by the pattern [[^a-zA-Z0-9._-]]. *)
Definition is_safe_char (c : ascii) : bool :=
  let n := nat_of_ascii c in
  (((48 <=? n) && (n <=? 57)) || ((65 <=? n) && (n <=? 90)) ||
   ((97 <=? n) && (n <=? 122)) || (n =? 46) || (n =? 95) || (n =? 45))%nat.

Fixpoint replace_unsafe (s : string) : string :=
  match s with
  | EmptyString => EmptyString
  | String c r => String (if is_safe_char c then c else "_"%char) (replace_unsafe r)
  end.

(** [s.slice(0, n)] *)
Fixpoint slice0 (n : nat) (s : string) : string :=
  match n, s with
  | S n', String c r => String c (slice0 n' r)
  | _, _ => EmptyString
  end.

(** White space as [String.prototype.trim] sees it, among code units below
    256: tab, line feed, vertical tab, form feed, carriage return, space and
    the no-break space. *)
Definition is_js_space (c : ascii) : bool :=
  let n := nat_of_ascii c in
  (((9 <=? n) && (n <=? 13)) || (n =? 32) || (n =? 160))%nat.

Fixpoint trimStart (s : string) : string :=
  match s with
  | String c r => if is_js_space c then trimStart r else s
  | EmptyString => EmptyString
  end.

Definition trim (s : string) : string :=
  String.rev (trimStart (String.rev (trimStart s))).

(** No character of the string is white space. *)
Fixpoint no_js_space (s : string) : bool :=
  match s with
  | EmptyString => true
  | String c r => negb (is_js_space c) && no_js_space r
  end.

(** folder.service.ts: [sanitizeFolderName] *)
Definition sanitizeFolderName (folderName : string) : string :=
  slice0 120 (replace_unsafe folderName).

(** file.service.ts: [sanitizeFilename] *)
Definition sanitizeFilename (originalName : string) : string :=
  slice0 180 (replace_unsafe originalName).

(** folder.service.ts: [folderPrefix] *)
Definition folderPrefix (businessId folderId : string) : string :=
  businessId +:+ "/folders/" +:+ folderId +:+ "/".

(** file.service.ts: [rootPrefix] *)
Definition rootPrefix (businessId : string) : string :=
  businessId +:+ "/root/".

(** The string functions are kept folded by [simpl]. *)
Arguments oidToString : simpl never.
Arguments hex_digits_cased : simpl never.
Arguments trim : simpl never.
Arguments sanitizeFolderName : simpl never.
Arguments sanitizeFilename : simpl never.
Arguments folderPrefix : simpl never.

(** ** Documents *)

Inductive ResourceType := RFile | RFolder.

#[global] Instance ResourceType_eq_dec : EqDecision ResourceType.
Proof. solve_decision. Defined.

(** The access-level vocabulary ([ACCESS_LEVELS], [validAccessLevels] and
    the list inside [isAction] are the same five words). *)
Definition ACCESS_LEVELS : list string :=
  ["read"; "write"; "create"; "delete"; "owner"].

Module Folder.
Record doc := mk {
  folderName : string;
  userId : ObjectId;
  businessId : ObjectId;
  parentFolderId : option ObjectId;
  s3Key : string;
  fileIds : list ObjectId;
  folderIds : list ObjectId
}.
End Folder.

Module File.
Record doc := mk {
  userId : ObjectId;
  businessId : ObjectId;
  folderId : option ObjectId;
  fileName : string;
  fileSize : Z;
  contentType : option string;
  s3Key : string
}.
End File.

Module Permission.
Record doc := mk {
  _id : ObjectId;
  userId : ObjectId;
  targetId : option ObjectId;
  targetType : option ResourceType;
  accessLevel : list string;
  isGlobal : bool
}.
End Permission.

#[global] Instance Permission_eq_dec : EqDecision Permission.doc.
Proof. solve_decision. Defined.

(** ** The store *)

(** What the blob store is asked to do and which metadata records are
    removed, in the order in which it happens. *)
Inductive Event :=
| S3DeletePrefix (prefix : string)
| S3DeleteObject (key : string)
| FilesDeletedIn (folderId : ObjectId)
| FolderDeleted (id : ObjectId)
| FileDeleted (id : ObjectId).

#[global] Instance Event_eq_dec : EqDecision Event.
Proof. solve_decision. Defined.

Record Store := mkStore {
  folders : gmap ObjectId Folder.doc;
  files : gmap ObjectId File.doc;
  permissions : list Permission.doc;
  trace : list Event;
  (** the next value of [new Types.ObjectId()] *)
  nextObjectId : ObjectId
}.

Definition set_folders (f : gmap ObjectId Folder.doc → gmap ObjectId Folder.doc)
  (st : Store) : Store :=
  mkStore (f (folders st)) (files st) (permissions st) (trace st) (nextObjectId st).

Definition set_files (f : gmap ObjectId File.doc → gmap ObjectId File.doc)
  (st : Store) : Store :=
  mkStore (folders st) (f (files st)) (permissions st) (trace st) (nextObjectId st).

Definition set_permissions (f : list Permission.doc → list Permission.doc)
  (st : Store) : Store :=
  mkStore (folders st) (files st) (f (permissions st)) (trace st) (nextObjectId st).

Definition log (e : Event) (st : Store) : Store :=
  mkStore (folders st) (files st) (permissions st) (trace st ++ [e]) (nextObjectId st).

(** ** Failures *)

(** The text of each [throw new Error(..)] of the three services. *)
Inductive Message :=
| InvalidUserID                (* permission service: "Invalid user ID" *)
| InvalidUserOrTargetID        (* "Invalid user ID or target ID" *)
| InvalidAccessLevels          (* "Invalid access level(s)" *)
| InvalidPermissionID          (* "Invalid permission ID" *)
| RequiredFields               (* "User ID, Business ID, and Folder Name are required." *)
| InvalidUserId                (* "Invalid userId" *)
| InvalidBusinessId            (* "Invalid businessId" *)
| InvalidParentFolderId        (* "Invalid parentFolderId" *)
| InvalidFolderId              (* "Invalid folderId" *)
| InvalidFileId                (* "Invalid fileId" *)
| MissingS3Key                 (* "Missing s3Key" *)
| FolderAlreadyExists (normalizedName : string)
                               (* "A folder named .. already exists in this location." *)
| ParentFolderNotFound (parentFolderId : string)
                               (* "Parent folder with ID .. not found." *)
| FolderWithIdNotFound (folderId : string)
                               (* "Folder with ID .. not found." *)
| FolderCreationFailed         (* "Folder creation failed." *)
| InvalidFolderID              (* "Invalid folder ID" *)
| InvalidFileID                (* "Invalid file ID" *)
| FolderNotFoundInDatabase     (* "Folder not found in the database" *)
| FileNotFoundForDeletion.     (* "File not found for deletion" *)

Inductive Failure :=
| AppError (statusCode : nat) (code : string)  (* new AppError({ statusCode, code }) *)
| Error (message : Message)                     (* new Error(message) *)
| CastError                                     (* a string that is not an id, used as one *)
| ValidationError (path : string)               (* save() rejected by a schema validator *)
| DuplicateKey (index : string)                 (* save() rejected by a unique index *)
| OutOfFuel.
  (* not a failure of the program: the bound the model puts on the rounds
     of a loop was reached; [deleteFolder_fuel_enough] shows it never is *)

#[global] Instance Message_eq_dec : EqDecision Message.
Proof. solve_decision. Defined.

#[global] Instance Failure_eq_dec : EqDecision Failure.
Proof. solve_decision. Defined.

(** error-handler.middleware.ts: the status the error handler answers with. *)
Definition statusCode (e : Failure) : nat :=
  match e with AppError sc _ => sc | _ => 500 end.

Inductive Result (A : Type) :=
| Ok (a : A)
| Err (e : Failure).
Arguments Ok {A} a.
Arguments Err {A} e.

(** ** The monad of service methods *)

Definition M (A : Type) : Type := Store → Result A * Store.

Definition ret {A} (a : A) : M A := λ st, (Ok a, st).

Definition bind {A B} (m : M A) (k : A → M B) : M B := λ st,
  match m st with
  | (Ok a, st') => k a st'
  | (Err e, st') => (Err e, st')
  end.

Notation "'let*' x := m 'in' k" := (bind m (λ x, k))
  (at level 10, x name, m at level 100, k at level 200, only parsing).
Notation "'do' m 'then' k" := (bind m (λ _, k))
  (at level 10, m at level 100, k at level 200, only parsing).

Definition throw {A} (e : Failure) : M A := λ st, (Err e, st).
Definition get : M Store := λ st, (Ok st, st).
Definition modify (f : Store → Store) : M unit := λ st, (Ok tt, f st).

(** [if (c) throw e;] *)
Definition throwIf (c : bool) (e : Failure) : M unit :=
  if c then throw e else ret tt.

(** ** Collection primitives *)

(** [new Types.ObjectId()], and the [_id] the database gives to an upserted
    record: the generator is a counter. *)
Definition ObjectId_new : M ObjectId := λ st,
  (Ok (nextObjectId st),
   mkStore (folders st) (files st) (permissions st) (trace st) (N.succ (nextObjectId st))).

(** [new Types.ObjectId(s)], and the cast mongoose applies to an id given as
    a string: it throws on a string that is not an id. *)
Definition ObjectId_from (s : IdString) : M ObjectId :=
  match s with
  | OidStr o | OidCased o _ => ret o
  | RawStr _ => throw CastError
  end.

Definition Folder_findById (id : ObjectId) : M (option Folder.doc) :=
  λ st, (Ok (folders st !! id), st).

Definition File_findById (id : ObjectId) : M (option File.doc) :=
  λ st, (Ok (files st !! id), st).

(** [Permission.findOne(q)]: the first record, in natural order, that the
    query matches. *)
Definition Permission_findOne (q : Permission.doc → bool) : M (option Permission.doc) :=
  λ st, (Ok (find q (permissions st)), st).

(** [Permission.exists(q)] *)
Definition Permission_exists (q : Permission.doc → bool) : M bool :=
  λ st, (Ok (existsb q (permissions st)), st).

(** ** permissions.middleware.ts *)

Record AuthContext := mkAuth {
  auth_userId : ObjectId;
  userIdString : string
}.

(** The part of the request the middleware reads: [req.auth] and
    [req.params.id]. *)
Record Request := mkRequest {
  auth : option AuthContext;
  params_id : IdString
}.

Definition isAction (action : string) : bool :=
  bool_decide (action ∈ ACCESS_LEVELS).

(** [{ userId, isGlobal: true, accessLevel: action }] *)
Definition globalQuery (userId : ObjectId) (action : string) (p : Permission.doc) : bool :=
  bool_decide (Permission.userId p = userId) && Permission.isGlobal p &&
  bool_decide (action ∈ Permission.accessLevel p).

(** [{ userId, isGlobal: false, targetType: resource, targetId, accessLevel: action }] *)
Definition specificQuery (userId : ObjectId) (resource : ResourceType)
  (resourceId : ObjectId) (action : string) (p : Permission.doc) : bool :=
  bool_decide (Permission.userId p = userId) && negb (Permission.isGlobal p) &&
  bool_decide (Permission.targetType p = Some resource) &&
  bool_decide (Permission.targetId p = Some resourceId) &&
  bool_decide (action ∈ Permission.accessLevel p).

(** [checkPermission(resource, action)] applied to a request.  [Ok tt] is
    [next()], [Err e] is [next(e)]. *)
Definition checkPermission (resource : ResourceType) (action : string)
  (req : Request) : M unit :=
  do throwIf (negb (isAction action)) (AppError 500 "PERMISSION_INVALID_ACTION") then
  let* a := match auth req with
      | Some a =>
          if truthy (userIdString a) then ret a
          else throw (AppError 401 "NOT_AUTHENTICATED")
      | None => throw (AppError 401 "NOT_AUTHENTICATED")
      end in
  let resourceId := params_id req in
  do throwIf (negb (isValid resourceId)) (AppError 400 "INVALID_ID") then
  (* 1) Ownership check *)
  let* id := ObjectId_from resourceId in
  let* ownerId := match resource with
            | RFolder =>
                let* folderDoc := Folder_findById id in
                match folderDoc with
                | None => throw (AppError 404 "FOLDER_NOT_FOUND")
                | Some d => ret (oidToString (Folder.userId d))
                end
            | RFile =>
                let* fileDoc := File_findById id in
                match fileDoc with
                | None => throw (AppError 404 "FILE_NOT_FOUND")
                | Some d => ret (oidToString (File.userId d))
                end
            end in
  if decide (ownerId = userIdString a) then ret tt else
  (* 2) Global permission *)
  let* hasGlobal := Permission_exists (globalQuery (auth_userId a) action) in
  if hasGlobal then ret tt else
  (* 3) Specific permission *)
  let* hasSpecific := Permission_exists (specificQuery (auth_userId a) resource id action) in
  if hasSpecific then ret tt else
  throw (AppError 403 "FORBIDDEN").

(** The owner recorded for a resource, if the resource exists. *)
Definition ownerOf (st : Store) (resource : ResourceType) (id : ObjectId) : option ObjectId :=
  match resource with
  | RFolder => Folder.userId <$> folders st !! id
  | RFile => File.userId <$> files st !! id
  end.

(** What [authenticate] attaches to the request of user [u]. *)
Definition authOf (u : ObjectId) : AuthContext := mkAuth u (oidToString u).

(** ** s3.service.ts *)

(** [S3Service.deletePrefix(prefix)]: nothing is asked of the blob store
    for an empty prefix; otherwise everything under the prefix is deleted. *)
Definition S3_deletePrefix (prefix : string) : M unit :=
  if negb (truthy prefix) then ret tt else modify (log (S3DeletePrefix prefix)).

(** ** folder.service.ts *)

(** The [trim: true] setters of the folder schema. *)
Definition Folder_setters (d : Folder.doc) : Folder.doc :=
  Folder.mk (trim (Folder.folderName d)) (Folder.userId d) (Folder.businessId d)
    (Folder.parentFolderId d) (trim (Folder.s3Key d)) (Folder.fileIds d)
    (Folder.folderIds d).

(** [new Folder({ _id, .. }).save()]: the schema validators ([folderName]
    and [s3Key] are required, [folderName] is not blank) and the unique
    index on [_id]. *)
Definition Folder_insert (id : ObjectId) (d : Folder.doc) : M unit := λ st,
  let d := Folder_setters d in
  if negb (truthy (trim (Folder.folderName d))) then (Err (ValidationError "folderName"), st)
  else if negb (truthy (Folder.s3Key d)) then (Err (ValidationError "s3Key"), st)
  else match folders st !! id with
       | Some _ => (Err (DuplicateKey "_id"), st)
       | None => (Ok tt, set_folders (insert id d) st)
       end.

(** [doc.save()] on a document that was read from the collection: the
    validators of the schema run again on what the record holds (no setter
    runs, as no name or key is assigned), and the record is written if they
    pass. *)
Definition Folder_save (id : ObjectId) (d : Folder.doc) : M unit := λ st,
  if negb (truthy (trim (Folder.folderName d))) then (Err (ValidationError "folderName"), st)
  else if negb (truthy (Folder.s3Key d)) then (Err (ValidationError "s3Key"), st)
  else (Ok tt, set_folders (insert id d) st).

(** Whether the validators let the record pass. *)
Definition Folder_valid (d : Folder.doc) : bool :=
  truthy (trim (Folder.folderName d)) && truthy (Folder.s3Key d).

(** [Folder.findOne(q)]: whether some folder matches is all the service
    uses. *)
Definition Folder_findOne (q : Folder.doc → bool) : M (option Folder.doc) :=
  λ st, (Ok (find q (map_to_list (folders st)).*2), st).

Definition setFolderIds (ids : list ObjectId) (d : Folder.doc) : Folder.doc :=
  Folder.mk (Folder.folderName d) (Folder.userId d) (Folder.businessId d)
    (Folder.parentFolderId d) (Folder.s3Key d) (Folder.fileIds d) ids.

Definition setFileIds (ids : list ObjectId) (d : Folder.doc) : Folder.doc :=
  Folder.mk (Folder.folderName d) (Folder.userId d) (Folder.businessId d)
    (Folder.parentFolderId d) (Folder.s3Key d) ids (Folder.folderIds d).

(** [$addToSet]: the value is appended unless the array holds it. *)
Definition addToSet (x : ObjectId) (l : list ObjectId) : list ObjectId :=
  if bool_decide (x ∈ l) then l else l ++ [x].

(** [$pull]: every occurrence of the value is removed. *)
Definition pull (x : ObjectId) (l : list ObjectId) : list ObjectId :=
  filter (λ y, y ≠ x) l.

Definition addChildFolderToFolder (parentFolderId childFolderId : IdString) : M unit :=
  let* parentFolderObjectId := ObjectId_from parentFolderId in
  let* childFolderObjectId := ObjectId_from childFolderId in
  let* parentFolderDoc := Folder_findById parentFolderObjectId in
  match parentFolderDoc with
  | None => throw (Error (ParentFolderNotFound (idText parentFolderId)))
  | Some parentFolderDoc =>
      let alreadyLinked :=
        existsb (λ existingId, bool_decide (existingId = childFolderObjectId))
          (Folder.folderIds parentFolderDoc) in
      if alreadyLinked then ret tt else
      (* parentFolderDoc.folderIds = [...folderIds, child]; parentFolderDoc.save() *)
      Folder_save parentFolderObjectId
        (setFolderIds (Folder.folderIds parentFolderDoc ++ [childFolderObjectId])
           parentFolderDoc)
  end.

Definition removeChildFolderFromFolder (parentFolderId childFolderId : IdString) : M unit :=
  let* parentFolderObjectId := ObjectId_from parentFolderId in
  let* childFolderObjectId := ObjectId_from childFolderId in
  let* parentFolderDoc := Folder_findById parentFolderObjectId in
  match parentFolderDoc with
  | None => throw (Error (ParentFolderNotFound (idText parentFolderId)))
  | Some parentFolderDoc =>
      Folder_save parentFolderObjectId
        (setFolderIds
           (filter (λ existingId, existingId ≠ childFolderObjectId)
              (Folder.folderIds parentFolderDoc))
           parentFolderDoc)
  end.

Definition addFileToFolder (fileId folderId : IdString) : M unit :=
  let* fileObjectId := ObjectId_from fileId in
  let* folderObjectId := ObjectId_from folderId in
  (* findOneAndUpdate({ _id }, { $addToSet: { fileIds: fileObjectId } }) *)
  let* updatedFolder := Folder_findById folderObjectId in
  match updatedFolder with
  | None => throw (Error (FolderWithIdNotFound (idText folderId)))
  | Some d =>
      modify (set_folders
                (insert folderObjectId (setFileIds (addToSet fileObjectId (Folder.fileIds d)) d)))
  end.

(** An optional id that is present and not the empty string. *)
Definition given (id : option IdString) : option IdString :=
  match id with
  | Some s => if truthyId s then Some s else None
  | None => None
  end.

(** [id ? new Types.ObjectId(id) : null] *)
Definition ObjectId_orNull (id : option IdString) : M (option ObjectId) :=
  match given id with
  | Some s => let* o := ObjectId_from s in ret (Some o)
  | None => ret None
  end.

(** [{ businessId, parentFolderId, folderName: normalizedName }] *)
Definition siblingQuery (businessId : ObjectId) (parentFolderId : option ObjectId)
  (normalizedName : string) (d : Folder.doc) : bool :=
  bool_decide (Folder.businessId d = businessId) &&
  bool_decide (Folder.parentFolderId d = parentFolderId) &&
  bool_decide (Folder.folderName d = normalizedName).

Definition createFolder (folderName : string) (userId businessId : IdString)
  (parentFolderId : option IdString) : M (ObjectId * Folder.doc) :=
  do throwIf (negb (truthy folderName) || negb (truthyId userId) || negb (truthyId businessId))
       (Error RequiredFields) then
  do throwIf (negb (isValid userId)) (Error InvalidUserId) then
  do throwIf (negb (isValid businessId)) (Error InvalidBusinessId) then
  do throwIf (match given parentFolderId with Some p => negb (isValid p) | None => false end)
       (Error InvalidParentFolderId) then
  let normalizedName := sanitizeFolderName (trim folderName) in
  let* newFolderId := ObjectId_new in
  let* business := ObjectId_from businessId in
  let* parent := ObjectId_orNull parentFolderId in
  let* exists_ := Folder_findOne (siblingQuery business parent normalizedName) in
  match exists_ with
  | Some _ => throw (Error (FolderAlreadyExists normalizedName))
  | None =>
      let prefix := folderPrefix (idText businessId) (oidToString newFolderId) in
      let* user := ObjectId_from userId in
      let folderDoc := Folder.mk normalizedName user business parent prefix [] [] in
      do Folder_insert newFolderId folderDoc then
      do match given parentFolderId with
         | Some p => addChildFolderToFolder p (OidStr newFolderId)
         | None => ret tt
         end then
      let* created := Folder_findById newFolderId in
      match created with
      | None => throw (Error FolderCreationFailed)
      | Some created => ret (newFolderId, created)
      end
  end.

(** [Partial<FolderSchemaType>]: each field of the schema, given or not. *)
Module FolderUpdate.
Record t := mk {
  folderName : option string;
  userId : option ObjectId;
  businessId : option ObjectId;
  parentFolderId : option (option ObjectId);
  s3Key : option string;
  fileIds : option (list ObjectId);
  folderIds : option (list ObjectId)
}.
End FolderUpdate.

(** [Folder.findByIdAndUpdate(id, update)] on one document: the fields the
    update holds are set (through the setters of the schema), the others
    stay. *)
Definition Folder_applyUpdate (u : FolderUpdate.t) (d : Folder.doc) : Folder.doc :=
  Folder.mk
    (from_option trim (Folder.folderName d) (FolderUpdate.folderName u))
    (default (Folder.userId d) (FolderUpdate.userId u))
    (default (Folder.businessId d) (FolderUpdate.businessId u))
    (default (Folder.parentFolderId d) (FolderUpdate.parentFolderId u))
    (from_option trim (Folder.s3Key d) (FolderUpdate.s3Key u))
    (default (Folder.fileIds d) (FolderUpdate.fileIds u))
    (default (Folder.folderIds d) (FolderUpdate.folderIds u)).

(** The update document as it arrives at run time, where the declared type
    is not enforced: the fields at its top level and, when it has a [$set]
    operator, the fields under that operator.  The other update operators
    are left out. *)
Module FolderBody.
Record t := mk {
  fields : FolderUpdate.t;
  set_ : option FolderUpdate.t
}.
End FolderBody.

(** A document of top-level fields only, as the declared type has it. *)
Definition FolderBody_of_fields (u : FolderUpdate.t) : FolderBody.t :=
  FolderBody.mk u None.
Coercion FolderBody_of_fields : FolderUpdate.t >-> FolderBody.t.

(** What [findByIdAndUpdate] sets for an update document: mongoose gathers
    the top-level fields into [$set], where a top-level field replaces the
    field of the same name. *)
Definition Folder_applyBody (b : FolderBody.t) (d : Folder.doc) : Folder.doc :=
  Folder_applyUpdate (FolderBody.fields b)
    (from_option Folder_applyUpdate id (FolderBody.set_ b) d).

(** [Folder.findByIdAndUpdate(id, update, { new: true })] and the same with
    [{ $pull: .. }] *)
Definition Folder_findByIdAndUpdate (id : ObjectId) (f : Folder.doc → Folder.doc)
  : M (option Folder.doc) := λ st,
  (Ok (f <$> folders st !! id), set_folders (alter f id) st).

Definition updateFolder (id : IdString) (folderData : FolderBody.t)
  : M (option Folder.doc) :=
  do throwIf (negb (isValid id)) (Error InvalidFolderID) then
  let update := FolderBody.fields folderData in
  let folderName :=
    match FolderUpdate.folderName update with
    | Some n => if truthy n then Some (sanitizeFolderName (trim n)) else Some n
    | None => None
    end in
  (* Never change s3Key on rename: delete update.s3Key *)
  let update :=
    FolderUpdate.mk folderName (FolderUpdate.userId update) (FolderUpdate.businessId update)
      (FolderUpdate.parentFolderId update) None (FolderUpdate.fileIds update)
      (FolderUpdate.folderIds update) in
  let update := FolderBody.mk update (FolderBody.set_ folderData) in
  let* oid := ObjectId_from id in
  Folder_findByIdAndUpdate oid (Folder_applyBody update).

(** [File.deleteMany({ folderId })] *)
Definition File_deleteMany (folderId : ObjectId) : M unit :=
  do modify (set_files (filter (λ kv, File.folderId kv.2 ≠ Some folderId))) then
  modify (log (FilesDeletedIn folderId)).

(** [Folder.findByIdAndDelete(id)] *)
Definition Folder_findByIdAndDelete (id : ObjectId) : M (option Folder.doc) :=
  let* d := Folder_findById id in
  do modify (set_folders (delete id)) then
  do modify (log (FolderDeleted id)) then
  ret d.

(** The number of rounds the walk of [deleteFolder] can take from a stack
    and a folder collection: a round pops one id, and pushes the children of
    a folder only when it deletes that folder. *)
Definition loopBound (stack : list ObjectId) (fs : gmap ObjectId Folder.doc) : nat :=
  length stack +
  sum_list_with (λ kv : ObjectId * Folder.doc, S (length (Folder.folderIds kv.2)))
    (map_to_list fs).

(** The [while (folderIdStack.length)] loop of [deleteFolder].  The stack is
    a list whose head is the top: [pop()] takes the head, and pushing the
    children in order leaves the last child on top. *)
Fixpoint deleteSubtree (fuel : nat) (folderIdStack : list ObjectId) : M unit :=
  match folderIdStack with
  | [] => ret tt
  | childFolderId :: folderIdStack =>
      match fuel with
      | O => throw OutOfFuel
      | S fuel =>
          let* childFolder := Folder_findById childFolderId in
          match childFolder with
          | None => deleteSubtree fuel folderIdStack
          | Some childFolder =>
              do S3_deletePrefix (Folder.s3Key childFolder) then
              do File_deleteMany childFolderId then
              let folderIdStack := reverse (Folder.folderIds childFolder) ++ folderIdStack in
              do Folder_findByIdAndDelete childFolderId then
              deleteSubtree fuel folderIdStack
          end
      end
  end.

Definition deleteFolder (id : IdString) : M (option Folder.doc) :=
  do throwIf (negb (isValid id)) (Error InvalidFolderID) then
  let* oid := ObjectId_from id in
  let* rootFolder := Folder_findById oid in
  match rootFolder with
  | None => throw (Error FolderNotFoundInDatabase)
  | Some rootFolder =>
      (* 1) Delete S3 objects under this folder prefix *)
      do S3_deletePrefix (Folder.s3Key rootFolder) then
      (* 2) Delete files directly in this folder *)
      do File_deleteMany oid then
      (* 3) Walk subtree *)
      let folderIdStack := reverse (Folder.folderIds rootFolder) in
      let* st := get in
      do deleteSubtree (loopBound folderIdStack (folders st)) folderIdStack then
      (* unlink from parent.folderIds *)
      do match Folder.parentFolderId rootFolder with
         | Some parent =>
             do Folder_findByIdAndUpdate parent
                  (λ d, setFolderIds (pull oid (Folder.folderIds d)) d) then
             ret tt
         | None => ret tt
         end then
      Folder_findByIdAndDelete oid
  end.

(** ** file.service.ts *)

(** The [trim: true] setters of the file schema. *)
Definition File_setters (d : File.doc) : File.doc :=
  File.mk (File.userId d) (File.businessId d) (File.folderId d) (trim (File.fileName d))
    (File.fileSize d) (trim <$> File.contentType d) (trim (File.s3Key d)).

Definition s3KeyTaken (key : string) (fl : gmap ObjectId File.doc) : bool :=
  existsb (λ d, bool_decide (File.s3Key d = key)) (map_to_list fl).*2.

(** [new File({ _id, .. }).save()]: the schema validators ([fileName] is
    required and not blank, [fileSize] is at least 0, [s3Key] is required)
    and the unique indexes on [_id] and [s3Key]. *)
Definition File_insert (id : ObjectId) (d : File.doc) : M File.doc := λ st,
  let d := File_setters d in
  if negb (truthy (trim (File.fileName d))) then (Err (ValidationError "fileName"), st)
  else if (File.fileSize d <? 0)%Z then (Err (ValidationError "fileSize"), st)
  else if negb (truthy (File.s3Key d)) then (Err (ValidationError "s3Key"), st)
  else match files st !! id with
       | Some _ => (Err (DuplicateKey "_id"), st)
       | None =>
           if s3KeyTaken (File.s3Key d) (files st) then (Err (DuplicateKey "s3Key"), st)
           else (Ok d, set_files (insert id d) st)
       end.

Record CompleteUploadParams := mkCompleteUpload {
  cu_fileId : IdString;
  cu_userId : IdString;
  cu_businessId : IdString;
  cu_folderId : option IdString;
  cu_fileName : string;
  cu_fileSize : Z;
  cu_contentType : option string;
  cu_s3Key : string
}.

Definition completeUpload (params : CompleteUploadParams) : M File.doc :=
  let fileId := cu_fileId params in
  let userId := cu_userId params in
  let businessId := cu_businessId params in
  let folderId := cu_folderId params in
  let s3Key := cu_s3Key params in
  do throwIf (negb (isValid fileId)) (Error InvalidFileId) then
  do throwIf (negb (isValid userId)) (Error InvalidUserId) then
  do throwIf (negb (isValid businessId)) (Error InvalidBusinessId) then
  do throwIf (match given folderId with Some f => negb (isValid f) | None => false end)
       (Error InvalidFolderId) then
  do throwIf (negb (truthy s3Key)) (Error MissingS3Key) then
  let* file := ObjectId_from fileId in
  let* user := ObjectId_from userId in
  let* business := ObjectId_from businessId in
  let* folder := ObjectId_orNull folderId in
  let newFileDocument :=
    File.mk user business folder (sanitizeFilename (trim (cu_fileName params)))
      (cu_fileSize params) (cu_contentType params) s3Key in
  let* savedFile := File_insert file newFileDocument in
  do match given folderId with
     | Some f => addFileToFolder (OidStr file) f
     | None => ret tt
     end then
  ret savedFile.

(** [S3Service.deleteObject(key)] *)
Definition S3_deleteObject (key : string) : M unit :=
  if negb (truthy key) then ret tt else modify (log (S3DeleteObject key)).

(** [File.findByIdAndDelete(id)] *)
Definition File_findByIdAndDelete (id : ObjectId) : M (option File.doc) :=
  let* d := File_findById id in
  do modify (set_files (delete id)) then
  do modify (log (FileDeleted id)) then
  ret d.

(** [Partial<FileSchemaType>] *)
Module FileUpdate.
Record t := mk {
  userId : option ObjectId;
  businessId : option ObjectId;
  folderId : option (option ObjectId);
  fileName : option string;
  fileSize : option Z;
  contentType : option (option string);
  s3Key : option string
}.
End FileUpdate.

Definition File_applyUpdate (u : FileUpdate.t) (d : File.doc) : File.doc :=
  File.mk
    (default (File.userId d) (FileUpdate.userId u))
    (default (File.businessId d) (FileUpdate.businessId u))
    (default (File.folderId d) (FileUpdate.folderId u))
    (from_option trim (File.fileName d) (FileUpdate.fileName u))
    (default (File.fileSize d) (FileUpdate.fileSize u))
    (from_option (fmap trim) (File.contentType d) (FileUpdate.contentType u))
    (from_option trim (File.s3Key d) (FileUpdate.s3Key u)).

(** The update document of a file as it arrives at run time: top-level
    fields and the fields under [$set]. *)
Module FileBody.
Record t := mk {
  fields : FileUpdate.t;
  set_ : option FileUpdate.t
}.
End FileBody.

Definition FileBody_of_fields (u : FileUpdate.t) : FileBody.t :=
  FileBody.mk u None.
Coercion FileBody_of_fields : FileUpdate.t >-> FileBody.t.

Definition File_applyBody (b : FileBody.t) (d : File.doc) : File.doc :=
  File_applyUpdate (FileBody.fields b)
    (from_option File_applyUpdate id (FileBody.set_ b) d).

(** [File.findByIdAndUpdate(id, update, { new: true })] *)
Definition File_findByIdAndUpdate (id : ObjectId) (f : File.doc → File.doc)
  : M (option File.doc) := λ st,
  (Ok (f <$> files st !! id), set_files (alter f id) st).

Definition updateFile (id : IdString) (fileData : FileBody.t) : M (option File.doc) :=
  do throwIf (negb (isValid id)) (Error InvalidFileID) then
  (* const { s3Key: _ignoreS3Key, ...safeUpdate } = fileData *)
  let top := FileBody.fields fileData in
  let safeUpdate :=
    FileBody.mk
      (FileUpdate.mk (FileUpdate.userId top) (FileUpdate.businessId top)
         (FileUpdate.folderId top) (FileUpdate.fileName top)
         (FileUpdate.fileSize top) (FileUpdate.contentType top) None)
      (FileBody.set_ fileData) in
  let* oid := ObjectId_from id in
  File_findByIdAndUpdate oid (File_applyBody safeUpdate).

Definition deleteFile (id : IdString) : M (option File.doc) :=
  do throwIf (negb (isValid id)) (Error InvalidFileID) then
  let* oid := ObjectId_from id in
  let* fileDocument := File_findById oid in
  match fileDocument with
  | None => throw (Error FileNotFoundForDeletion)
  | Some fileDocument =>
      (* unlink from folder fileIds *)
      do match File.folderId fileDocument with
         | Some folder =>
             do Folder_findByIdAndUpdate folder
                  (λ d, setFileIds (pull oid (Folder.fileIds d)) d) then
             ret tt
         | None => ret tt
         end then
      (* delete from S3 first *)
      do (if truthy (File.s3Key fileDocument)
          then S3_deleteObject (File.s3Key fileDocument) else ret tt) then
      File_findByIdAndDelete oid
  end.

(** ** permission.service.ts *)

(** [AccessLevelInput = AccessLevel | AccessLevel[]], as it arrives at run
    time: one string or an array of strings. *)
Inductive AccessLevelInput :=
| Single (level : string)
| Many (levels : list string).

Definition validateAccessLevel (accessLevel : AccessLevelInput) : bool :=
  let validAccessLevels := ACCESS_LEVELS in
  match accessLevel with
  | Many levels => forallb (λ level, bool_decide (level ∈ validAccessLevels)) levels
  | Single level => bool_decide (level ∈ validAccessLevels)
  end.

(** [Array.isArray(accessLevel) ? accessLevel : [accessLevel]] *)
Definition toArray (accessLevel : AccessLevelInput) : list string :=
  match accessLevel with Many levels => levels | Single level => [level] end.

(** [{ userId, isGlobal: true }] *)
Definition userGlobalQuery (userId : ObjectId) (p : Permission.doc) : bool :=
  bool_decide (Permission.userId p = userId) && Permission.isGlobal p.

(** [{ userId, targetId, targetType }] *)
Definition targetQuery (userId targetId : ObjectId) (targetType : ResourceType)
  (p : Permission.doc) : bool :=
  bool_decide (Permission.userId p = userId) &&
  bool_decide (Permission.targetId p = Some targetId) &&
  bool_decide (Permission.targetType p = Some targetType).

Definition hasId (id : ObjectId) (p : Permission.doc) : bool :=
  bool_decide (Permission._id p = id).

(** Insertion of a new record: the unique index on [_id] rejects a second
    record with the same id; otherwise the record comes last in natural
    order. *)
Definition Permission_insert (p : Permission.doc) : M unit := λ st,
  if existsb (hasId (Permission._id p)) (permissions st)
  then (Err (DuplicateKey "_id"), st)
  else (Ok tt, set_permissions (λ ps, ps ++ [p]) st).

(** [Permission.create({ userId, targetId, targetType, accessLevel, isGlobal })] *)
Definition Permission_create (userId : ObjectId) (targetId : option ObjectId)
  (targetType : option ResourceType) (accessLevel : list string) (isGlobal : bool)
  : M Permission.doc :=
  let* id := ObjectId_new in
  let p := Permission.mk id userId targetId targetType accessLevel isGlobal in
  do Permission_insert p then
  ret p.

(** The first element that [q] matches is replaced by its image under [f];
    nothing else changes. *)
Fixpoint update_first {A} (q : A → bool) (f : A → A) (l : list A) : list A :=
  match l with
  | [] => []
  | x :: r => if q x then f x :: r else x :: update_first q f r
  end.

Definition setAccessLevel (accessLevels : list string) (p : Permission.doc) : Permission.doc :=
  Permission.mk (Permission._id p) (Permission.userId p) (Permission.targetId p)
    (Permission.targetType p) accessLevels (Permission.isGlobal p).

(** [{ $set: { accessLevel: accessLevels, isGlobal: false } }] *)
Definition setAccessLevelNotGlobal (accessLevels : list string) (p : Permission.doc)
  : Permission.doc :=
  Permission.mk (Permission._id p) (Permission.userId p) (Permission.targetId p)
    (Permission.targetType p) accessLevels false.

(** [existingPermission.accessLevel = accessLevels; existingPermission.save()] *)
Definition Permission_saveAccessLevel (existingPermission : Permission.doc)
  (accessLevels : list string) : M Permission.doc :=
  do modify (set_permissions
               (update_first (hasId (Permission._id existingPermission))
                  (setAccessLevel accessLevels))) then
  ret (setAccessLevel accessLevels existingPermission).

(** [updateOne: { filter: { userId, targetId, targetType },
                 update: { $set: { accessLevel, isGlobal: false } }, upsert: true }] *)
Definition Permission_upsertOne (userId targetId : ObjectId) (targetType : ResourceType)
  (accessLevels : list string) : M unit :=
  let* st := get in
  if existsb (targetQuery userId targetId targetType) (permissions st)
  then modify (set_permissions
                 (update_first (targetQuery userId targetId targetType)
                    (setAccessLevelNotGlobal accessLevels)))
  else
    let* id := ObjectId_new in
    Permission_insert
      (Permission.mk id userId (Some targetId) (Some targetType) accessLevels false).

(** [Permission.bulkWrite(operations)]: the operations run in order and the
    first failure stops the batch. *)
Fixpoint Permission_bulkWrite (userId : IdString)
  (items : list (ObjectId * ResourceType)) (accessLevels : list string) : M unit :=
  match items with
  | [] => ret tt
  | item :: rest =>
      let* u := ObjectId_from userId in
      do Permission_upsertOne u item.1 item.2 accessLevels then
      Permission_bulkWrite userId rest accessLevels
  end.

(** One round of [$graphLookup]: the ids of the documents of [from] whose
    [connectToField] ([parentFolderId]) is one of the [frontier] values. *)
Definition parentIn (frontier : list ObjectId) (kv : ObjectId * Folder.doc) : bool :=
  match Folder.parentFolderId kv.2 with
  | Some p => bool_decide (p ∈ frontier)
  | None => false
  end.

Definition connected (fs : gmap ObjectId Folder.doc) (frontier : list ObjectId)
  : list ObjectId :=
  (filter (parentIn frontier) (map_to_list fs)).*1.

(** [$graphLookup] from the values [frontier] through
    [connectFromField: _id], [connectToField: parentFolderId]: each round
    adds the documents connected to the last ones found that were not found
    before, until a round adds nothing.  [fuel] bounds the rounds; the
    number of documents is enough ([graphLookup_complete]). *)
Fixpoint graphLookup (fuel : nat) (fs : gmap ObjectId Folder.doc)
  (found frontier : list ObjectId) : list ObjectId :=
  match fuel with
  | O => found
  | S fuel' =>
      match filter (λ i, i ∉ found) (connected fs frontier) with
      | [] => found
      | new => graphLookup fuel' fs (found ++ new) new
      end
  end.

(** The aggregation of [getAllNestedFoldersAndFiles]:
    [$match { _id: folderId }], [$graphLookup .. as nestedFolders],
    [$unwind], [$project { _id: nestedFolders._id }]. *)
Definition nestedFolders (fs : gmap ObjectId Folder.doc) (folderId : ObjectId)
  : list ObjectId :=
  match fs !! folderId with
  | Some _ => graphLookup (size fs) fs [] [folderId]
  | None => []
  end.

Definition folderIdIn (ids : list ObjectId) (kv : ObjectId * File.doc) : bool :=
  match File.folderId kv.2 with
  | Some p => bool_decide (p ∈ ids)
  | None => false
  end.

(** [File.find({ folderId: { $in: ids } }).select('_id')] *)
Definition File_findIn (fl : gmap ObjectId File.doc) (ids : list ObjectId)
  : list ObjectId :=
  (filter (folderIdIn ids) (map_to_list fl)).*1.

(** What [getAllNestedFoldersAndFiles] reads from the store. *)
Definition nestedItems (st : Store) (root : ObjectId) : list (ObjectId * ResourceType) :=
  let folders := nestedFolders (folders st) root in
  let allFolderIds := root :: folders in
  let files := File_findIn (files st) allFolderIds in
  ((λ f, (f, RFolder)) <$> folders) ++ ((λ f, (f, RFile)) <$> files).

Definition getAllNestedFoldersAndFiles (folderId : IdString)
  : M (list (ObjectId * ResourceType)) :=
  let* root := ObjectId_from folderId in
  let* st := get in
  ret (nestedItems st root).

Definition propagatePermissions (userId folderId : IdString)
  (accessLevels : list string) : M unit :=
  let* nestedItems := getAllNestedFoldersAndFiles folderId in
  match nestedItems with
  | [] => ret tt
  | _ => Permission_bulkWrite userId nestedItems accessLevels
  end.

Definition grantGlobalPermission (userId : IdString) (accessLevel : AccessLevelInput)
  : M Permission.doc :=
  do throwIf (negb (isValid userId)) (Error InvalidUserID) then
  do throwIf (negb (validateAccessLevel accessLevel)) (Error InvalidAccessLevels) then
  let accessLevels := toArray accessLevel in
  let* u := ObjectId_from userId in
  let* existingPermission := Permission_findOne (userGlobalQuery u) in
  match existingPermission with
  | Some existing => Permission_saveAccessLevel existing accessLevels
  | None => Permission_create u None None accessLevels true
  end.

Definition grantSpecificPermission (userId targetId : IdString)
  (targetType : ResourceType) (accessLevel : AccessLevelInput)
  : M (option Permission.doc) :=
  do throwIf (negb (isValid userId) || negb (isValid targetId))
       (Error InvalidUserOrTargetID) then
  do throwIf (negb (validateAccessLevel accessLevel)) (Error InvalidAccessLevels) then
  let accessLevels := toArray accessLevel in
  let* u := ObjectId_from userId in
  let* t := ObjectId_from targetId in
  let* existingPermission := Permission_findOne (targetQuery u t targetType) in
  do match existingPermission with
     | Some existing => Permission_saveAccessLevel existing accessLevels
     | None => Permission_create u (Some t) (Some targetType) accessLevels false
     end then
  do match targetType with
     | RFolder => propagatePermissions userId targetId accessLevels
     | RFile => ret tt
     end then
  Permission_findOne (targetQuery u t targetType).

(** [Permission.findByIdAndDelete(id)]: the record with this id is removed. *)
Fixpoint delete_first {A} (q : A → bool) (l : list A) : list A :=
  match l with
  | [] => []
  | x :: r => if q x then r else x :: delete_first q r
  end.

Definition revokePermission (permissionId : IdString) : M unit :=
  do throwIf (negb (isValid permissionId)) (Error InvalidPermissionID) then
  let* id := ObjectId_from permissionId in
  modify (set_permissions (delete_first (hasId id))).

(** ** The subtree of a folder *)




(** ** Grants *)

(** A global grant of [action] to user [u]. *)
Definition globalGrant (u : ObjectId) (action : string) (p : Permission.doc) : Prop :=
  Permission.userId p = u ∧ Permission.isGlobal p = true ∧
  action ∈ Permission.accessLevel p.

(** A grant of [action] to user [u] scoped to exactly ([id], [resource]). *)
Definition specificGrant (u : ObjectId) (resource : ResourceType) (id : ObjectId)
  (action : string) (p : Permission.doc) : Prop :=
  Permission.userId p = u ∧ Permission.isGlobal p = false ∧
  Permission.targetType p = Some resource ∧ Permission.targetId p = Some id ∧
  action ∈ Permission.accessLevel p.

(** Some record grants user [u] exactly [levels] on [item], as a
    resource-scoped (not global) permission. *)
Definition granted (u : ObjectId) (levels : list string) (item : ObjectId * ResourceType)
  (st : Store) : Prop :=
  ∃ p, p ∈ permissions st ∧ Permission.userId p = u ∧
       Permission.targetId p = Some item.1 ∧ Permission.targetType p = Some item.2 ∧
       Permission.accessLevel p = levels ∧ Permission.isGlobal p = false.

(** The record [findOne] returns for user [u] and [item] grants exactly
    [levels] and is not global. *)
Definition readsBack (u : ObjectId) (levels : list string) (item : ObjectId * ResourceType)
  (st : Store) : Prop :=
  ∃ p, find (targetQuery u item.1 item.2) (permissions st) = Some p ∧
       Permission.accessLevel p = levels ∧ Permission.isGlobal p = false.

(** [p] is a record for user [u] and one of [items]. *)
Definition keyedBy (u : ObjectId) (items : list (ObjectId * ResourceType))
  (p : Permission.doc) : Prop :=
  ∃ item, item ∈ items ∧ Permission.userId p = u ∧
          Permission.targetId p = Some item.1 ∧ Permission.targetType p = Some item.2.

(** The [_id] index of the permission collection: no two records share an
    id. *)
Definition uniqueIds (st : Store) : Prop :=
  NoDup (Permission._id <$> permissions st).

(** No folder lists a child file or a child folder twice. *)
Definition noDuplicateChildren (st : Store) : Prop :=
  ∀ i d, folders st !! i = Some d →
         NoDup (Folder.fileIds d) ∧ NoDup (Folder.folderIds d).

(** In the trace [t], [first] happens and [second] happens later. *)
Definition before (first second : Event) (t : list Event) : Prop :=
  ∃ t1 t2 t3, t = t1 ++ first :: t2 ++ second :: t3.

(** The store after the round of the walk that deletes folder [c], whose
    record is [d]. *)
Definition afterFolderRound (c : ObjectId) (d : Folder.doc) (st : Store) : Store :=
  log (FolderDeleted c)
    (set_folders (delete c)
       (log (FilesDeletedIn c)
          (set_files (filter (λ kv, File.folderId kv.2 ≠ Some c))
             (if negb (truthy (Folder.s3Key d)) then st
              else log (S3DeletePrefix (Folder.s3Key d)) st)))).

(** The store after steps 1 and 2 of [deleteFolder] on folder [root], whose
    record is [d]: its prefix and the files directly in it are deleted. *)
Definition afterRootFiles (root : ObjectId) (d : Folder.doc) (st : Store) : Store :=
  log (FilesDeletedIn root)
    (set_files (filter (λ kv, File.folderId kv.2 ≠ Some root))
       (if negb (truthy (Folder.s3Key d)) then st
        else log (S3DeletePrefix (Folder.s3Key d)) st)).

(** The store after [deleteFolder] has unlinked [root] from its parent. *)
Definition afterUnlink (root : ObjectId) (d : Folder.doc) (st : Store) : Store :=
  match Folder.parentFolderId d with
  | Some parent =>
      set_folders (alter (λ p, setFolderIds (pull root (Folder.folderIds p)) p) parent) st
  | None => st
  end.

(** ** Stores used in the examples *)

Definition store_empty : Store := mkStore ∅ ∅ [] [] 1000.

Definition store_owned : Store :=
  mkStore {[ 10%N := Folder.mk "Reports" 7 1 None "1/folders/10/" [] [] ]} ∅ [] [] 100.

(** User 8 is not the owner of folder 10; the global grant lists [read]
    only, the grant scoped to the folder lists [write] only. *)
Definition store_two_tiers : Store :=
  mkStore {[ 10%N := Folder.mk "Reports" 7 1 None "1/folders/10/" [] [] ]} ∅
    [ Permission.mk 50 8 None None ["read"] true;
      Permission.mk 51 8 (Some 10%N) (Some RFolder) ["write"] false ]
    [] 100.

(** Folder 1 holds folder 2, which holds file 3; folder 9 is elsewhere.
    User 8 has an old grant on folder 2 and a grant on folder 9; user 5 has
    a grant on folder 2. *)
Definition store_tree : Store :=
  mkStore
    {[ 1%N := Folder.mk "Reports" 7 100 None "100/folders/1/" [] [2%N];
       2%N := Folder.mk "2024" 7 100 (Some 1%N) "100/folders/2/" [3%N] [];
       9%N := Folder.mk "Other" 7 100 None "100/folders/9/" [] [] ]}
    {[ 3%N := File.mk 7 100 (Some 2%N) "q1.pdf" 10000 None "100/folders/2/files/3-q1.pdf" ]}
    [ Permission.mk 50 8 (Some 2%N) (Some RFolder) ["write"; "delete"] false;
      Permission.mk 51 8 (Some 9%N) (Some RFolder) ["write"] false;
      Permission.mk 52 5 (Some 2%N) (Some RFolder) ["owner"] false ]
    [] 1000.

(** Workspace 100 holds a root folder stored as [Q1_report]. *)
Definition store_sibling : Store :=
  mkStore {[ 10%N := Folder.mk "Q1_report" 7 100 None "100/folders/10/" [] [] ]}
    ∅ [] [] 1000.

(** Home (20) holds root (1), which holds A (2), which holds B (3); file 4
    is in B, and B still lists a child, 99, that no longer exists. *)
Definition store_delete : Store :=
  mkStore
    {[ 20%N := Folder.mk "Home" 7 100 None "100/folders/20/" [] [1%N];
       1%N := Folder.mk "root" 7 100 (Some 20%N) "100/folders/1/" [] [2%N];
       2%N := Folder.mk "A" 7 100 (Some 1%N) "100/folders/2/" [] [3%N];
       3%N := Folder.mk "B" 7 100 (Some 2%N) "100/folders/3/" [4%N] [99%N] ]}
    {[ 4%N := File.mk 7 100 (Some 3%N) "q1.pdf" 10000 None "100/folders/3/files/4-q1.pdf" ]}
    [] [] 1000.

(** ** permission.service.ts: the queries *)

Definition getGlobalPermissions (userId : IdString) : M (option Permission.doc) :=
  do throwIf (negb (isValid userId)) (Error InvalidUserID) then
  let* u := ObjectId_from userId in
  Permission_findOne (userGlobalQuery u).






(** ** folder.service.ts: lookup by name *)

(** [{ businessId, folderName, parentFolderId }]: the name is not sanitized;
    mongoose casts it with the setters of the schema, so it is trimmed
    before it is compared. *)
Definition getFolderByName (businessId : IdString) (folderName : string)
  (parentFolderId : option IdString) : M (option Folder.doc) :=
  let* business := ObjectId_from businessId in
  let* parent := ObjectId_orNull parentFolderId in
  Folder_findOne (siblingQuery business parent (trim folderName)).

(** ** Folders reached through the child lists *)

(** [c] is reached from [root] by following [folderIds] entries of stored
    folders, which is the walk of [deleteFolder]. *)
Inductive listedBelow (fs : gmap ObjectId Folder.doc) (root : ObjectId)
  : ObjectId → Prop :=
| listed_child (c : ObjectId) (doc : Folder.doc) :
    fs !! root = Some doc → c ∈ Folder.folderIds doc → listedBelow fs root c
| listed_deeper (c i : ObjectId) (doc : Folder.doc) :
    listedBelow fs root i → fs !! i = Some doc → c ∈ Folder.folderIds doc →
    listedBelow fs root c.

(** The record [findOne] returns for user [u] and [item] lists exactly
    [levels]. *)
Definition readsLevels (u : ObjectId) (levels : list string)
  (item : ObjectId * ResourceType) (st : Store) : Prop :=
  ∃ p, find (targetQuery u item.1 item.2) (permissions st) = Some p ∧
       Permission.accessLevel p = levels.

(** ** Names *)

(** Every character of the string is one the sanitizers keep. *)
Fixpoint all_safe (s : string) : bool :=
  match s with
  | EmptyString => true
  | String c r => is_safe_char c && all_safe r
  end.

(** Some character of the string is not white space. *)
Fixpoint some_non_space (s : string) : bool :=
  match s with
  | EmptyString => false
  | String c r => negb (is_js_space c) || some_non_space r
  end.

(** ** s3.service.ts: presigned urls *)

(** A JavaScript number: a finite one, taken as the rational it is, or one
    of the three that are not finite. *)
Inductive JsNumber :=
| Finite (q : QArith_base.Q)
| NaN
| Infinity
| NegInfinity.

(** [Number.isFinite(x)] *)
Definition Number_isFinite (x : JsNumber) : bool :=
  match x with Finite _ => true | NaN | Infinity | NegInfinity => false end.

(** [x <= 0] *)
Definition le_zero (x : JsNumber) : bool :=
  match x with
  | Finite q => QArith_base.Qle_bool q (QArith_base.inject_Z 0)
  | NegInfinity => true
  | NaN | Infinity => false
  end.

Definition MAX_PRESIGN_SECONDS : QArith_base.Q := QArith_base.inject_Z (60 * 60).

(** [normalizeExpirySeconds]; [None] is the [throw].  Past the guard the
    number is finite, and so is what [Math.min] answers. *)
Definition normalizeExpirySeconds (expiresInSeconds : option JsNumber)
  : option QArith_base.Q :=
  let requested := default (Finite MAX_PRESIGN_SECONDS) expiresInSeconds in
  if negb (Number_isFinite requested) || le_zero requested then None
  else
    match requested with
    | Finite q =>
        Some (if QArith_base.Qle_bool q MAX_PRESIGN_SECONDS then q
              else MAX_PRESIGN_SECONDS)
    | NaN | Infinity | NegInfinity => None
    end.

(** ** file.service.ts: the start of an upload *)

(** The store after [new Types.ObjectId()] handed out one id. *)
Definition afterNewId (st : Store) : Store :=
  mkStore (folders st) (files st) (permissions st) (trace st) (N.succ (nextObjectId st)).

(** What [startUpload] and the presign methods throw: one of the failures
    above, or an [Error] whose text is not among [Message]. *)
Inductive Thrown :=
| Listed (e : Failure)
| ErrorText (message : string).

Record StartUploadParams := mkStartUpload {
  su_businessId : IdString;
  su_userId : IdString;
  su_folderId : option IdString;
  su_fileName : string;
  su_fileSize : Z;
  su_contentType : option string
}.

Record StartUploadResult := mkStartUploadResult {
  sr_fileId : string;
  sr_s3Key : string;
  sr_uploadUrl : string;
  sr_normalizedFileName : string
}.

Section presign.

(** [getSignedUrl(client, command, { expiresIn })] of the AWS SDK: the url
    it computes from the method, the key, the content type and the lifetime
    is left open.  The bucket name is taken to be configured. *)
Variable getSignedUrl : string → string → option string → QArith_base.Q → string.

(** [S3Service.presignUpload({ key, contentType, expiresInSeconds })] *)
Definition presignUpload (objectKey : string) (contentType : option string)
  (expiresInSeconds : option JsNumber) : Thrown + string :=
  if negb (truthy objectKey) then inl (ErrorText "Missing S3 object key") else
  (* ...(contentType ? { ContentType: contentType } : {}) *)
  let contentType :=
    match contentType with
    | Some c => if truthy c then Some c else None
    | None => None
    end in
  match normalizeExpirySeconds expiresInSeconds with
  | None => inl (ErrorText "expiresInSeconds must be a positive number")
  | Some expiresIn => inr (getSignedUrl "PUT" objectKey contentType expiresIn)
  end.

(** [S3Service.presignDownload(objectKey, expiresInSeconds)] *)
Definition presignDownload (objectKey : string) (expiresInSeconds : option JsNumber)
  : Thrown + string :=
  if negb (truthy objectKey) then inl (ErrorText "Missing S3 object key") else
  match normalizeExpirySeconds expiresInSeconds with
  | None => inl (ErrorText "expiresInSeconds must be a positive number")
  | Some expiresIn => inr (getSignedUrl "GET" objectKey None expiresIn)
  end.

(** [startUpload]: no record is written; the id is generated and the key is
    decided here, for [completeUpload] to store. *)
Definition startUpload (params : StartUploadParams) (st : Store)
  : (Thrown + StartUploadResult) * Store :=
  let businessId := su_businessId params in
  let userId := su_userId params in
  let folderId := su_folderId params in
  let fileName := su_fileName params in
  let fileSize := su_fileSize params in
  if negb (isValid businessId) then (inl (Listed (Error InvalidBusinessId)), st) else
  if negb (isValid userId) then (inl (Listed (Error InvalidUserId)), st) else
  if negb (truthy fileName) then (inl (ErrorText "Invalid fileName"), st) else
  if (fileSize <? 0)%Z then (inl (ErrorText "Invalid fileSize"), st) else
  let normalizedFileName := sanitizeFilename (trim fileName) in
  (* Generate fileId now so key is stable *)
  let fileId := nextObjectId st in
  let st := afterNewId st in
  let keyPrefix : Thrown + string :=
    match given folderId with
    | Some f =>
        if negb (isValid f) then inl (Listed (Error InvalidFolderId)) else
        match folders st !! objectIdOf f with
        | None => inl (ErrorText "Folder not found")
        | Some folder => inr (Folder.s3Key folder)
        end
    | None => inr (rootPrefix (idText businessId))
    end in
  match keyPrefix with
  | inl e => (inl e, st)
  | inr keyPrefix =>
      (* Stable key: prefix + files/<fileId>-<name> *)
      let s3Key :=
        keyPrefix +:+ "files/" +:+ oidToString fileId +:+ "-" +:+ normalizedFileName in
      match presignUpload s3Key (su_contentType params)
              (Some (Finite (QArith_base.inject_Z 3600))) with
      | inl e => (inl e, st)
      | inr uploadUrl =>
          (inr (mkStartUploadResult (oidToString fileId) s3Key uploadUrl normalizedFileName),
           st)
      end
  end.

End presign.

(** ** Stores used in the examples, continued *)

(** User 8 holds a global grant and a grant on file 3. *)
Definition store_grants : Store :=
  mkStore
    {[ 1%N := Folder.mk "Reports" 7 100 None "100/folders/1/" [3%N] [] ]}
    {[ 3%N := File.mk 7 100 (Some 1%N) "q1.pdf" 10000 None "100/folders/1/files/3-q1.pdf" ]}
    [ Permission.mk 50 8 None None ["read"] true;
      Permission.mk 51 8 (Some 3%N) (Some RFile) ["write"] false;
      Permission.mk 52 5 None None ["owner"] true ]
    [] 1000.

(** Folders 1 and 2 list each other as children. *)
Definition store_cycle : Store :=
  mkStore
    {[ 1%N := Folder.mk "a" 7 100 (Some 2%N) "100/folders/1/" [] [2%N];
       2%N := Folder.mk "b" 7 100 (Some 1%N) "100/folders/2/" [] [1%N];
       5%N := Folder.mk "c" 7 100 None "100/folders/5/" [] [] ]}
    {[ 4%N := File.mk 7 100 (Some 2%N) "q1.pdf" 10 None "100/folders/2/files/4-q1.pdf";
       6%N := File.mk 7 100 (Some 5%N) "q2.pdf" 10 None "100/folders/5/files/6-q2.pdf" ]}
    [ Permission.mk 50 8 (Some 2%N) (Some RFolder) ["read"] false ] [] 1000.

(** * Properties *)

(** Membership in an explicit list. *)
Ltac elem_of_explicit :=
  repeat first [apply list_elem_of_here | apply list_elem_of_further].

(** ** Authorization resolver *)

Lemma truthy_hex_digits (n : nat) (v : N) (acc : string) :
  truthy acc = true → truthy (hex_digits n v acc) = true.
Proof.
  revert v acc. induction n as [|n IH]; intros v acc Hacc; simpl; [done|].
  by apply IH.
Qed.

Lemma truthy_oidToString (o : ObjectId) : truthy (oidToString o) = true.
Proof. exact (truthy_hex_digits 23 (o / 16) (String (hex_digit (o mod 16)) "") eq_refl). Qed.

Lemma isAction_true (action : string) : action ∈ ACCESS_LEVELS → isAction action = true.
Proof. intros H. unfold isAction. by apply bool_decide_eq_true. Qed.

(** The part of [checkPermission] that runs once the action, the
    authentication and the id have been accepted and the resource has been
    found with owner [owner]. *)
Lemma checkPermission_found (st : Store) (resource : ResourceType) (action : string)
  (a : AuthContext) (id owner : ObjectId) :
  action ∈ ACCESS_LEVELS →
  truthy (userIdString a) = true →
  ownerOf st resource id = Some owner →
  checkPermission resource action (mkRequest (Some a) (OidStr id)) st =
  if decide (oidToString owner = userIdString a) then (Ok tt, st)
  else if existsb (globalQuery (auth_userId a) action) (permissions st) then (Ok tt, st)
  else if existsb (specificQuery (auth_userId a) resource id action) (permissions st)
       then (Ok tt, st)
  else (Err (AppError 403 "FORBIDDEN"), st).
Proof.
  intros Hact Hauth Hown.
  unfold checkPermission, bind, throwIf. rewrite (isAction_true _ Hact). simpl.
  rewrite Hauth. simpl.
  destruct resource; simpl in *.
  - unfold File_findById. destruct (files st !! id) as [d|]; simplify_eq/=.
    destruct (decide _); [done|].
    unfold Permission_exists.
    destruct (existsb (globalQuery _ _) _); [done|].
    by destruct (existsb (specificQuery _ _ _ _) _).
  - unfold Folder_findById. destruct (folders st !! id) as [d|]; simplify_eq/=.
    destruct (decide _); [done|].
    unfold Permission_exists.
    destruct (existsb (globalQuery _ _) _); [done|].
    by destruct (existsb (specificQuery _ _ _ _) _).
Qed.

(** C2. Ownership bypass: when the owner recorded for the resource is the
    requesting user, [checkPermission] allows each of the five actions,
    whatever the permission collection holds. *)
Theorem owner_always_allowed (st : Store) (resource : ResourceType) (action : string)
  (a : AuthContext) (id owner : ObjectId) :
  action ∈ ACCESS_LEVELS →
  ownerOf st resource id = Some owner →
  oidToString owner = userIdString a →
  checkPermission resource action (mkRequest (Some a) (OidStr id)) st = (Ok tt, st).
Proof.
  intros Hact Hown Heq.
  rewrite (checkPermission_found st resource action a id owner); try done.
  - by rewrite decide_True.
  - rewrite <- Heq. apply truthy_oidToString.
Qed.


Lemma owner_always_allowed_witness :
  checkPermission RFolder "delete" (mkRequest (Some (authOf 7)) (OidStr 10)) store_owned
  = (Ok tt, store_owned).
Proof.
  apply (owner_always_allowed store_owned RFolder "delete" (authOf 7) 10%N 7%N).
  - unfold ACCESS_LEVELS. elem_of_explicit.
  - reflexivity.
  - reflexivity.
Defined.

Lemma globalQuery_spec (u : ObjectId) (action : string) (p : Permission.doc) :
  globalQuery u action p = true ↔ globalGrant u action p.
Proof.
  unfold globalQuery, globalGrant.
  rewrite !andb_true_iff, !bool_decide_eq_true. tauto.
Qed.

Lemma specificQuery_spec (u : ObjectId) (resource : ResourceType) (id : ObjectId)
  (action : string) (p : Permission.doc) :
  specificQuery u resource id action p = true ↔ specificGrant u resource id action p.
Proof.
  unfold specificQuery, specificGrant.
  rewrite !andb_true_iff, !bool_decide_eq_true, negb_true_iff. tauto.
Qed.

Lemma existsb_elem_of {A} (q : A → bool) (l : list A) :
  existsb q l = true ↔ ∃ x, x ∈ l ∧ q x = true.
Proof.
  rewrite existsb_exists. split; intros (x & Hx & Hq); exists x; split; try done;
    by apply list_elem_of_In.
Qed.

Lemma existsb_false_elem_of {A} (q : A → bool) (l : list A) :
  existsb q l = false ↔ ∀ x, x ∈ l → q x = false.
Proof.
  rewrite <- not_true_iff_false, existsb_elem_of. split.
  - intros Hno x Hx. apply not_true_iff_false. intros Hq. apply Hno. eauto.
  - intros Hall (x & Hx & Hq). rewrite (Hall x Hx) in Hq. done.
Qed.

(** C3. For a requester who is not the owner, either tier grants the action
    on its own: a global grant that lists it, or a grant scoped to exactly
    this resource that lists it, whatever the other records say; when no
    record of either kind lists it the request fails with 403 FORBIDDEN,
    which is not one of the 404 failures reported for a missing resource. *)
Theorem either_tier_grants (st : Store) (resource : ResourceType) (action : string)
  (a : AuthContext) (id owner : ObjectId) :
  action ∈ ACCESS_LEVELS →
  truthy (userIdString a) = true →
  ownerOf st resource id = Some owner →
  oidToString owner ≠ userIdString a →
  let outcome := checkPermission resource action (mkRequest (Some a) (OidStr id)) st in
  ((∃ p, p ∈ permissions st ∧ globalGrant (auth_userId a) action p) →
     outcome = (Ok tt, st)) ∧
  ((∃ p, p ∈ permissions st ∧ specificGrant (auth_userId a) resource id action p) →
     outcome = (Ok tt, st)) ∧
  ((∀ p, p ∈ permissions st →
      ¬ globalGrant (auth_userId a) action p ∧
      ¬ specificGrant (auth_userId a) resource id action p) →
     ∃ e, outcome = (Err e, st) ∧ e = AppError 403 "FORBIDDEN" ∧
          statusCode e = 403 ∧
          e ≠ AppError 404 "FOLDER_NOT_FOUND" ∧ e ≠ AppError 404 "FILE_NOT_FOUND").
Proof.
  intros Hact Hauth Hown Hne outcome. subst outcome.
  rewrite (checkPermission_found st resource action a id owner) by done.
  rewrite decide_False by done.
  split; [|split].
  - intros (p & Hp & Hg).
    assert (existsb (globalQuery (auth_userId a) action) (permissions st) = true) as ->;
      [|done].
    apply existsb_elem_of. exists p. by rewrite globalQuery_spec.
  - intros (p & Hp & Hs).
    assert (existsb (specificQuery (auth_userId a) resource id action) (permissions st)
            = true) as ->.
    { apply existsb_elem_of. exists p. by rewrite specificQuery_spec. }
    by destruct (existsb _ _).
  - intros Hnone.
    assert (existsb (globalQuery (auth_userId a) action) (permissions st) = false) as ->.
    { apply existsb_false_elem_of. intros p Hp. apply not_true_iff_false.
      rewrite globalQuery_spec. by apply Hnone. }
    assert (existsb (specificQuery (auth_userId a) resource id action) (permissions st)
            = false) as ->.
    { apply existsb_false_elem_of. intros p Hp. apply not_true_iff_false.
      rewrite specificQuery_spec. by apply Hnone. }
    eexists. repeat split; done.
Qed.


Lemma either_tier_grants_witness :
  checkPermission RFolder "write" (mkRequest (Some (authOf 8)) (OidStr 10)) store_two_tiers
    = (Ok tt, store_two_tiers) ∧
  checkPermission RFolder "read" (mkRequest (Some (authOf 8)) (OidStr 10)) store_two_tiers
    = (Ok tt, store_two_tiers).
Proof.
  assert (Hne : oidToString 7 ≠ userIdString (authOf 8)) by (vm_compute; discriminate).
  split.
  - assert (Hact : "write" ∈ ACCESS_LEVELS) by (unfold ACCESS_LEVELS; elem_of_explicit).
    destruct (either_tier_grants store_two_tiers RFolder "write" (authOf 8) 10%N 7%N
                Hact eq_refl eq_refl Hne) as (_ & Hspecific & _).
    apply Hspecific.
    exists (Permission.mk 51 8 (Some 10%N) (Some RFolder) ["write"] false).
    split; [unfold store_two_tiers; simpl; elem_of_explicit|].
    unfold specificGrant; simpl. repeat split; elem_of_explicit.
  - assert (Hact : "read" ∈ ACCESS_LEVELS) by (unfold ACCESS_LEVELS; elem_of_explicit).
    destruct (either_tier_grants store_two_tiers RFolder "read" (authOf 8) 10%N 7%N
                Hact eq_refl eq_refl Hne) as (Hglobal & _ & _).
    apply Hglobal.
    exists (Permission.mk 50 8 None None ["read"] true).
    split; [unfold store_two_tiers; simpl; elem_of_explicit|].
    unfold globalGrant; simpl. repeat split; elem_of_explicit.
Defined.

(** ** The subtree walk of [getAllNestedFoldersAndFiles] *)











(** ** Upserts *)

Section update_first.
Context {A : Type} (q : A → bool) (f : A → A).

Lemma update_first_frame (l : list A) (x : A) :
  x ∈ l → q x = false → x ∈ update_first q f l.
Proof.
  induction l as [|y l IH]; simpl; [done|].
  intros Hin Hq. destruct (q y) eqn:Hy.
  - apply elem_of_cons in Hin as [->|Hin]; [congruence|].
    by apply list_elem_of_further.
  - apply elem_of_cons in Hin as [->|Hin]; [apply list_elem_of_here|].
    apply list_elem_of_further. auto.
Qed.

Lemma update_first_origin (l : list A) (y : A) :
  y ∈ update_first q f l → y ∈ l ∨ ∃ x, x ∈ l ∧ q x = true ∧ y = f x.
Proof.
  induction l as [|x l IH]; simpl; [by left|].
  destruct (q x) eqn:Hx; intros Hin; apply elem_of_cons in Hin as [->|Hin].
  - right. exists x. split; [apply list_elem_of_here|done].
  - left. by apply list_elem_of_further.
  - left. apply list_elem_of_here.
  - destruct (IH Hin) as [?|(x' & ? & ? & ?)].
    + left. by apply list_elem_of_further.
    + right. exists x'. split; [by apply list_elem_of_further|done].
Qed.

Lemma update_first_updated (l : list A) :
  existsb q l = true → ∃ x, x ∈ l ∧ q x = true ∧ f x ∈ update_first q f l.
Proof.
  induction l as [|x l IH]; simpl; [done|].
  destruct (q x) eqn:Hx; simpl.
  - intros _. exists x. repeat split; try done; apply list_elem_of_here.
  - intros (x' & ? & ? & ?)%IH. exists x'.
    repeat split; try done; by apply list_elem_of_further.
Qed.

Lemma update_first_fmap {B} (g : A → B) (l : list A) :
  (∀ x, g (f x) = g x) → g <$> update_first q f l = g <$> l.
Proof.
  intros Hg. induction l as [|x l IH]; csimpl; [done|].
  destruct (q x); csimpl; [by rewrite Hg|by rewrite IH].
Qed.

End update_first.

Lemma targetQuery_spec (u t : ObjectId) (ty : ResourceType) (p : Permission.doc) :
  targetQuery u t ty p = true ↔
  Permission.userId p = u ∧ Permission.targetId p = Some t ∧
  Permission.targetType p = Some ty.
Proof.
  unfold targetQuery. rewrite !andb_true_iff, !bool_decide_eq_true. tauto.
Qed.

Lemma existsb_hasId (id : ObjectId) (l : list Permission.doc) :
  existsb (hasId id) l = false → id ∉ Permission._id <$> l.
Proof.
  intros Hno (p & -> & Hp)%list_elem_of_fmap.
  rewrite existsb_false_elem_of in Hno. specialize (Hno p Hp).
  unfold hasId in Hno. by apply bool_decide_eq_false in Hno.
Qed.

(** The effect of one upsert of the batch. *)
Lemma Permission_upsertOne_spec (u t : ObjectId) (ty : ResourceType)
  (levels : list string) (st : Store) :
  ∃ r st', Permission_upsertOne u t ty levels st = (r, st') ∧
    folders st' = folders st ∧ files st' = files st ∧ trace st' = trace st ∧
    (∀ p, p ∈ permissions st' →
          p ∈ permissions st ∨
          (targetQuery u t ty p = true ∧ Permission.accessLevel p = levels ∧
           Permission.isGlobal p = false)) ∧
    (∀ p, p ∈ permissions st → targetQuery u t ty p = false → p ∈ permissions st') ∧
    (r = Ok tt → granted u levels (t, ty) st') ∧
    (existsb (targetQuery u t ty) (permissions st) = true → r = Ok tt) ∧
    (uniqueIds st → uniqueIds st').
Proof.
  unfold Permission_upsertOne, bind, get.
  destruct (existsb (targetQuery u t ty) (permissions st)) eqn:Hex.
  - eexists _, _. split; [reflexivity|]. simpl.
    repeat split; try done.
    + intros p [Hp|(x & Hx & Hq & ->)]%update_first_origin; [by left|right].
      apply targetQuery_spec in Hq as (? & ? & ?).
      split; [|done]. by apply targetQuery_spec.
    + intros p Hp Hq. by apply update_first_frame.
    + intros _. apply (update_first_updated _ (setAccessLevelNotGlobal levels)) in Hex
        as (x & Hx & Hq & Hin).
      apply targetQuery_spec in Hq as (? & ? & ?).
      exists (setAccessLevelNotGlobal levels x). by repeat split.
    + unfold uniqueIds. simpl. by rewrite update_first_fmap.
  - unfold ObjectId_new, Permission_insert. simpl.
    destruct (existsb (hasId _) _) eqn:Hid.
    + eexists _, _. split; [reflexivity|]. simpl.
      repeat split; try done. by left.
    + eexists _, _. split; [reflexivity|]. simpl.
      repeat split; try done.
      * intros p [Hp|Hp%list_elem_of_singleton]%elem_of_app; [by left|right].
        subst p. simpl. split; [|done]. by apply targetQuery_spec.
      * intros p Hp _. apply elem_of_app. by left.
      * intros _. eexists. split; [apply elem_of_app; right; apply list_elem_of_here|].
        by repeat split.
      * unfold uniqueIds. simpl. rewrite fmap_app. intros Hnd.
        apply NoDup_app. repeat split; [done| |apply NoDup_singleton].
        intros x Hx ->%list_elem_of_singleton. simpl in Hx.
        by apply existsb_hasId in Hid.
Qed.

Lemma granted_mono (u : ObjectId) (levels : list string) (k : ObjectId * ResourceType)
  (st st' : Store) :
  (∀ p, p ∈ permissions st → p ∈ permissions st') →
  granted u levels k st → granted u levels k st'.
Proof. intros Hsub (p & Hp & H). exists p. split; [by apply Hsub|done]. Qed.

(** A grant already in place survives one more upsert with the same
    access-level set, on the same key or on another one. *)
Lemma Permission_upsertOne_keeps (u t : ObjectId) (ty : ResourceType)
  (levels : list string) (k : ObjectId * ResourceType) (st : Store) :
  granted u levels k st →
  granted u levels k (Permission_upsertOne u t ty levels st).2.
Proof.
  intros (p & Hp & Hu & Ht & Hty & Hl & Hg).
  destruct (Permission_upsertOne_spec u t ty levels st)
    as (r & st' & -> & _ & _ & _ & _ & Hframe & Hnew & Hok & _). simpl.
  destruct (targetQuery u t ty p) eqn:Hq.
  - pose proof Hq as (_ & Ht' & Hty')%targetQuery_spec.
    assert (k = (t, ty)) as -> by (destruct k; simpl in *; congruence).
    apply Hnew, Hok. apply existsb_elem_of. eauto.
  - exists p. split; [by apply Hframe|done].
Qed.

(** The effect of the batch: nothing but the permission collection is
    written; every record of the result was there before or is a record for
    one of the items, with exactly [levels]; a record that is not for user
    [u] and one of the items stays as it is; when the batch succeeds every
    item has its record. *)
Lemma Permission_bulkWrite_spec (u : ObjectId) (levels : list string)
  (items : list (ObjectId * ResourceType)) :
  ∀ st, ∃ r st', Permission_bulkWrite (OidStr u) items levels st = (r, st') ∧
    folders st' = folders st ∧ files st' = files st ∧ trace st' = trace st ∧
    (∀ p, p ∈ permissions st' →
          p ∈ permissions st ∨
          (keyedBy u items p ∧ Permission.accessLevel p = levels ∧
           Permission.isGlobal p = false)) ∧
    (∀ p, p ∈ permissions st → ¬ keyedBy u items p → p ∈ permissions st') ∧
    (r = Ok tt → ∀ item, item ∈ items → granted u levels item st') ∧
    (∀ k, granted u levels k st → granted u levels k st') ∧
    (uniqueIds st → uniqueIds st').
Proof.
  induction items as [|[t ty] items IH]; intros st.
  - exists (Ok tt), st. simpl. repeat split; try done; [by left|].
    by intros _ item Hin%elem_of_nil.
  - simpl. unfold bind at 1. simpl. unfold bind at 1.
    pose proof (Permission_upsertOne_keeps u t ty levels) as Hkeep1.
    destruct (Permission_upsertOne_spec u t ty levels st)
      as (r1 & st1 & Heq1 & Hf1 & Hfl1 & Htr1 & Horigin1 & Hframe1 & Hnew1 & _ & Hid1).
    specialize (λ k, Hkeep1 k st). rewrite Heq1 in *. simpl in Hkeep1.
    destruct r1 as [[]|e].
    + destruct (IH st1) as (r & st' & -> & Hf & Hfl & Htr & Horigin & Hframe & Hnew & Hkeep & Hid).
      exists r, st'. split; [done|].
      split; [congruence|]. split; [congruence|]. split; [congruence|].
      split; [|split; [|split; [|split]]].
      * intros p [Hp|(Hk & ? & ?)]%Horigin.
        -- apply Horigin1 in Hp as [?|(Hq & ? & ?)]; [by left|right].
           split; [|done]. apply targetQuery_spec in Hq as (? & ? & ?).
           exists (t, ty). split; [apply list_elem_of_here|done].
        -- right. split; [|done]. destruct Hk as (item & ? & ?).
           exists item. split; [by apply list_elem_of_further|done].
      * intros p Hp Hk. apply Hframe.
        -- apply Hframe1; [done|]. apply not_true_iff_false.
           intros (? & ? & ?)%targetQuery_spec. apply Hk.
           exists (t, ty). split; [apply list_elem_of_here|done].
        -- intros (item & ? & ?). apply Hk.
           exists item. split; [by apply list_elem_of_further|done].
      * intros Hr item [->|Hin]%elem_of_cons; [|by apply Hnew].
        apply Hkeep. by apply Hnew1.
      * intros k Hk. by apply Hkeep, Hkeep1.
      * intros H. by apply Hid, Hid1.
    + exists (Err e), st1. split; [done|].
      split; [done|]. split; [done|]. split; [done|].
      split; [|split; [|split; [|split]]]; try done.
      * intros p [?|(Hq & ? & ?)]%Horigin1; [by left|right].
        split; [|done]. apply targetQuery_spec in Hq as (? & ? & ?).
        exists (t, ty). split; [apply list_elem_of_here|done].
      * intros p Hp Hk. apply Hframe1; [done|]. apply not_true_iff_false.
        intros (? & ? & ?)%targetQuery_spec. apply Hk.
        exists (t, ty). split; [apply list_elem_of_here|done].
Qed.

(** The same for [propagatePermissions], whose items are the subtree walk
    of the store it starts from. *)
Lemma propagatePermissions_spec (u root : ObjectId) (levels : list string) (st : Store) :
  ∃ r st', propagatePermissions (OidStr u) (OidStr root) levels st = (r, st') ∧
    folders st' = folders st ∧ files st' = files st ∧ trace st' = trace st ∧
    (∀ p, p ∈ permissions st' →
          p ∈ permissions st ∨
          (keyedBy u (nestedItems st root) p ∧ Permission.accessLevel p = levels ∧
           Permission.isGlobal p = false)) ∧
    (∀ p, p ∈ permissions st → ¬ keyedBy u (nestedItems st root) p →
          p ∈ permissions st') ∧
    (r = Ok tt → ∀ item, item ∈ nestedItems st root → granted u levels item st') ∧
    (∀ k, granted u levels k st → granted u levels k st') ∧
    (uniqueIds st → uniqueIds st').
Proof.
  unfold propagatePermissions, getAllNestedFoldersAndFiles, bind, get. simpl.
  destruct (nestedItems st root) as [|item items] eqn:Hitems.
  - exists (Ok tt), st. simpl. repeat split; try done; [by left|].
    by intros _ item Hin%elem_of_nil.
  - apply Permission_bulkWrite_spec.
Qed.

Lemma find_elem_of_Some {A} (q : A → bool) (l : list A) (x : A) :
  x ∈ l → q x = true → is_Some (find q l).
Proof.
  induction l as [|y l IH]; simpl; [by intros ?%elem_of_nil|].
  intros Hin Hq. destruct (q y) eqn:Hy; [by eexists|].
  apply elem_of_cons in Hin as [->|Hin]; [congruence|by apply IH].
Qed.

(** *** What [findOne] reads back after an upsert *)

Section find_update.
Context {A : Type} (q : A → bool).

Lemma find_update_first_same (f : A → A) (l : list A) :
  (∀ x, q x = true → q (f x) = true) →
  find q (update_first q f l) = f <$> find q l.
Proof.
  intros Hf. induction l as [|x l IH]; simpl; [done|].
  destruct (q x) eqn:Hx; simpl.
  - by rewrite (Hf x Hx).
  - by rewrite Hx.
Qed.

Lemma find_update_first_other (q' : A → bool) (f : A → A) (l : list A) :
  (∀ x, q' x = true → q x = false ∧ q (f x) = false) →
  find q (update_first q' f l) = find q l.
Proof.
  intros Hdisjoint. induction l as [|x l IH]; simpl; [done|].
  destruct (q' x) eqn:Hx; simpl.
  - destruct (Hdisjoint x Hx) as [-> ->]. done.
  - by rewrite IH.
Qed.

Lemma find_app_Some (l k : list A) (x : A) :
  find q l = Some x → find q (l ++ k) = Some x.
Proof.
  induction l as [|y l IH]; simpl; [done|]. destruct (q y); [done|]. apply IH.
Qed.

Lemma find_app_None (l k : list A) :
  find q l = None → find q (l ++ k) = find q k.
Proof.
  induction l as [|y l IH]; simpl; [done|]. destruct (q y); [done|]. apply IH.
Qed.

Lemma find_existsb_false (l : list A) : existsb q l = false → find q l = None.
Proof.
  induction l as [|y l IH]; simpl; [done|]. destruct (q y); [done|]. apply IH.
Qed.

End find_update.

Lemma targetQuery_disjoint (u t t' : ObjectId) (ty ty' : ResourceType)
  (levels : list string) (p : Permission.doc) :
  (t, ty) ≠ (t', ty') →
  targetQuery u t' ty' p = true →
  targetQuery u t ty p = false ∧
  targetQuery u t ty (setAccessLevelNotGlobal levels p) = false.
Proof.
  intros Hne (Hu & Ht & Hty)%targetQuery_spec.
  split; apply not_true_iff_false; intros (_ & Ht' & Hty')%targetQuery_spec;
    simpl in *; congruence.
Qed.

(** One upsert makes its own key read back the granted set, when it
    succeeds, and keeps what the other keys read back. *)
Lemma Permission_upsertOne_readsBack (u t : ObjectId) (ty : ResourceType)
  (levels : list string) (st : Store) :
  ((Permission_upsertOne u t ty levels st).1 = Ok tt →
   readsBack u levels (t, ty) (Permission_upsertOne u t ty levels st).2) ∧
  (∀ k, readsBack u levels k st →
        readsBack u levels k (Permission_upsertOne u t ty levels st).2).
Proof.
  unfold Permission_upsertOne, bind, get, readsBack.
  destruct (existsb (targetQuery u t ty) (permissions st)) eqn:Hex; simpl.
  - assert (Hsame : ∀ x, targetQuery u t ty x = true →
                         targetQuery u t ty (setAccessLevelNotGlobal levels x) = true).
    { intros x (? & ? & ?)%targetQuery_spec. by apply targetQuery_spec. }
    assert (Hown : ∃ p, find (targetQuery u t ty)
                     (update_first (targetQuery u t ty) (setAccessLevelNotGlobal levels)
                        (permissions st)) = Some p ∧
                   Permission.accessLevel p = levels ∧ Permission.isGlobal p = false).
    { rewrite find_update_first_same by done.
      apply existsb_elem_of in Hex as (x & Hx & Hq).
      destruct (find_elem_of_Some _ _ x Hx Hq) as [p ->]. by eexists. }
    split; [done|]. intros [t' ty'] (p & Hp & Hl & Hg).
    destruct (decide ((t', ty') = (t, ty))) as [[= -> ->]|Hne]; [done|].
    exists p. split; [|done]. simpl in *.
    rewrite find_update_first_other; [done|].
    intros x Hx. by apply (targetQuery_disjoint u t' t ty' ty).
  - unfold ObjectId_new, Permission_insert. simpl.
    destruct (existsb (hasId _) _) eqn:Hid; simpl; [done|].
    split.
    + intros _.
      rewrite find_app_None by by apply find_existsb_false. simpl.
      assert (targetQuery u t ty
                (Permission.mk (nextObjectId st) u (Some t) (Some ty) levels false) = true)
        as -> by by apply targetQuery_spec.
      eexists. split; [reflexivity|done].
    + intros k (p & Hp & Hl & Hg). exists p. split; [|done].
      by apply find_app_Some.
Qed.

Lemma Permission_bulkWrite_readsBack (u : ObjectId) (levels : list string)
  (items : list (ObjectId * ResourceType)) :
  ∀ st,
  ((Permission_bulkWrite (OidStr u) items levels st).1 = Ok tt →
   ∀ item, item ∈ items →
           readsBack u levels item (Permission_bulkWrite (OidStr u) items levels st).2) ∧
  (∀ k, readsBack u levels k st →
        readsBack u levels k (Permission_bulkWrite (OidStr u) items levels st).2).
Proof.
  induction items as [|[t ty] items IH]; intros st.
  - simpl. split; [by intros _ item Hin%elem_of_nil|done].
  - assert (Permission_bulkWrite (OidStr u) ((t, ty) :: items) levels st =
            match Permission_upsertOne u t ty levels st with
            | (Ok _, st1) => Permission_bulkWrite (OidStr u) items levels st1
            | (Err e, st1) => (Err e, st1)
            end) as -> by reflexivity.
    destruct (Permission_upsertOne_readsBack u t ty levels st) as [Hnew Hkeep].
    destruct (Permission_upsertOne u t ty levels st) as [[[]|e] st1]; simpl in *.
    + destruct (IH st1) as [Hnew' Hkeep']. split.
      * intros Hok item [->|Hin]%elem_of_cons; [|by apply Hnew'].
        by apply Hkeep', Hnew.
      * intros k Hk. by apply Hkeep', Hkeep.
    + split; [done|]. exact Hkeep.
Qed.

(** When the propagation succeeds, what [findOne] reads back for user [u]
    and any item of the walk is a record with exactly [levels]. *)
Lemma propagatePermissions_readsBack (u root : ObjectId) (levels : list string)
  (st : Store) :
  (propagatePermissions (OidStr u) (OidStr root) levels st).1 = Ok tt →
  ∀ item, item ∈ nestedItems st root →
          readsBack u levels item (propagatePermissions (OidStr u) (OidStr root) levels st).2.
Proof.
  unfold propagatePermissions, getAllNestedFoldersAndFiles, bind, get. simpl.
  destruct (nestedItems st root) as [|item items] eqn:Hitems.
  - by intros _ item Hin%elem_of_nil.
  - apply Permission_bulkWrite_readsBack.
Qed.

Lemma nestedItems_ext (st st' : Store) (root : ObjectId) :
  folders st' = folders st → files st' = files st →
  nestedItems st' root = nestedItems st root.
Proof. intros Hf Hfl. unfold nestedItems. by rewrite Hf, Hfl. Qed.




(** ** Granting on a folder *)

Lemma validateAccessLevel_elem (accessLevel : AccessLevelInput) (action : string) :
  validateAccessLevel accessLevel = true → action ∈ toArray accessLevel →
  action ∈ ACCESS_LEVELS.
Proof.
  destruct accessLevel as [level|levels]; simpl.
  - intros H ->%list_elem_of_singleton. by apply bool_decide_eq_true in H.
  - intros H Hin. rewrite forallb_forall in H.
    apply list_elem_of_In in Hin. specialize (H _ Hin). by apply bool_decide_eq_true in H.
Qed.





(** ** Revocation *)

Section delete_first.
Context {A : Type} (q : A → bool).





End delete_first.


Lemma uniqueIds_inj (st : Store) (p p' : Permission.doc) :
  uniqueIds st → p ∈ permissions st → p' ∈ permissions st →
  Permission._id p = Permission._id p' → p = p'.
Proof.
  unfold uniqueIds. generalize (permissions st) as l.
  induction l as [|x l IH]; csimpl; [by intros _ ?%elem_of_nil|].
  intros [Hx Hnd]%NoDup_cons [->|Hp]%elem_of_cons [->|Hp']%elem_of_cons Hid; try done.
  - exfalso. apply Hx. rewrite Hid. apply list_elem_of_fmap. eauto.
  - exfalso. apply Hx. rewrite <- Hid. apply list_elem_of_fmap. eauto.
  - by apply IH.
Qed.



(** ** Creating folders *)

Lemma find_none_elem_of {A} (q : A → bool) (l : list A) :
  (∀ x, x ∈ l → q x = false) → find q l = None.
Proof.
  induction l as [|y l IH]; simpl; [done|]. intros Hall.
  rewrite (Hall y) by apply list_elem_of_here.
  apply IH. intros x Hx. apply Hall. by apply list_elem_of_further.
Qed.

Lemma elem_of_folder_docs (fs : gmap ObjectId Folder.doc) (d : Folder.doc) :
  d ∈ (map_to_list fs).*2 ↔ ∃ i, fs !! i = Some d.
Proof.
  rewrite list_elem_of_fmap. split.
  - intros ([i d'] & -> & Hin%elem_of_map_to_list). by exists i.
  - intros [i Hi]. exists (i, d). split; [done|]. by apply elem_of_map_to_list.
Qed.

(** C7. Sibling uniqueness: when a folder whose stored name is the name
    [createFolder] computes for the call (the given name trimmed, then
    sanitized) already exists with the same workspace and the same parent,
    the call fails with the already-exists error and writes no folder, file
    or permission. *)
Theorem sibling_name_conflict (st : Store) (folderName : string) (u b : ObjectId)
  (parent : option ObjectId) (sid : ObjectId) (sibling : Folder.doc) :
  truthy folderName = true →
  folders st !! sid = Some sibling →
  Folder.businessId sibling = b →
  Folder.parentFolderId sibling = parent →
  Folder.folderName sibling = sanitizeFolderName (trim folderName) →
  let result := createFolder folderName (OidStr u) (OidStr b) (OidStr <$> parent) st in
  result.1 = Err (Error (FolderAlreadyExists (sanitizeFolderName (trim folderName)))) ∧
  folders result.2 = folders st ∧ files result.2 = files st ∧
  permissions result.2 = permissions st.
Proof.
  intros Hname Hsid Hb Hparent Hsame result. subst result.
  unfold createFolder, bind, throwIf. rewrite Hname. simpl.
  assert (given (OidStr <$> parent) = OidStr <$> parent) as -> by by destruct parent.
  assert (ObjectId_orNull (OidStr <$> parent) =
          λ st, (Ok parent, st)) as ->.
  { unfold ObjectId_orNull. destruct parent; reflexivity. }
  destruct parent as [p|]; simpl.
  - unfold Folder_findOne. simpl.
    destruct (find_elem_of_Some (siblingQuery b (Some p) (sanitizeFolderName (trim folderName)))
                (map_to_list (folders st)).*2 sibling) as [d ->]; [| |done].
    + apply elem_of_folder_docs. eauto.
    + unfold siblingQuery. rewrite !andb_true_iff, !bool_decide_eq_true. done.
  - unfold Folder_findOne. simpl.
    destruct (find_elem_of_Some (siblingQuery b None (sanitizeFolderName (trim folderName)))
                (map_to_list (folders st)).*2 sibling) as [d ->]; [| |done].
    + apply elem_of_folder_docs. eauto.
    + unfold siblingQuery. rewrite !andb_true_iff, !bool_decide_eq_true. done.
Qed.


Lemma sibling_name_conflict_witness :
  let result := createFolder " Q1 report" (OidStr 8) (OidStr 100) None store_sibling in
  result.1 = Err (Error (FolderAlreadyExists "Q1_report")) ∧
  folders result.2 = folders store_sibling.
Proof.
  destruct (sibling_name_conflict store_sibling " Q1 report" 8 100 None 10%N
              (Folder.mk "Q1_report" 7 100 None "100/folders/10/" [] [])
              eq_refl eq_refl eq_refl eq_refl eq_refl) as (Hr & Hf & _ & _).
  split; [exact Hr|exact Hf].
Defined.

(** ** Updates *)

Lemma ObjectId_from_valid (s : IdString) (st : Store) :
  isValid s = true → ObjectId_from s st = (Ok (objectIdOf s), st).
Proof. by destruct s. Qed.

Lemma ObjectId_from_invalid (s : IdString) (st : Store) :
  isValid s = false → ObjectId_from s st = (Err CastError, st).
Proof. by destruct s. Qed.

Lemma updateFolder_folders (st : Store) (id : IdString) (folderData : FolderUpdate.t) :
  folders (updateFolder id folderData st).2 = folders st ∨
  ∃ update,
    folders (updateFolder id folderData st).2
      = alter (Folder_applyUpdate update) (objectIdOf id) (folders st) ∧
    FolderUpdate.s3Key update = None ∧
    FolderUpdate.userId update = FolderUpdate.userId folderData ∧
    FolderUpdate.businessId update = FolderUpdate.businessId folderData ∧
    FolderUpdate.parentFolderId update = FolderUpdate.parentFolderId folderData ∧
    FolderUpdate.fileIds update = FolderUpdate.fileIds folderData ∧
    FolderUpdate.folderIds update = FolderUpdate.folderIds folderData ∧
    (FolderUpdate.folderName folderData = None → FolderUpdate.folderName update = None).
Proof.
  destruct (isValid id) eqn:Hid; [right|left; unfold updateFolder, bind, throwIf; by rewrite Hid].
  unfold updateFolder, bind, throwIf. rewrite Hid. simpl.
  rewrite ObjectId_from_valid by done.
  eexists. split; [reflexivity|]. simpl. repeat split; try done.
  by intros ->.
Qed.

Lemma updateFile_files (st : Store) (id : IdString) (fileData : FileUpdate.t) :
  files (updateFile id fileData st).2 = files st ∨
  ∃ update,
    files (updateFile id fileData st).2
      = alter (File_applyUpdate update) (objectIdOf id) (files st) ∧
    FileUpdate.s3Key update = None ∧
    FileUpdate.userId update = FileUpdate.userId fileData ∧
    FileUpdate.businessId update = FileUpdate.businessId fileData ∧
    FileUpdate.folderId update = FileUpdate.folderId fileData ∧
    FileUpdate.fileName update = FileUpdate.fileName fileData ∧
    FileUpdate.fileSize update = FileUpdate.fileSize fileData ∧
    FileUpdate.contentType update = FileUpdate.contentType fileData.
Proof.
  destruct (isValid id) eqn:Hid; [right|left; unfold updateFile, bind, throwIf; by rewrite Hid].
  unfold updateFile, bind, throwIf. rewrite Hid. simpl.
  rewrite ObjectId_from_valid by done.
  eexists. split; [reflexivity|]. simpl. by repeat split.
Qed.

(** What the removal of the top-level [s3Key] achieves: for an update
    document that holds top-level fields only, as the declared type
    [Partial<..SchemaType>] has it, [updateFolder] and [updateFile] leave
    the [s3Key] of every stored record as it was; a record other than the
    one updated is not changed at all, and in the updated record a field
    the document does not supply keeps its value. *)
Lemma top_level_fields_keep_storage_key (st : Store) (id : IdString)
  (folderData : FolderUpdate.t) (fileData : FileUpdate.t) :
  let st1 := (updateFolder id folderData st).2 in
  let st2 := (updateFile id fileData st).2 in
  (∀ i, Folder.s3Key <$> folders st1 !! i = Folder.s3Key <$> folders st !! i) ∧
  (∀ i, File.s3Key <$> files st2 !! i = File.s3Key <$> files st !! i) ∧
  files st1 = files st ∧ folders st2 = folders st ∧
  (∀ i d, folders st !! i = Some d →
     ∃ d', folders st1 !! i = Some d' ∧ Folder.s3Key d' = Folder.s3Key d ∧
       (objectIdOf id ≠ i → d' = d) ∧
       (FolderUpdate.folderName folderData = None → Folder.folderName d' = Folder.folderName d) ∧
       (FolderUpdate.userId folderData = None → Folder.userId d' = Folder.userId d) ∧
       (FolderUpdate.businessId folderData = None →
          Folder.businessId d' = Folder.businessId d) ∧
       (FolderUpdate.parentFolderId folderData = None →
          Folder.parentFolderId d' = Folder.parentFolderId d) ∧
       (FolderUpdate.fileIds folderData = None → Folder.fileIds d' = Folder.fileIds d) ∧
       (FolderUpdate.folderIds folderData = None → Folder.folderIds d' = Folder.folderIds d)) ∧
  (∀ i d, files st !! i = Some d →
     ∃ d', files st2 !! i = Some d' ∧ File.s3Key d' = File.s3Key d ∧
       (objectIdOf id ≠ i → d' = d) ∧
       (FileUpdate.fileName fileData = None → File.fileName d' = File.fileName d) ∧
       (FileUpdate.userId fileData = None → File.userId d' = File.userId d) ∧
       (FileUpdate.businessId fileData = None → File.businessId d' = File.businessId d) ∧
       (FileUpdate.folderId fileData = None → File.folderId d' = File.folderId d) ∧
       (FileUpdate.fileSize fileData = None → File.fileSize d' = File.fileSize d) ∧
       (FileUpdate.contentType fileData = None →
          File.contentType d' = File.contentType d)).
Proof.
  intros st1 st2. subst st1 st2.
  assert (Hfolder : ∀ i d, folders st !! i = Some d →
     ∃ d', folders (updateFolder id folderData st).2 !! i = Some d' ∧
       Folder.s3Key d' = Folder.s3Key d ∧
       (objectIdOf id ≠ i → d' = d) ∧
       (FolderUpdate.folderName folderData = None → Folder.folderName d' = Folder.folderName d) ∧
       (FolderUpdate.userId folderData = None → Folder.userId d' = Folder.userId d) ∧
       (FolderUpdate.businessId folderData = None →
          Folder.businessId d' = Folder.businessId d) ∧
       (FolderUpdate.parentFolderId folderData = None →
          Folder.parentFolderId d' = Folder.parentFolderId d) ∧
       (FolderUpdate.fileIds folderData = None → Folder.fileIds d' = Folder.fileIds d) ∧
       (FolderUpdate.folderIds folderData = None → Folder.folderIds d' = Folder.folderIds d)).
  { intros i d Hd.
    destruct (updateFolder_folders st id folderData)
      as [->|(update & -> & Hkey & Hu & Hb & Hp & Hfi & Hfo & Hn)].
    { exists d. by repeat split. }
    destruct (decide (objectIdOf id = i)) as [->|Hne].
    - rewrite lookup_alter_eq, Hd. simpl. eexists. split; [done|].
      unfold Folder_applyUpdate. simpl. rewrite Hkey, Hu, Hb, Hp, Hfi, Hfo. simpl.
      repeat split; try done; try by intros ->.
      intros Hnone. by rewrite (Hn Hnone).
    - rewrite lookup_alter_ne by done. exists d. by repeat split. }
  assert (Hfile : ∀ i d, files st !! i = Some d →
     ∃ d', files (updateFile id fileData st).2 !! i = Some d' ∧
       File.s3Key d' = File.s3Key d ∧
       (objectIdOf id ≠ i → d' = d) ∧
       (FileUpdate.fileName fileData = None → File.fileName d' = File.fileName d) ∧
       (FileUpdate.userId fileData = None → File.userId d' = File.userId d) ∧
       (FileUpdate.businessId fileData = None → File.businessId d' = File.businessId d) ∧
       (FileUpdate.folderId fileData = None → File.folderId d' = File.folderId d) ∧
       (FileUpdate.fileSize fileData = None → File.fileSize d' = File.fileSize d) ∧
       (FileUpdate.contentType fileData = None →
          File.contentType d' = File.contentType d)).
  { intros i d Hd.
    destruct (updateFile_files st id fileData)
      as [->|(update & -> & Hkey & Hu & Hb & Hp & Hn & Hs & Hc)].
    { exists d. by repeat split. }
    destruct (decide (objectIdOf id = i)) as [->|Hne].
    - rewrite lookup_alter_eq, Hd. simpl. eexists. split; [done|].
      unfold File_applyUpdate. simpl. rewrite Hkey, Hu, Hb, Hp, Hn, Hs, Hc. simpl.
      repeat split; try done; by intros ->.
    - rewrite lookup_alter_ne by done. exists d. by repeat split. }
  split; [|split; [|split; [|split; [|split]]]]; try done.
  - intros i. destruct (folders st !! i) as [d|] eqn:Hd.
    + destruct (Hfolder i d Hd) as (d' & -> & Hkey & _). simpl. by rewrite Hkey.
    + destruct (updateFolder_folders st id folderData)
        as [->|(update & -> & _)]; [by rewrite Hd|].
      destruct (decide (objectIdOf id = i)) as [->|Hne].
      * by rewrite lookup_alter_eq, Hd.
      * by rewrite lookup_alter_ne, Hd.
  - intros i. destruct (files st !! i) as [d|] eqn:Hd.
    + destruct (Hfile i d Hd) as (d' & -> & Hkey & _). simpl. by rewrite Hkey.
    + destruct (updateFile_files st id fileData)
        as [->|(update & -> & _)]; [by rewrite Hd|].
      destruct (decide (objectIdOf id = i)) as [->|Hne].
      * by rewrite lookup_alter_eq, Hd.
      * by rewrite lookup_alter_ne, Hd.
  - by destruct id.
  - by destruct id.
Qed.

(** C8. Storage key immutability does not hold of the code.  Both update
    methods remove an [s3Key] that sits at the top level of the update
    document, and nothing else of it: on folder 2 and file 3 of
    [store_tree], a document whose [s3Key] is at the top level leaves the
    stored key as it was, and a document that carries the same [s3Key]
    under [$set] replaces the stored key. *)
Theorem storage_key_replaced_under_set :
  let folderKey := FolderUpdate.mk None None None None (Some "stolen/prefix/") None None in
  let fileKey := FileUpdate.mk None None None None None None (Some "stolen/key") in
  let noFolderField := FolderUpdate.mk None None None None None None None in
  let noFileField := FileUpdate.mk None None None None None None None in
  Folder.s3Key <$> folders store_tree !! 2%N = Some "100/folders/2/" ∧
  Folder.s3Key <$> folders (updateFolder (OidStr 2) folderKey store_tree).2 !! 2%N
    = Some "100/folders/2/" ∧
  (updateFolder (OidStr 2) (FolderBody.mk noFolderField (Some folderKey)) store_tree).1
    = Ok (Some (Folder.mk "2024" 7 100 (Some 1%N) "stolen/prefix/" [3%N] [])) ∧
  Folder.s3Key <$>
    folders (updateFolder (OidStr 2) (FolderBody.mk noFolderField (Some folderKey))
               store_tree).2 !! 2%N
    = Some "stolen/prefix/" ∧
  File.s3Key <$> files store_tree !! 3%N = Some "100/folders/2/files/3-q1.pdf" ∧
  File.s3Key <$> files (updateFile (OidStr 3) fileKey store_tree).2 !! 3%N
    = Some "100/folders/2/files/3-q1.pdf" ∧
  (updateFile (OidStr 3) (FileBody.mk noFileField (Some fileKey)) store_tree).1
    = Ok (Some (File.mk 7 100 (Some 2%N) "q1.pdf" 10000 None "stolen/key")) ∧
  File.s3Key <$>
    files (updateFile (OidStr 3) (FileBody.mk noFileField (Some fileKey)) store_tree).2
      !! 3%N
    = Some "stolen/key".
Proof. vm_compute. repeat split. Qed.

(** ** Child-id lists *)

Lemma addToSet_elem (x : ObjectId) (l : list ObjectId) : x ∈ l → addToSet x l = l.
Proof. intros H. unfold addToSet. by rewrite bool_decide_eq_true_2. Qed.

Lemma NoDup_addToSet (x : ObjectId) (l : list ObjectId) : NoDup l → NoDup (addToSet x l).
Proof.
  intros Hnd. unfold addToSet. case_bool_decide as Hin; [done|].
  apply NoDup_app. repeat split; [done| |apply NoDup_singleton].
  by intros y Hy ->%list_elem_of_singleton.
Qed.

Lemma alreadyLinked_spec (x : ObjectId) (l : list ObjectId) :
  existsb (λ existingId, bool_decide (existingId = x)) l = true ↔ x ∈ l.
Proof.
  rewrite existsb_elem_of. split.
  - intros (y & Hy & ->%bool_decide_eq_true). done.
  - intros Hin. exists x. split; [done|]. by apply bool_decide_eq_true.
Qed.

Lemma noDuplicateChildren_insert (st : Store) (i : ObjectId) (d : Folder.doc) :
  noDuplicateChildren st →
  NoDup (Folder.fileIds d) → NoDup (Folder.folderIds d) →
  noDuplicateChildren (set_folders (insert i d) st).
Proof.
  intros Hst Hfi Hfo j dj. simpl. rewrite lookup_insert.
  case_decide; [by intros [= <-]|]. apply Hst.
Qed.

Lemma addChildFolderToFolder_keeps (st : Store) (parent child : IdString) :
  noDuplicateChildren st →
  noDuplicateChildren (addChildFolderToFolder parent child st).2.
Proof.
  intros Hst. unfold addChildFolderToFolder, bind.
  destruct (isValid parent) eqn:Hparent;
    [rewrite ObjectId_from_valid by done|by rewrite ObjectId_from_invalid].
  destruct (isValid child) eqn:Hchild;
    [rewrite ObjectId_from_valid by done|by rewrite ObjectId_from_invalid].
  unfold Folder_findById.
  destruct (folders st !! objectIdOf parent) as [d|] eqn:Hd; [|done].
  destruct (existsb _ _) eqn:Hlinked; [done|].
  unfold Folder_save. cbn [setFolderIds Folder.folderName Folder.s3Key].
  destruct (negb (truthy (trim _))); [done|]. destruct (negb (truthy _)); [done|].
  cbn [snd].
  destruct (Hst (objectIdOf parent) d Hd) as [Hfi Hfo].
  apply noDuplicateChildren_insert; try done. simpl.
  apply NoDup_app. repeat split; [done| |apply NoDup_singleton].
  intros y Hy ->%list_elem_of_singleton.
  apply alreadyLinked_spec in Hy. congruence.
Qed.

Lemma addFileToFolder_keeps (st : Store) (file folder : IdString) :
  noDuplicateChildren st →
  noDuplicateChildren (addFileToFolder file folder st).2.
Proof.
  intros Hst. unfold addFileToFolder, bind.
  destruct (isValid file) eqn:Hfile;
    [rewrite ObjectId_from_valid by done|by rewrite ObjectId_from_invalid].
  destruct (isValid folder) eqn:Hfolder;
    [rewrite ObjectId_from_valid by done|by rewrite ObjectId_from_invalid].
  unfold Folder_findById.
  destruct (folders st !! objectIdOf folder) as [d|] eqn:Hd; [|done]. simpl.
  destruct (Hst (objectIdOf folder) d Hd) as [Hfi Hfo].
  apply noDuplicateChildren_insert; try done. simpl. by apply NoDup_addToSet.
Qed.

Lemma addFileToFolder_linked (st : Store) (file folder : ObjectId) (d : Folder.doc) :
  folders st !! folder = Some d → file ∈ Folder.fileIds d →
  addFileToFolder (OidStr file) (OidStr folder) st = (Ok tt, st).
Proof.
  intros Hd Hin. unfold addFileToFolder, bind. simpl. rewrite Hd. simpl.
  unfold modify. f_equal. rewrite addToSet_elem by done.
  destruct st as [fs fl ps tr nx]. unfold set_folders. simpl in *. f_equal.
  apply insert_id. rewrite Hd. by destruct d.
Qed.

Lemma File_insert_cases (id : ObjectId) (d : File.doc) (st : Store) :
  (∃ e, File_insert id d st = (Err e, st)) ∨
  (∃ d', File_insert id d st = (Ok d', set_files (insert id d') st)).
Proof.
  unfold File_insert.
  destruct (negb (truthy (trim _))); [left; by eexists|].
  destruct (_ <? _)%Z; [left; by eexists|].
  destruct (negb (truthy _)); [left; by eexists|].
  destruct (files st !! id); [left; by eexists|].
  destruct (s3KeyTaken _ _); [left; by eexists|].
  right. by eexists.
Qed.

(** The folders after [completeUpload]: as before, or as [addFileToFolder]
    leaves them from a store with the same folders. *)
Lemma completeUpload_folders (st : Store) (params : CompleteUploadParams) :
  folders (completeUpload params st).2 = folders st ∨
  ∃ folder st1,
    cu_folderId params = Some folder ∧ folders st1 = folders st ∧
    folders (completeUpload params st).2
      = folders (addFileToFolder (OidStr (objectIdOf (cu_fileId params))) folder st1).2.
Proof.
  unfold completeUpload, bind, throwIf.
  destruct (isValid (cu_fileId params)) eqn:Hfile; [|by left]. simpl.
  destruct (isValid (cu_userId params)) eqn:Huser; [|by left]. simpl.
  destruct (isValid (cu_businessId params)) eqn:Hbusiness; [|by left]. simpl.
  destruct (match given (cu_folderId params) with Some f => negb (isValid f) | None => false end)
    eqn:Hfolder; [by left|]. simpl.
  destruct (truthy (cu_s3Key params)); [|by left]. simpl.
  rewrite !ObjectId_from_valid by done.
  unfold ObjectId_orNull, bind.
  destruct (given (cu_folderId params)) as [folder|] eqn:Hgiven.
  - apply negb_false_iff in Hfolder. rewrite ObjectId_from_valid by done. simpl.
    assert (cu_folderId params = Some folder) as Hid.
    { unfold given in Hgiven. destruct (cu_folderId params) as [s|]; [|done].
      destruct (truthyId s); congruence. }
    match goal with |- context [File_insert ?i ?d st] =>
      destruct (File_insert_cases i d st) as [[e ->]|[d' ->]] end; [by left|].
    right. exists folder, (set_files (insert (objectIdOf (cu_fileId params)) d') st).
    split; [done|]. split; [done|].
    by destruct (addFileToFolder _ _ _) as [[] ?].
  - simpl.
    match goal with |- context [File_insert ?i ?d st] =>
      destruct (File_insert_cases i d st) as [[e ->]|[d' ->]] end; by left.
Qed.

(** C10, as the code has it.  The link operations never put a second copy
    of an id into a child-id list: [addChildFolderToFolder] with a child
    already in [folderIds] writes nothing, [addFileToFolder] and
    [completeUpload] with a file id already in [fileIds] leave the folders
    as they are, and each of the three keeps the child-id lists free of
    duplicates when they were so before. *)
Theorem link_operations_add_no_duplicate (st : Store) :
  (∀ parent child d,
     folders st !! parent = Some d → child ∈ Folder.folderIds d →
     addChildFolderToFolder (OidStr parent) (OidStr child) st = (Ok tt, st)) ∧
  (∀ folder file d,
     folders st !! folder = Some d → file ∈ Folder.fileIds d →
     addFileToFolder (OidStr file) (OidStr folder) st = (Ok tt, st)) ∧
  (∀ params folder file d,
     cu_fileId params = OidStr file → cu_folderId params = Some (OidStr folder) →
     folders st !! folder = Some d → file ∈ Folder.fileIds d →
     folders (completeUpload params st).2 = folders st) ∧
  (noDuplicateChildren st →
   (∀ parent child, noDuplicateChildren (addChildFolderToFolder parent child st).2) ∧
   (∀ file folder, noDuplicateChildren (addFileToFolder file folder st).2) ∧
   (∀ params, noDuplicateChildren (completeUpload params st).2)).
Proof.
  split; [|split; [|split]].
  - intros parent child d Hd Hin. unfold addChildFolderToFolder, bind. simpl.
    rewrite Hd. simpl.
    by rewrite (proj2 (alreadyLinked_spec child (Folder.folderIds d)) Hin).
  - intros folder file d Hd Hin. by eapply addFileToFolder_linked.
  - intros params folder file d Hfile Hfolder Hd Hin.
    destruct (completeUpload_folders st params)
      as [?|(folder' & st1 & Hfolder' & Hst1 & ->)]; [done|].
    rewrite Hfolder in Hfolder'. rewrite Hfile. simplify_eq. cbn [objectIdOf].
    rewrite (addFileToFolder_linked st1 file folder d); [done| |done].
    by rewrite Hst1.
  - intros Hst. split; [|split].
    + intros parent child. by apply addChildFolderToFolder_keeps.
    + intros file folder. by apply addFileToFolder_keeps.
    + intros params.
      destruct (completeUpload_folders st params)
        as [Heq|(folder & st1 & _ & Hst1 & Heq)].
      * intros i d. rewrite Heq. apply Hst.
      * intros i d. rewrite Heq.
        apply (addFileToFolder_keeps st1 (OidStr (objectIdOf (cu_fileId params))) folder).
        intros j dj. rewrite Hst1. apply Hst.
Qed.

Lemma noDuplicateChildren_store_tree : noDuplicateChildren store_tree.
Proof.
  intros i d Hd. unfold store_tree in Hd. simpl in Hd.
  destruct (decide (i = 1%N)) as [->|];
    [vm_compute in Hd; simplify_eq; split; repeat constructor; by intros ?%elem_of_nil|].
  destruct (decide (i = 2%N)) as [->|];
    [vm_compute in Hd; simplify_eq; split; repeat constructor; by intros ?%elem_of_nil|].
  destruct (decide (i = 9%N)) as [->|];
    [vm_compute in Hd; simplify_eq; split; repeat constructor; by intros ?%elem_of_nil|].
  by rewrite !lookup_insert_ne, lookup_singleton_ne in Hd.
Qed.

(** File 3 is already linked in folder 2, and folder 2 in folder 1. *)
Lemma link_operations_add_no_duplicate_witness :
  addChildFolderToFolder (OidStr 1) (OidStr 2) store_tree = (Ok tt, store_tree) ∧
  addFileToFolder (OidStr 3) (OidStr 2) store_tree = (Ok tt, store_tree) ∧
  noDuplicateChildren (addFileToFolder (OidStr 4) (OidStr 2) store_tree).2.
Proof.
  destruct (link_operations_add_no_duplicate store_tree)
    as (Hchild & Hfile & _ & Hkeeps).
  split; [|split].
  - apply (Hchild 1%N 2%N (Folder.mk "Reports" 7 100 None "100/folders/1/" [] [2%N]) eq_refl).
    simpl. elem_of_explicit.
  - apply (Hfile 2%N 3%N (Folder.mk "2024" 7 100 (Some 1%N) "100/folders/2/" [3%N] [])
             eq_refl).
    simpl. elem_of_explicit.
  - apply (Hkeeps noDuplicateChildren_store_tree).
Defined.

(** The unqualified invariant does not hold: [updateFolder] stores the
    [folderIds] of its payload as given, duplicates included. *)
Lemma updateFolder_stores_duplicates :
  let folderData := FolderUpdate.mk None None None None None None (Some [2%N; 2%N]) in
  let st' := (updateFolder (OidStr 1) folderData store_tree).2 in
  noDuplicateChildren store_tree ∧
  (updateFolder (OidStr 1) folderData store_tree).1
    = Ok (Some (Folder.mk "Reports" 7 100 None "100/folders/1/" [] [2%N; 2%N])) ∧
  folders st' !! 1%N = Some (Folder.mk "Reports" 7 100 None "100/folders/1/" [] [2%N; 2%N]) ∧
  ¬ noDuplicateChildren st'.
Proof.
  intros folderData st'.
  assert (Hst' : folders st' !! 1%N
                 = Some (Folder.mk "Reports" 7 100 None "100/folders/1/" [] [2%N; 2%N]))
    by (vm_compute; reflexivity).
  split; [apply noDuplicateChildren_store_tree|].
  split; [vm_compute; reflexivity|]. split; [exact Hst'|].
  intros Hno. destruct (Hno _ _ Hst') as [_ Hnd]. simpl in Hnd.
  apply NoDup_cons in Hnd as [Hnot _]. apply Hnot. apply list_elem_of_here.
Qed.

(** ** Names and keys are not altered by the [trim] setters *)

Lemma rev_app_rev_app (s1 s2 s3 : string) :
  String.rev_app (String.rev_app s1 s2) s3 = String.rev_app s2 (s1 +:+ s3).
Proof.
  revert s2 s3. induction s1 as [|a s1 IH]; intros s2 s3; simpl; [done|].
  by rewrite IH.
Qed.

Lemma string_app_nil_r (s : string) : s +:+ "" = s.
Proof.
  induction s as [|a s IH]; [done|].
  change (String a s +:+ "") with (String a (s +:+ "")). by rewrite IH.
Qed.

Lemma rev_rev (s : string) : String.rev (String.rev s) = s.
Proof. unfold String.rev. rewrite rev_app_rev_app. simpl. apply string_app_nil_r. Qed.

Lemma no_js_space_rev_app (s1 s2 : string) :
  no_js_space s1 = true → no_js_space s2 = true →
  no_js_space (String.rev_app s1 s2) = true.
Proof.
  revert s2. induction s1 as [|a s1 IH]; intros s2; simpl; [done|].
  intros [Ha H1]%andb_true_iff H2. apply IH; [done|]. simpl. by rewrite Ha, H2.
Qed.

Lemma trimStart_no_js_space (s : string) : no_js_space s = true → trimStart s = s.
Proof.
  destruct s as [|a s]; simpl; [done|].
  intros [Ha _]%andb_true_iff. by apply negb_true_iff in Ha as ->.
Qed.

Lemma trim_no_js_space (s : string) : no_js_space s = true → trim s = s.
Proof.
  intros Hs. unfold trim. rewrite (trimStart_no_js_space s) by done.
  rewrite trimStart_no_js_space; [apply rev_rev|].
  by apply no_js_space_rev_app.
Qed.

Lemma no_js_space_app (s1 s2 : string) :
  no_js_space s1 = true → no_js_space s2 = true → no_js_space (s1 +:+ s2) = true.
Proof.
  induction s1 as [|a s1 IH]; [done|].
  change (String a s1 +:+ s2) with (String a (s1 +:+ s2)). simpl.
  intros [Ha H1]%andb_true_iff H2. rewrite Ha. simpl. by apply IH.
Qed.

Lemma is_safe_char_no_space (c : ascii) : is_safe_char c = true → is_js_space c = false.
Proof.
  unfold is_safe_char, is_js_space. generalize (nat_of_ascii c) as n. intros n.
  cbv zeta.
  rewrite !orb_true_iff, !andb_true_iff, !Nat.leb_le, !Nat.eqb_eq.
  intros H. apply not_true_iff_false.
  rewrite !orb_true_iff, !andb_true_iff, !Nat.leb_le, !Nat.eqb_eq. lia.
Qed.

Lemma no_js_space_replace_unsafe (s : string) : no_js_space (replace_unsafe s) = true.
Proof.
  induction s as [|a s IH]; simpl; [done|]. rewrite IH, andb_true_r.
  apply negb_true_iff. destruct (is_safe_char a) eqn:Ha.
  - by apply is_safe_char_no_space.
  - reflexivity.
Qed.

Lemma no_js_space_slice0 (n : nat) (s : string) :
  no_js_space s = true → no_js_space (slice0 n s) = true.
Proof.
  revert s. induction n as [|n IH]; intros [|a s]; simpl; try done.
  intros [Ha Hs]%andb_true_iff. rewrite Ha. simpl. by apply IH.
Qed.

Lemma no_js_space_sanitizeFolderName (s : string) :
  no_js_space (sanitizeFolderName s) = true.
Proof. apply no_js_space_slice0, no_js_space_replace_unsafe. Qed.

Lemma hex_digit_no_space (d : N) : (d < 16)%N → is_js_space (hex_digit d) = false.
Proof.
  intros Hd. assert (d ∈ (N.of_nat <$> seq 0 16)) as Hin.
  { apply list_elem_of_fmap. exists (N.to_nat d). split; [lia|].
    apply elem_of_seq. lia. }
  simpl in Hin. repeat (apply elem_of_cons in Hin as [->|Hin]; [reflexivity|]).
  by apply elem_of_nil in Hin.
Qed.

Lemma no_js_space_hex_digits (n : nat) (v : N) (acc : string) :
  no_js_space acc = true → no_js_space (hex_digits n v acc) = true.
Proof.
  revert v acc. induction n as [|n IH]; intros v acc Hacc; simpl; [done|].
  apply IH. simpl. rewrite Hacc, andb_true_r. apply negb_true_iff.
  apply hex_digit_no_space. apply N.mod_lt. done.
Qed.

Lemma no_js_space_folderPrefix (b i : ObjectId) :
  no_js_space (folderPrefix (oidToString b) (oidToString i)) = true.
Proof.
  unfold folderPrefix, oidToString.
  repeat apply no_js_space_app; try done; by apply no_js_space_hex_digits.
Qed.

Lemma truthy_app (s1 s2 : string) : truthy s1 = true → truthy (s1 +:+ s2) = true.
Proof. by destruct s1. Qed.

(** ** The parent of a new folder *)

Lemma hex_digit_cased_no_space (up : bool) (d : N) :
  (d < 16)%N → is_js_space (hex_digit_cased up d) = false.
Proof.
  intros Hd. assert (d ∈ (N.of_nat <$> seq 0 16)) as Hin.
  { apply list_elem_of_fmap. exists (N.to_nat d). split; [lia|].
    apply elem_of_seq. lia. }
  simpl in Hin.
  repeat (apply elem_of_cons in Hin as [->|Hin]; [by destruct up|]).
  by apply elem_of_nil in Hin.
Qed.

Lemma no_js_space_hex_digits_cased (n : nat) (v upper : N) (acc : string) :
  no_js_space acc = true → no_js_space (hex_digits_cased n v upper acc) = true.
Proof.
  revert v upper acc. induction n as [|n IH]; intros v upper acc Hacc; [done|].
  change (hex_digits_cased (S n) v upper acc)
    with (hex_digits_cased n (v / 16)%N (upper / 2)%N
            (String (hex_digit_cased (N.odd upper) (v mod 16)%N) acc)).
  apply IH. simpl. rewrite Hacc, andb_true_r. apply negb_true_iff.
  apply hex_digit_cased_no_space. apply N.mod_lt. done.
Qed.

Lemma truthy_hex_digits_cased (n : nat) (v upper : N) (acc : string) :
  truthy acc = true → truthy (hex_digits_cased n v upper acc) = true.
Proof.
  revert v upper acc. induction n as [|n IH]; intros v upper acc Hacc; [done|].
  change (hex_digits_cased (S n) v upper acc)
    with (hex_digits_cased n (v / 16)%N (upper / 2)%N
            (String (hex_digit_cased (N.odd upper) (v mod 16)%N) acc)).
  by apply IH.
Qed.

(** The text of a valid id is not empty and holds no white space. *)
Lemma no_js_space_idText (s : IdString) :
  isValid s = true → no_js_space (idText s) = true.
Proof.
  destruct s as [o|o upper|s]; [| |done]; intros _.
  - by apply no_js_space_hex_digits.
  - by apply no_js_space_hex_digits_cased.
Qed.

Lemma truthy_idText (s : IdString) : isValid s = true → truthy (idText s) = true.
Proof.
  destruct s as [o|o upper|s]; [| |done]; intros _.
  - apply truthy_oidToString.
  - exact (truthy_hex_digits_cased 23 (o / 16) (upper / 2)
             (String (hex_digit_cased (N.odd upper) (o mod 16)) "") eq_refl).
Qed.

Lemma no_js_space_folderPrefix_text (businessId : IdString) (i : ObjectId) :
  isValid businessId = true →
  no_js_space (folderPrefix (idText businessId) (oidToString i)) = true.
Proof.
  intros Hb. unfold folderPrefix.
  repeat apply no_js_space_app; try done.
  - by apply no_js_space_idText.
  - by apply no_js_space_hex_digits.
Qed.

Lemma Folder_insert_fresh (id : ObjectId) (name : string) (u b i : ObjectId)
  (parent : option ObjectId) (st : Store) :
  truthy (sanitizeFolderName name) = true →
  folders st !! id = None →
  Folder_insert id
    (Folder.mk (sanitizeFolderName name) u b parent
       (folderPrefix (oidToString b) (oidToString i)) [] []) st
  = (Ok tt,
     set_folders
       (insert id (Folder.mk (sanitizeFolderName name) u b parent
                     (folderPrefix (oidToString b) (oidToString i)) [] [])) st).
Proof.
  intros Hname Hfresh. unfold Folder_insert, Folder_setters.
  cbn [Folder.folderName Folder.s3Key Folder.userId Folder.businessId
       Folder.parentFolderId Folder.fileIds Folder.folderIds].
  rewrite !(trim_no_js_space (sanitizeFolderName name))
    by apply no_js_space_sanitizeFolderName.
  rewrite !(trim_no_js_space (folderPrefix _ _)) by apply no_js_space_folderPrefix.
  rewrite Hname, Hfresh.
  assert (truthy (folderPrefix (oidToString b) (oidToString i)) = true) as ->.
  { unfold folderPrefix. apply truthy_app, truthy_oidToString. }
  reflexivity.
Qed.

(** [save()] of a new folder whose name is sanitized and whose key is the
    prefix made from a valid workspace id. *)
Lemma Folder_insert_cases (id : ObjectId) (name : string) (u b i : ObjectId)
  (businessId : IdString) (parent : option ObjectId) (st : Store) :
  isValid businessId = true →
  let doc := Folder.mk (sanitizeFolderName name) u b parent
               (folderPrefix (idText businessId) (oidToString i)) [] [] in
  Folder_insert id doc st =
  if negb (truthy (sanitizeFolderName name)) then (Err (ValidationError "folderName"), st)
  else match folders st !! id with
       | Some _ => (Err (DuplicateKey "_id"), st)
       | None => (Ok tt, set_folders (insert id doc) st)
       end.
Proof.
  intros Hb. cbv zeta. unfold Folder_insert, Folder_setters.
  cbn [Folder.folderName Folder.s3Key Folder.userId Folder.businessId
       Folder.parentFolderId Folder.fileIds Folder.folderIds].
  rewrite !(trim_no_js_space (sanitizeFolderName name))
    by apply no_js_space_sanitizeFolderName.
  rewrite !(trim_no_js_space (folderPrefix _ _)) by by apply no_js_space_folderPrefix_text.
  assert (truthy (folderPrefix (idText businessId) (oidToString i)) = true) as ->.
  { unfold folderPrefix. by apply truthy_app, truthy_idText. }
  reflexivity.
Qed.

(** [save()] of a record that was read: it is written when the validators
    pass, and refused, with nothing written, when they do not. *)
Lemma Folder_save_cases (id : ObjectId) (d : Folder.doc) (st : Store) :
  if Folder_valid d then Folder_save id d st = (Ok tt, set_folders (insert id d) st)
  else ∃ path, Folder_save id d st = (Err (ValidationError path), st).
Proof.
  unfold Folder_valid, Folder_save.
  destruct (truthy (trim (Folder.folderName d))); simpl; [|by eexists].
  destruct (truthy (Folder.s3Key d)); simpl; [done|by eexists].
Qed.

Lemma Folder_valid_setFolderIds (ids : list ObjectId) (d : Folder.doc) :
  Folder_valid (setFolderIds ids d) = Folder_valid d.
Proof. done. Qed.

Lemma given_valid (parentFolderId : option IdString) (s : IdString) :
  given parentFolderId = Some s → parentFolderId = Some s.
Proof.
  destruct parentFolderId as [s'|]; [|done]. simpl.
  destruct (truthyId s'); [|done]. by intros [= ->].
Qed.

(** The outcome of [createFolder] on ids that are valid, case by case. *)
Lemma createFolder_cases (folderName : string) (userId businessId : IdString)
  (parentFolderId : option IdString) (st : Store) :
  truthy folderName = true →
  isValid userId = true → isValid businessId = true →
  (∀ s, given parentFolderId = Some s → isValid s = true) →
  let normalizedName := sanitizeFolderName (trim folderName) in
  let id := nextObjectId st in
  let st0 := afterNewId st in
  let parent := objectIdOf <$> given parentFolderId in
  let doc := Folder.mk normalizedName (objectIdOf userId) (objectIdOf businessId) parent
               (folderPrefix (idText businessId) (oidToString id)) [] [] in
  let st1 := set_folders (insert id doc) st0 in
  createFolder folderName userId businessId parentFolderId st =
  match find (siblingQuery (objectIdOf businessId) parent normalizedName)
          (map_to_list (folders st)).*2 with
  | Some _ => (Err (Error (FolderAlreadyExists normalizedName)), st0)
  | None =>
      if negb (truthy normalizedName) then (Err (ValidationError "folderName"), st0)
      else
        match folders st !! id with
        | Some _ => (Err (DuplicateKey "_id"), st0)
        | None =>
            match given parentFolderId with
            | None => (Ok (id, doc), st1)
            | Some s =>
                let p := objectIdOf s in
                match folders st1 !! p with
                | None => (Err (Error (ParentFolderNotFound (idText s))), st1)
                | Some pd =>
                    if existsb (λ existingId, bool_decide (existingId = id))
                         (Folder.folderIds pd)
                    then (Ok (id, doc), st1)
                    else
                      match Folder_save p (setFolderIds (Folder.folderIds pd ++ [id]) pd) st1
                      with
                      | (Ok _, st2) =>
                          (Ok (id, if decide (p = id) then setFolderIds [id] doc else doc),
                           st2)
                      | (Err e, st2) => (Err e, st2)
                      end
                end
            end
        end
  end.
Proof.
  intros Hname Hu Hb Hparent. cbv zeta.
  unfold createFolder, throwIf, bind, ObjectId_new, ObjectId_orNull, Folder_findOne, ret.
  rewrite Hname.
  assert (truthyId userId = true) as -> by by destruct userId.
  assert (truthyId businessId = true) as -> by by destruct businessId.
  rewrite Hu, Hb. cbn [negb orb throw].
  assert (Hcheck : match given parentFolderId with
                   | Some p => negb (isValid p) | None => false end = false).
  { destruct (given parentFolderId) as [s|] eqn:Hs; [|done]. by rewrite (Hparent s). }
  rewrite Hcheck. rewrite !ObjectId_from_valid by done.
  assert (Hcast : ∀ st0 : Store,
            match given parentFolderId with
            | Some s => bind (ObjectId_from s) (λ (o : ObjectId) (st1 : Store), (Ok (Some o), st1))
            | None => λ st1 : Store, (Ok None, st1)
            end st0 = (Ok (objectIdOf <$> given parentFolderId), st0)).
  { intros st0. destruct (given parentFolderId) as [s|] eqn:Hs; [|done].
    unfold bind. by rewrite ObjectId_from_valid by by apply Hparent. }
  rewrite Hcast. cbn [folders].
  destruct (find _ _) as [sibling|]; [done|].
  unfold throw. rewrite ObjectId_from_valid by done.
  rewrite Folder_insert_cases by done. fold (afterNewId st).
  destruct (negb (truthy _)); [done|].
  change (folders (afterNewId st)) with (folders st).
  destruct (folders st !! nextObjectId st) as [taken|] eqn:Hfresh; [done|].
  destruct (given parentFolderId) as [s|] eqn:Hs; cbn [fmap option_fmap option_map].
  - unfold addChildFolderToFolder, bind. rewrite !ObjectId_from_valid by auto.
    unfold Folder_findById. cbn [objectIdOf].
    set (st1 := set_folders (insert (nextObjectId st) _) (afterNewId st)).
    assert (Hid : folders st1 !! nextObjectId st = Some
              (Folder.mk (sanitizeFolderName (trim folderName)) (objectIdOf userId)
                 (objectIdOf businessId) (Some (objectIdOf s))
                 (folderPrefix (idText businessId) (oidToString (nextObjectId st))) [] []))
      by apply lookup_insert_eq.
    destruct (folders st1 !! objectIdOf s) as [pd|] eqn:Hp; [|done].
    destruct (existsb _ _) eqn:Hlinked.
    + unfold ret. by rewrite Hid.
    + pose proof (Folder_save_cases (objectIdOf s)
                    (setFolderIds (Folder.folderIds pd ++ [nextObjectId st]) pd) st1) as Hsave.
      destruct (Folder_valid _); [|by destruct Hsave as [path ->]].
      rewrite Hsave. cbn [set_folders folders].
      destruct (decide (objectIdOf s = nextObjectId st)) as [Heq|Hne].
      * rewrite Heq in *. rewrite lookup_insert_eq. rewrite Hid in Hp. by injection Hp as <-.
      * rewrite lookup_insert_ne by done. by rewrite Hid.
  - unfold Folder_findById. cbn [set_folders folders]. by rewrite lookup_insert_eq.
Qed.

(** C4, as the code has it.  When a parent id is given, the name is not
    blank, no sibling has the name and the generated id is free,
    [createFolder] fails with the parent-not-found error, which carries the
    parent id as it was given, if no folder has the parent id.  If a folder
    has it, whatever the workspace of that folder is, the call goes on to
    link the new folder: when the record of the parent passes the validators
    of the schema, which run when the parent is saved (or the parent lists
    the new id already, and is not saved), the call succeeds, the new folder
    records the parent and the workspace of the call, and the parent lists
    it; otherwise the call fails with a validation error. *)
Theorem createFolder_parent (st : Store) (folderName : string) (u b p : ObjectId)
  (parentFolderId : IdString) :
  isValid parentFolderId = true →
  objectIdOf parentFolderId = p →
  truthy folderName = true →
  truthy (sanitizeFolderName (trim folderName)) = true →
  find (siblingQuery b (Some p) (sanitizeFolderName (trim folderName)))
    (map_to_list (folders st)).*2 = None →
  folders st !! nextObjectId st = None →
  p ≠ nextObjectId st →
  let result := createFolder folderName (OidStr u) (OidStr b) (Some parentFolderId) st in
  match folders st !! p with
  | None => result.1 = Err (Error (ParentFolderNotFound (idText parentFolderId)))
  | Some parent =>
      if Folder_valid parent || bool_decide (nextObjectId st ∈ Folder.folderIds parent) then
        ∃ created, result.1 = Ok (nextObjectId st, created) ∧
          folders result.2 !! nextObjectId st = Some created ∧
          Folder.parentFolderId created = Some p ∧ Folder.businessId created = b ∧
          ∃ parent', folders result.2 !! p = Some parent' ∧
            nextObjectId st ∈ Folder.folderIds parent' ∧
            Folder.businessId parent' = Folder.businessId parent
      else ∃ path, result.1 = Err (ValidationError path)
  end.
Proof.
  intros Hvalid Hp Hname Hnorm Hnone Hfresh Hne result. subst result.
  assert (Hgiven : given (Some parentFolderId) = Some parentFolderId).
  { simpl. by destruct parentFolderId. }
  rewrite createFolder_cases; [|done|done|done|by intros s; rewrite Hgiven; intros [= <-]].
  cbv zeta. rewrite Hgiven. cbn [fmap option_fmap option_map objectIdOf]. rewrite Hp.
  rewrite Hnone, Hnorm, Hfresh. cbn [negb set_folders folders afterNewId].
  rewrite lookup_insert_ne by done.
  destruct (folders st !! p) as [parent|] eqn:Hparent; [|done].
  destruct (existsb _ _) eqn:Hlinked.
  - apply alreadyLinked_spec in Hlinked.
    rewrite (bool_decide_eq_true_2 _ Hlinked), orb_true_r.
    cbn [fst snd set_folders folders].
    eexists. split; [done|]. split; [apply lookup_insert_eq|]. split; [done|].
    split; [done|]. exists parent. rewrite lookup_insert_ne by done. done.
  - assert (nextObjectId st ∉ Folder.folderIds parent) as Hnew.
    { intros Hin. apply alreadyLinked_spec in Hin. congruence. }
    rewrite (bool_decide_eq_false_2 _ Hnew), orb_false_r.
    match goal with
    | |- context [Folder_save p ?d ?st1] =>
        pose proof (Folder_save_cases p d st1) as Hsave
    end.
    rewrite Folder_valid_setFolderIds in Hsave.
    destruct (Folder_valid parent).
    + rewrite Hsave. destruct (decide (p = nextObjectId st)) as [?|_]; [done|].
      cbn [fst snd set_folders folders].
      eexists. split; [done|].
      split; [by rewrite lookup_insert_ne, lookup_insert_eq|]. split; [done|].
      split; [done|]. eexists. rewrite lookup_insert_eq.
      split; [done|]. simpl. split; [|done].
      apply elem_of_app. right. apply list_elem_of_here.
    + destruct Hsave as [path ->]. by exists path.
Qed.

(** In the empty store no folder has id 77; folder 1 of [store_tree] is in
    workspace 100 and its record passes the validators.  The parent ids are
    written with their letters in upper case. *)
Lemma createFolder_parent_witness :
  (createFolder "Drafts" (OidStr 7) (OidStr 100) (Some (OidCased 77 3)) store_empty).1
    = Err (Error (ParentFolderNotFound "00000000000000000000004D")) ∧
  ∃ created,
    (createFolder "Drafts" (OidStr 7) (OidStr 200) (Some (OidStr 1)) store_tree).1
      = Ok (1000%N, created) ∧ Folder.businessId created = 200%N.
Proof.
  split.
  - apply (createFolder_parent store_empty "Drafts" 7 100 77 (OidCased 77 3)
             eq_refl eq_refl eq_refl eq_refl eq_refl eq_refl).
    discriminate.
  - assert (Hne : 1%N ≠ nextObjectId store_tree) by discriminate.
    destruct (createFolder_parent store_tree "Drafts" 7 200 1 (OidStr 1) eq_refl eq_refl
                eq_refl eq_refl eq_refl eq_refl Hne) as (created & Hr & _ & _ & Hb & _).
    exists created. split; [exact Hr|exact Hb].
Defined.

(** [createFolder] does not look the parent up before it saves: with a
    parent id that no folder has, the call fails only after the new folder
    has been saved, and the folder stays in the store; and with a parent in
    another workspace the call succeeds. *)
Lemma createFolder_missing_parent_persists :
  let result :=
    createFolder "Drafts" (OidStr 7) (OidStr 100) (Some (OidStr 77)) store_empty in
  let other :=
    createFolder "Drafts" (OidStr 7) (OidStr 200) (Some (OidStr 1)) store_tree in
  folders store_empty !! 77%N = None ∧
  result.1 = Err (Error (ParentFolderNotFound "00000000000000000000004d")) ∧
  folders result.2 !! 1000%N
    = Some (Folder.mk "Drafts" 7 100 (Some 77%N)
              "000000000000000000000064/folders/0000000000000000000003e8/" [] []) ∧
  Folder.businessId <$> folders store_tree !! 1%N = Some 100%N ∧
  other.1 = Ok (1000%N,
                Folder.mk "Drafts" 7 200 (Some 1%N)
                  "0000000000000000000000c8/folders/0000000000000000000003e8/" [] []) ∧
  Folder.folderIds <$> folders other.2 !! 1%N = Some [2%N; 1000%N].
Proof. vm_compute. repeat split. Qed.

(** ** Recursive delete *)

Lemma before_app_l (e1 e2 : Event) (t0 t : list Event) :
  before e1 e2 t → before e1 e2 (t0 ++ t).
Proof.
  intros (t1 & t2 & t3 & ->). exists (t0 ++ t1), t2, t3. by rewrite <- app_assoc.
Qed.

Lemma before_app_r (e1 e2 : Event) (t t' : list Event) :
  before e1 e2 t → before e1 e2 (t ++ t').
Proof.
  intros (t1 & t2 & t3 & ->). exists t1, t2, (t3 ++ t').
  by rewrite <- !app_assoc, <- !app_comm_cons, <- app_assoc.
Qed.

Lemma sum_children_delete (fs : gmap ObjectId Folder.doc) (c : ObjectId) (d : Folder.doc) :
  fs !! c = Some d →
  sum_list_with (λ kv : ObjectId * Folder.doc, S (length (Folder.folderIds kv.2)))
    (map_to_list fs)
  = S (length (Folder.folderIds d)) +
    sum_list_with (λ kv : ObjectId * Folder.doc, S (length (Folder.folderIds kv.2)))
      (map_to_list (delete c fs)).
Proof.
  intros Hc. rewrite <- (map_to_list_delete fs c d Hc). reflexivity.
Qed.

Lemma deleteSubtree_missing (fuel : nat) (c : ObjectId) (stack : list ObjectId) (st : Store) :
  folders st !! c = None →
  deleteSubtree (S fuel) (c :: stack) st = deleteSubtree fuel stack st.
Proof. intros Hc. simpl. unfold bind, Folder_findById. by rewrite Hc. Qed.

Lemma deleteSubtree_found (fuel : nat) (c : ObjectId) (d : Folder.doc)
  (stack : list ObjectId) (st : Store) :
  folders st !! c = Some d →
  deleteSubtree (S fuel) (c :: stack) st
  = deleteSubtree fuel (reverse (Folder.folderIds d) ++ stack) (afterFolderRound c d st).
Proof.
  intros Hc. simpl. unfold bind at 1, Folder_findById at 1. rewrite Hc.
  unfold bind at 1, S3_deletePrefix, afterFolderRound.
  destruct (negb (truthy (Folder.s3Key d))); reflexivity.
Qed.

Lemma afterFolderRound_trace (c : ObjectId) (d : Folder.doc) (st : Store) :
  trace (afterFolderRound c d st)
  = trace st ++ (if negb (truthy (Folder.s3Key d)) then []
                 else [S3DeletePrefix (Folder.s3Key d)])
      ++ [FilesDeletedIn c; FolderDeleted c].
Proof.
  unfold afterFolderRound. destruct (negb _); simpl; by rewrite <- ?app_assoc.
Qed.

Lemma afterFolderRound_files (c : ObjectId) (d : Folder.doc) (st : Store) :
  files (afterFolderRound c d st)
  = filter (λ kv, File.folderId kv.2 ≠ Some c) (files st).
Proof. unfold afterFolderRound. by destruct (negb _). Qed.

Lemma afterFolderRound_folders (c : ObjectId) (d : Folder.doc) (st : Store) :
  folders (afterFolderRound c d st) = delete c (folders st).
Proof. unfold afterFolderRound. by destruct (negb _). Qed.

Lemma afterFolderRound_permissions (c : ObjectId) (d : Folder.doc) (st : Store) :
  permissions (afterFolderRound c d st) = permissions st.
Proof. unfold afterFolderRound. by destruct (negb _). Qed.

(** What the walk does, from any stack and any store, given enough fuel:
    it ends without failure; it only deletes; every id of the stack is gone;
    a folder that has been deleted took its children and its files with it,
    and its prefix was deleted from the blob store before its record was;
    nothing outside a set that holds the stack and is closed under the
    child lists is touched. *)
Lemma deleteSubtree_spec (fuel : nat) :
  ∀ stack st, loopBound stack (folders st) ≤ fuel →
  ∃ st', deleteSubtree fuel stack st = (Ok tt, st') ∧
    permissions st' = permissions st ∧
    (∃ t, trace st' = trace st ++ t) ∧
    (∀ i, i ∈ stack → folders st' !! i = None) ∧
    (∀ i, folders st' !! i = None ∨ folders st' !! i = folders st !! i) ∧
    (∀ x, files st' !! x = None ∨ files st' !! x = files st !! x) ∧
    (∀ i d, folders st !! i = Some d → folders st' !! i = None →
       (∀ c, c ∈ Folder.folderIds d → folders st' !! c = None) ∧
       (∀ x dx, files st' !! x = Some dx → File.folderId dx ≠ Some i) ∧
       (truthy (Folder.s3Key d) = true →
        ∃ t, trace st' = trace st ++ t ∧
             before (S3DeletePrefix (Folder.s3Key d)) (FolderDeleted i) t)) ∧
    (∀ S : ObjectId → Prop,
       (∀ i, i ∈ stack → S i) →
       (∀ i d c, S i → folders st !! i = Some d → c ∈ Folder.folderIds d → S c) →
       (∀ i, ¬ S i → folders st' !! i = folders st !! i) ∧
       (∀ x dx, files st !! x = Some dx → (∀ i, File.folderId dx = Some i → ¬ S i) →
                files st' !! x = Some dx)).
Proof.
  induction fuel as [|fuel IH]; intros stack st Hfuel.
  { destruct stack as [|c stack]; [|unfold loopBound in Hfuel; simpl in Hfuel; lia].
    exists st. simpl. split; [done|]. split; [done|].
    split; [exists []; by rewrite app_nil_r|].
    split; [by intros i Hi%elem_of_nil|]. split; [by right|]. split; [by right|].
    split; [by intros i d Hd; rewrite Hd|]. intros S _ _. by split. }
  destruct stack as [|c stack].
  { exists st. simpl. split; [done|]. split; [done|].
    split; [exists []; by rewrite app_nil_r|].
    split; [by intros i Hi%elem_of_nil|]. split; [by right|]. split; [by right|].
    split; [by intros i d Hd; rewrite Hd|]. intros S _ _. by split. }
  destruct (folders st !! c) as [d|] eqn:Hc.
  - (* the folder on top of the stack exists: it is deleted *)
    rewrite (deleteSubtree_found fuel c d stack st Hc).
    set (st1 := afterFolderRound c d st).
    assert (Hfs1 : folders st1 = delete c (folders st)) by apply afterFolderRound_folders.
    assert (Hfl1 : files st1 = filter (λ kv, File.folderId kv.2 ≠ Some c) (files st))
      by apply afterFolderRound_files.
    assert (Htr1 : trace st1 = trace st ++
              (if negb (truthy (Folder.s3Key d)) then []
               else [S3DeletePrefix (Folder.s3Key d)])
              ++ [FilesDeletedIn c; FolderDeleted c]) by apply afterFolderRound_trace.
    assert (Hperm1 : permissions st1 = permissions st)
      by apply afterFolderRound_permissions.
    clearbody st1.
    destruct (IH (reverse (Folder.folderIds d) ++ stack) st1)
      as (st' & -> & Hperm & [t Ht] & Hstack & Honly & Hfiles & Hgone & Hframe).
    { rewrite Hfs1. unfold loopBound in *.
      rewrite (sum_children_delete (folders st) c d Hc) in Hfuel.
      rewrite length_app, length_reverse. simpl in Hfuel. lia. }
    exists st'. split; [done|].
    split; [by rewrite Hperm|].
    split; [eexists; by rewrite Ht, Htr1, <- app_assoc|].
    assert (Hc' : folders st' !! c = None).
    { destruct (Honly c) as [?|Heq]; [done|]. by rewrite Heq, Hfs1, lookup_delete_eq. }
    split; [|split; [|split; [|split]]].
    + intros i [->|Hi]%elem_of_cons; [done|]. apply Hstack, elem_of_app. by right.
    + intros i. destruct (Honly i) as [?|Heq]; [by left|].
      rewrite Heq, Hfs1. destruct (decide (c = i)) as [->|Hne].
      * left. apply lookup_delete_eq.
      * right. by apply lookup_delete_ne.
    + intros x. destruct (Hfiles x) as [?|Heq]; [by left|].
      rewrite Heq, Hfl1. destruct (files st !! x) as [dx|] eqn:Hx.
      * destruct (decide (File.folderId dx ≠ Some c)).
        -- right. by apply map_lookup_filter_Some.
        -- left. apply map_lookup_filter_None. right. intros dx' Hx'. by simplify_eq.
      * right. apply map_lookup_filter_None. by left.
    + intros i di Hi Hnone. destruct (decide (i = c)) as [->|Hne].
      * simplify_eq. split; [|split].
        -- intros c' Hc'in. apply Hstack, elem_of_app. left. by rewrite elem_of_reverse.
        -- intros x dx Hx. destruct (Hfiles x) as [Hx'|Hx']; [congruence|].
           rewrite Hx, Hfl1 in Hx'. symmetry in Hx'.
           by apply map_lookup_filter_Some in Hx' as [_ ?].
        -- intros Hkey. rewrite Hkey in Htr1. simpl in Htr1.
           eexists. split; [by rewrite Ht, Htr1, <- app_assoc|].
           apply before_app_r. exists [], [FilesDeletedIn c], []. done.
      * destruct (Hgone i di) as (Hchildren & Hfile & Htrace);
          [by rewrite Hfs1, lookup_delete_ne|done|].
        split; [done|]. split; [done|].
        intros Hkey. destruct (Htrace Hkey) as (t' & Ht' & Hbefore).
        eexists. split; [by rewrite Ht', Htr1, <- app_assoc|].
        by apply before_app_l.
    + intros S Hin Hclosed.
      destruct (Hframe S) as [Hfolders Hkept].
      { intros i [Hi|Hi]%elem_of_app; [|apply Hin; by apply list_elem_of_further].
        rewrite elem_of_reverse in Hi.
        apply (Hclosed c d i); [apply Hin, list_elem_of_here|exact Hc|exact Hi]. }
      { intros i di c' HS Hi. apply (Hclosed i di c' HS).
        rewrite Hfs1 in Hi. by apply lookup_delete_Some in Hi as [_ ?]. }
      split.
      * intros i Hi. rewrite (Hfolders i Hi), Hfs1. apply lookup_delete_ne.
        intros <-. apply Hi, Hin, list_elem_of_here.
      * intros x dx Hx Hout. apply Hkept; [|done].
        rewrite Hfl1. apply map_lookup_filter_Some. split; [done|]. simpl.
        intros Heq. apply (Hout c Heq), Hin, list_elem_of_here.
  - (* the id on top of the stack resolves to no record: it is skipped *)
    rewrite (deleteSubtree_missing fuel c stack st Hc).
    destruct (IH stack st) as (st' & -> & Hperm & Htr & Hstack & Honly & Hfiles & Hgone & Hframe).
    { unfold loopBound in *. simpl in Hfuel. lia. }
    exists st'. split; [done|]. split; [done|]. split; [done|].
    split; [|split; [done|split; [done|split; [done|]]]].
    + intros i [->|Hi]%elem_of_cons; [|by apply Hstack].
      destruct (Honly c) as [?|Heq]; [done|]. by rewrite Heq.
    + intros S Hin Hclosed. apply Hframe; [|done].
      intros i Hi. apply Hin. by apply list_elem_of_further.
Qed.

Lemma deleteFolder_found (root : ObjectId) (d : Folder.doc) (st : Store) :
  folders st !! root = Some d →
  let stack := reverse (Folder.folderIds d) in
  let st0 := afterRootFiles root d st in
  deleteFolder (OidStr root) st =
  match deleteSubtree (loopBound stack (folders st0)) stack st0 with
  | (Ok _, st1) =>
      let st2 := afterUnlink root d st1 in
      (Ok (folders st2 !! root), log (FolderDeleted root) (set_folders (delete root) st2))
  | (Err e, st1) => (Err e, st1)
  end.
Proof.
  intros Hroot stack st0. subst stack st0.
  unfold deleteFolder, bind at 1, throwIf. simpl.
  unfold bind at 1. simpl. unfold bind at 1, Folder_findById at 1. rewrite Hroot.
  unfold bind at 1, S3_deletePrefix, afterRootFiles.
  destruct (negb (truthy (Folder.s3Key d))); simpl.
  - unfold bind at 1. simpl. unfold bind at 1. simpl. unfold bind at 1.
    destruct (deleteSubtree _ _ _) as [[[]|e] st1]; [|done].
    unfold bind at 1, afterUnlink. by destruct (Folder.parentFolderId d).
  - unfold bind at 1. simpl. unfold bind at 1. simpl. unfold bind at 1.
    destruct (deleteSubtree _ _ _) as [[[]|e] st1]; [|done].
    unfold bind at 1, afterUnlink. by destruct (Folder.parentFolderId d).
Qed.

(** [deleteFolder] reads its id through [isValid] and the cast only. *)
Lemma deleteFolder_spelling (id : IdString) (st : Store) :
  isValid id = true → deleteFolder id st = deleteFolder (OidStr (objectIdOf id)) st.
Proof. by destruct id. Qed.

(** The walk of [deleteFolder] always ends within the bound the model gives
    it. *)
Lemma deleteFolder_fuel_enough (id : IdString) (st : Store) :
  (deleteFolder id st).1 ≠ Err OutOfFuel.
Proof.
  destruct (isValid id) eqn:Hid;
    [|unfold deleteFolder, bind, throwIf; by rewrite Hid].
  rewrite (deleteFolder_spelling id st Hid). generalize (objectIdOf id). intros root.
  destruct (folders st !! root) as [d|] eqn:Hroot.
  - rewrite (deleteFolder_found root d st Hroot). cbv zeta.
    destruct (deleteSubtree_spec
                (loopBound (reverse (Folder.folderIds d)) (folders (afterRootFiles root d st)))
                (reverse (Folder.folderIds d)) (afterRootFiles root d st)) as (st1 & -> & _);
      [done|]. done.
  - unfold deleteFolder, bind, throwIf, Folder_findById. simpl. by rewrite Hroot.
Qed.

(** C5. Recursive delete completeness, on the tree root → A → B with one
    file in B (the child ids recorded in B, if any, resolve to no record):
    [deleteFolder(root)] succeeds; no folder record is left for root, A or
    B and no file record for the file; for each of the three folders the
    prefix-delete of its [s3Key] is issued before its record is deleted;
    root is removed from the [folderIds] of its parent, if it has one; ids
    that resolve to no record are skipped without an error; every other
    folder is left as it is. *)
Theorem deleteFolder_tree (st : Store) (root a b x : ObjectId)
  (droot da db : Folder.doc) (dx : File.doc) :
  folders st !! root = Some droot →
  folders st !! a = Some da →
  folders st !! b = Some db →
  files st !! x = Some dx →
  Folder.folderIds droot = [a] →
  Folder.folderIds da = [b] →
  (∀ c, c ∈ Folder.folderIds db → folders st !! c = None) →
  File.folderId dx = Some b →
  root ≠ a → root ≠ b → a ≠ b →
  truthy (Folder.s3Key droot) = true →
  truthy (Folder.s3Key da) = true →
  truthy (Folder.s3Key db) = true →
  (∀ p, Folder.parentFolderId droot = Some p → p ≠ root ∧ p ≠ a ∧ p ≠ b) →
  let result := deleteFolder (OidStr root) st in
  result.1 = Ok (Some droot) ∧
  folders result.2 !! root = None ∧
  folders result.2 !! a = None ∧
  folders result.2 !! b = None ∧
  files result.2 !! x = None ∧
  (∃ t, trace result.2 = trace st ++ t ∧
        before (S3DeletePrefix (Folder.s3Key droot)) (FolderDeleted root) t ∧
        before (S3DeletePrefix (Folder.s3Key da)) (FolderDeleted a) t ∧
        before (S3DeletePrefix (Folder.s3Key db)) (FolderDeleted b) t) ∧
  (∀ p dp, Folder.parentFolderId droot = Some p → folders st !! p = Some dp →
     folders result.2 !! p = Some (setFolderIds (pull root (Folder.folderIds dp)) dp) ∧
     root ∉ pull root (Folder.folderIds dp)) ∧
  (∀ i, i ≠ root → i ≠ a → i ≠ b → Folder.parentFolderId droot ≠ Some i →
        folders result.2 !! i = folders st !! i).
Proof.
  intros Hroot Ha Hb Hx Hroot_ids Ha_ids Hb_ids Hx_in Hra Hrb Hab
    Hkroot Hka Hkb Hparent result. subst result.
  rewrite (deleteFolder_found root droot st Hroot). rewrite Hroot_ids. change (reverse [a]) with [a].
  set (st0 := afterRootFiles root droot st).
  assert (Hfs0 : folders st0 = folders st).
  { unfold st0, afterRootFiles. by destruct (negb _). }
  assert (Htr0 : trace st0 = trace st ++
            [S3DeletePrefix (Folder.s3Key droot); FilesDeletedIn root]).
  { unfold st0, afterRootFiles. rewrite Hkroot. simpl. by rewrite <- app_assoc. }
  destruct (deleteSubtree_spec (loopBound [a] (folders st0)) [a] st0)
    as (st1 & -> & _ & [t Ht] & Hstack & Honly & Hfiles & Hgone & Hframe); [done|].
  (* A, then B, then the file *)
  assert (Ha1 : folders st1 !! a = None) by apply Hstack, list_elem_of_here.
  destruct (Hgone a da) as (Ha_children & _ & Ha_trace); [by rewrite Hfs0|done|].
  assert (Hb1 : folders st1 !! b = None).
  { apply Ha_children. rewrite Ha_ids. apply list_elem_of_here. }
  destruct (Hgone b db) as (_ & Hb_files & Hb_trace); [by rewrite Hfs0|done|].
  assert (Hx1 : files st1 !! x = None).
  { destruct (files st1 !! x) as [dx'|] eqn:Hx1; [|done]. exfalso.
    destruct (Hfiles x) as [Hnone|Hsame]; [congruence|].
    rewrite Hx1 in Hsame. symmetry in Hsame.
    assert (dx' = dx) as ->.
    { unfold st0, afterRootFiles in Hsame.
      assert (filter (λ kv, File.folderId kv.2 ≠ Some root) (files st) !! x = Some dx')
        as Hfilter by (by destruct (negb _)).
      apply map_lookup_filter_Some in Hfilter as [? _]. congruence. }
    by apply (Hb_files x dx Hx1). }
  (* nothing but A and B is deleted by the walk *)
  assert (Hrest : ∀ i, i ≠ a → i ≠ b → folders st1 !! i = folders st !! i).
  { intros i Hia Hib. rewrite <- Hfs0.
    destruct (folders st0 !! i) as [di|] eqn:Hi.
    - destruct (Hframe (λ j, j = a ∨ j = b ∨ folders st !! j = None)) as [Hkeep _].
      + intros j ->%list_elem_of_singleton. by left.
      + intros j dj c [->|[->|Hj]]; rewrite Hfs0; intros Hdj Hc.
        * simplify_eq. rewrite Ha_ids in Hc. apply list_elem_of_singleton in Hc. auto.
        * simplify_eq. right. right. by apply Hb_ids.
        * congruence.
      + rewrite <- Hi. apply Hkeep. rewrite Hfs0 in Hi. intros [?|[?|?]]; congruence.
    - destruct (Honly i) as [?|Heq]; [done|]. by rewrite Heq. }
  set (st2 := afterUnlink root droot st1).
  assert (Hfs2 : ∀ i, Folder.parentFolderId droot ≠ Some i →
                      folders st2 !! i = folders st1 !! i).
  { intros i Hi. unfold st2, afterUnlink.
    destruct (Folder.parentFolderId droot) as [p|]; [|done]. simpl.
    apply lookup_alter_ne. congruence. }
  assert (Hnot_root : Folder.parentFolderId droot ≠ Some root)
    by (intros Hp; by destruct (Hparent root Hp)).
  assert (Hnot_a : Folder.parentFolderId droot ≠ Some a)
    by (intros Hp; by destruct (Hparent a Hp) as (_ & ? & _)).
  assert (Hnot_b : Folder.parentFolderId droot ≠ Some b)
    by (intros Hp; by destruct (Hparent b Hp) as (_ & _ & ?)).
  assert (Htr2 : trace st2 = trace st1).
  { unfold st2, afterUnlink. by destruct (Folder.parentFolderId droot). }
  assert (Hfl2 : files st2 = files st1).
  { unfold st2, afterUnlink. by destruct (Folder.parentFolderId droot). }
  simpl.
  split; [by rewrite Hfs2, Hrest, Hroot|].
  split; [apply lookup_delete_eq|].
  split; [by rewrite lookup_delete_ne, Hfs2|].
  split; [by rewrite lookup_delete_ne, Hfs2|].
  split; [by rewrite Hfl2|].
  split; [|split].
  - exists ([S3DeletePrefix (Folder.s3Key droot); FilesDeletedIn root] ++ t
            ++ [FolderDeleted root]).
    split; [by rewrite Htr2, Ht, Htr0, <- !app_assoc|].
    split; [|split].
    + exists [], (FilesDeletedIn root :: t), []. reflexivity.
    + destruct (Ha_trace Hka) as (ta & Hta & Hbefore).
      rewrite Ht in Hta. apply app_inv_head in Hta as <-.
      by apply before_app_l, before_app_r.
    + destruct (Hb_trace Hkb) as (tb & Htb & Hbefore).
      rewrite Ht in Htb. apply app_inv_head in Htb as <-.
      by apply before_app_l, before_app_r.
  - intros p dp Hp Hdp. destruct (Hparent p Hp) as (Hpr & Hpa & Hpb).
    split.
    + rewrite lookup_delete_ne by done. unfold st2, afterUnlink. rewrite Hp. simpl.
      rewrite lookup_alter_eq, Hrest, Hdp by done. done.
    + unfold pull. rewrite list_elem_of_filter. by intros [? _].
  - intros i Hir Hia Hib Hip.
    rewrite lookup_delete_ne, Hfs2, Hrest by done. done.
Qed.

Lemma deleteFolder_tree_witness :
  let result := deleteFolder (OidStr 1) store_delete in
  folders result.2 !! 1%N = None ∧ folders result.2 !! 2%N = None ∧
  folders result.2 !! 3%N = None ∧ files result.2 !! 4%N = None ∧
  folders result.2 !! 20%N = Some (Folder.mk "Home" 7 100 None "100/folders/20/" [] []).
Proof.
  intros result.
  destruct (deleteFolder_tree store_delete 1 2 3 4
              (Folder.mk "root" 7 100 (Some 20%N) "100/folders/1/" [] [2%N])
              (Folder.mk "A" 7 100 (Some 1%N) "100/folders/2/" [] [3%N])
              (Folder.mk "B" 7 100 (Some 2%N) "100/folders/3/" [4%N] [99%N])
              (File.mk 7 100 (Some 3%N) "q1.pdf" 10000 None "100/folders/3/files/4-q1.pdf"))
    as (_ & Hroot & Ha & Hb & Hx & _ & Hparent & _);
    try reflexivity; try discriminate.
  - intros c Hc. simpl in Hc. apply list_elem_of_singleton in Hc. subst c. reflexivity.
  - intros p Hp. simpl in Hp. injection Hp as <-. repeat split; discriminate.
  - split; [exact Hroot|]. split; [exact Ha|]. split; [exact Hb|]. split; [exact Hx|].
    destruct (Hparent 20%N (Folder.mk "Home" 7 100 None "100/folders/20/" [] [1%N])
                eq_refl eq_refl) as [Hhome _].
    exact Hhome.
Defined.

(** * Further properties of the services *)

(** ** The authorization resolver, continued *)

(** X1. [checkPermission] only reads: whatever the resource type, the
    action and the request are, and whether it allows or rejects, the store
    after the middleware is the store before it. *)
Theorem checkPermission_reads_only (resource : ResourceType) (action : string)
  (req : Request) (st : Store) :
  (checkPermission resource action req st).2 = st.
Proof.
  unfold checkPermission, bind, throwIf, throw, ret.
  destruct (isAction action); simpl; [|done].
  destruct (auth req) as [a|]; simpl; [|done].
  destruct (truthy (userIdString a)); simpl; [|done].
  destruct (isValid (params_id req)) eqn:Hid; simpl; [|done].
  rewrite ObjectId_from_valid by done. generalize (objectIdOf (params_id req)).
  intros id. destruct resource; simpl.
  - unfold File_findById. destruct (files st !! id) as [d|]; simpl; [|done].
    destruct (decide _); [done|]. unfold Permission_exists.
    destruct (existsb (globalQuery _ _) _); [done|].
    by destruct (existsb (specificQuery _ _ _ _) _).
  - unfold Folder_findById. destruct (folders st !! id) as [d|]; simpl; [|done].
    destruct (decide _); [done|]. unfold Permission_exists.
    destruct (existsb (globalQuery _ _) _); [done|].
    by destruct (existsb (specificQuery _ _ _ _) _).
Qed.

Lemma isAction_false (action : string) : action ∉ ACCESS_LEVELS → isAction action = false.
Proof. intros H. unfold isAction. by apply bool_decide_eq_false. Qed.

(** X2. The order of the rejections of [checkPermission]: an action outside
    the vocabulary is answered with 500 before anything else is looked at;
    then a request without an authenticated user with 401; then an id that
    is not an ObjectId with 400; then a resource that does not exist with
    404, whatever permissions the user holds. *)
Theorem checkPermission_rejection_order (resource : ResourceType) (action : string)
  (req : Request) (st : Store) :
  let outcome := (checkPermission resource action req st).1 in
  (action ∉ ACCESS_LEVELS → outcome = Err (AppError 500 "PERMISSION_INVALID_ACTION")) ∧
  (action ∈ ACCESS_LEVELS →
   (∀ a, auth req = Some a → truthy (userIdString a) = false) →
   outcome = Err (AppError 401 "NOT_AUTHENTICATED")) ∧
  (action ∈ ACCESS_LEVELS →
   ∀ a, auth req = Some a → truthy (userIdString a) = true →
   (isValid (params_id req) = false → outcome = Err (AppError 400 "INVALID_ID")) ∧
   (∀ id, params_id req = OidStr id → ownerOf st resource id = None →
      outcome = Err (AppError 404 (match resource with
                                   | RFolder => "FOLDER_NOT_FOUND"
                                   | RFile => "FILE_NOT_FOUND"
                                   end)))).
Proof.
  cbv zeta. unfold checkPermission, bind, throwIf, throw, ret. repeat split.
  - intros Hact. by rewrite (isAction_false _ Hact).
  - intros Hact Hauth. rewrite (isAction_true _ Hact). simpl.
    destruct (auth req) as [a|]; simpl; [|done]. by rewrite (Hauth a eq_refl).
  - intros Hid. rewrite (isAction_true _ H). simpl. rewrite H0. simpl. rewrite H1. simpl.
    by rewrite Hid.
  - intros id Hid Hnone. rewrite (isAction_true _ H). simpl. rewrite H0. simpl.
    rewrite H1. simpl. rewrite Hid. simpl.
    destruct resource; simpl in *.
    + unfold File_findById. by destruct (files st !! id).
    + unfold Folder_findById. by destruct (folders st !! id).
Qed.

Lemma checkPermission_rejection_order_witness :
  (checkPermission RFolder "read" (mkRequest (Some (authOf 8)) (OidStr 11))
     store_two_tiers).1 = Err (AppError 404 "FOLDER_NOT_FOUND") ∧
  (checkPermission RFolder "share" (mkRequest None (RawStr "x")) store_two_tiers).1
    = Err (AppError 500 "PERMISSION_INVALID_ACTION").
Proof.
  split.
  - destruct (checkPermission_rejection_order RFolder "read"
                (mkRequest (Some (authOf 8)) (OidStr 11)) store_two_tiers)
      as (_ & _ & H).
    destruct (H ltac:(elem_of_explicit) (authOf 8) eq_refl eq_refl) as [_ H'].
    apply (H' 11%N); reflexivity.
  - destruct (checkPermission_rejection_order RFolder "share"
                (mkRequest None (RawStr "x")) store_two_tiers)
      as (H & _).
    apply H. unfold ACCESS_LEVELS. intros H'.
    repeat (apply elem_of_cons in H' as [H'|H']; [discriminate|]).
    by apply elem_of_nil in H'.
Defined.

(** X3. What [checkPermission] allows, exactly: for an action of the
    vocabulary, an authenticated user and a resource that exists, the
    request passes if and only if the user is the recorded owner, or holds a
    global grant of the action, or holds a grant of the action scoped to
    this very resource. *)
Theorem checkPermission_allows_iff (st : Store) (resource : ResourceType)
  (action : string) (a : AuthContext) (id owner : ObjectId) :
  action ∈ ACCESS_LEVELS →
  truthy (userIdString a) = true →
  ownerOf st resource id = Some owner →
  (checkPermission resource action (mkRequest (Some a) (OidStr id)) st).1 = Ok tt ↔
  oidToString owner = userIdString a ∨
  (∃ p, p ∈ permissions st ∧ globalGrant (auth_userId a) action p) ∨
  (∃ p, p ∈ permissions st ∧ specificGrant (auth_userId a) resource id action p).
Proof.
  intros Hact Hauth Hown.
  rewrite (checkPermission_found st resource action a id owner Hact Hauth Hown).
  destruct (decide _) as [Heq|Hne]; [by split; [left|]|].
  destruct (existsb (globalQuery _ _) _) eqn:Hg.
  { split; [|done]. intros _. right. left.
    apply existsb_elem_of in Hg as (p & Hp & Hq). exists p.
    split; [done|]. by apply globalQuery_spec. }
  destruct (existsb (specificQuery _ _ _ _) _) eqn:Hs.
  { split; [|done]. intros _. right. right.
    apply existsb_elem_of in Hs as (p & Hp & Hq). exists p.
    split; [done|]. by apply specificQuery_spec. }
  split; [done|].
  intros [?|[(p & Hp & Hq)|(p & Hp & Hq)]]; [done| |].
  - apply globalQuery_spec in Hq.
    rewrite existsb_false_elem_of in Hg. rewrite (Hg p Hp) in Hq. done.
  - apply specificQuery_spec in Hq.
    rewrite existsb_false_elem_of in Hs. rewrite (Hs p Hp) in Hq. done.
Qed.

Lemma checkPermission_allows_iff_witness :
  (checkPermission RFolder "delete" (mkRequest (Some (authOf 8)) (OidStr 10))
     store_two_tiers).1 = Ok tt ↔
  oidToString 7 = userIdString (authOf 8) ∨
  (∃ p, p ∈ permissions store_two_tiers ∧ globalGrant 8 "delete" p) ∨
  (∃ p, p ∈ permissions store_two_tiers ∧ specificGrant 8 RFolder 10 "delete" p).
Proof.
  apply (checkPermission_allows_iff store_two_tiers RFolder "delete" (authOf 8) 10 7).
  - elem_of_explicit.
  - reflexivity.
  - reflexivity.
Defined.

(** ** Grants, continued *)


Lemma find_Some_elem_of {A} (q : A → bool) (l : list A) (x : A) :
  find q l = Some x → x ∈ l ∧ q x = true.
Proof.
  induction l as [|y l IH]; simpl; [done|].
  destruct (q y) eqn:Hy.
  - intros [= ->]. split; [apply list_elem_of_here|done].
  - intros [? ?]%IH. split; [by apply list_elem_of_further|done].
Qed.

Lemma find_Some_existsb {A} (q : A → bool) (l : list A) (x : A) :
  find q l = Some x → existsb q l = true.
Proof.
  intros [? ?]%find_Some_elem_of. apply existsb_elem_of. by exists x.
Qed.

Lemma find_None_existsb {A} (q : A → bool) (l : list A) :
  find q l = None → existsb q l = false.
Proof.
  induction l as [|y l IH]; simpl; [done|]. by destruct (q y).
Qed.

Lemma length_update_first {A} (q : A → bool) (f : A → A) (l : list A) :
  length (update_first q f l) = length l.
Proof.
  induction l as [|y l IH]; simpl; [done|]. destruct (q y); simpl; congruence.
Qed.


Lemma hasId_other (l : list Permission.doc) (x y : Permission.doc) :
  NoDup (Permission._id <$> l) → x ∈ l → y ∈ l → x ≠ y →
  hasId (Permission._id x) y = false.
Proof.
  intros Hnd Hx Hy Hne. apply bool_decide_eq_false. intros Heq. apply Hne.
  apply (uniqueIds_inj (mkStore ∅ ∅ l [] 0)); done.
Qed.

(** With unique ids, the record that [save] rewrites is the one that was
    read, and the query that found it finds its new state. *)
Lemma find_update_first_hasId (q : Permission.doc → bool)
  (f : Permission.doc → Permission.doc) (l : list Permission.doc) (x : Permission.doc) :
  NoDup (Permission._id <$> l) → find q l = Some x → q (f x) = true →
  find q (update_first (hasId (Permission._id x)) f l) = Some (f x).
Proof.
  induction l as [|y l IH]; simpl; [done|]. intros Hnd Hfind Hq.
  destruct (q y) eqn:Hqy.
  - injection Hfind as ->. unfold hasId at 1. rewrite bool_decide_eq_true_2 by done.
    simpl. by rewrite Hq.
  - assert (hasId (Permission._id x) y = false) as ->.
    { apply find_Some_elem_of in Hfind as [Hx Hqx].
      apply (hasId_other (y :: l)); [done|by apply list_elem_of_further|
                                     apply list_elem_of_here|congruence]. }
    simpl. rewrite Hqy. apply IH; [|done|done].
    csimpl in Hnd. by apply NoDup_cons in Hnd as [_ ?].
Qed.

(** The two branches that [grantGlobalPermission] and
    [grantSpecificPermission] share: the record the query finds is saved
    with the new levels, or a record is created. *)
Lemma direct_grant (q : Permission.doc → bool) (u : ObjectId) (t : option ObjectId)
  (ty : option ResourceType) (levels : list string) (g : bool) (st st1 : Store)
  (r : Permission.doc) :
  (∀ x, q x = true → q (setAccessLevel levels x) = true) →
  (∀ id, q (Permission.mk id u t ty levels g) = true) →
  uniqueIds st →
  match find q (permissions st) with
  | Some existing => Permission_saveAccessLevel existing levels
  | None => Permission_create u t ty levels g
  end st = (Ok r, st1) →
  folders st1 = folders st ∧ files st1 = files st ∧ trace st1 = trace st ∧
  uniqueIds st1 ∧
  find q (permissions st1) = Some r ∧ Permission.accessLevel r = levels ∧
  (∀ p, p ∈ permissions st → q p = false → p ∈ permissions st1) ∧
  (∀ p, p ∈ permissions st1 → p ∈ permissions st ∨ p = r) ∧
  length (permissions st1) =
    (if existsb q (permissions st) then length (permissions st)
     else S (length (permissions st))).
Proof.
  intros Hkeep Hnew Hu.
  destruct (find q (permissions st)) as [e|] eqn:Hfind.
  - unfold Permission_saveAccessLevel, bind, modify, ret. intros [= <- <-]. simpl.
    destruct (find_Some_elem_of _ _ _ Hfind) as [He Hqe].
    repeat split; try done.
    + unfold uniqueIds. simpl. by rewrite update_first_fmap.
    + apply find_update_first_hasId; auto.
    + intros p Hp Hq. apply update_first_frame; [done|].
      apply (hasId_other (permissions st)); [done..|congruence].
    + intros p [Hp|(x & Hx & Hid & ->)]%update_first_origin; [by left|right].
      apply bool_decide_eq_true in Hid. f_equal.
      by apply (uniqueIds_inj st).
    + rewrite (find_Some_existsb _ _ _ Hfind). apply length_update_first.
  - unfold Permission_create, bind, ObjectId_new, Permission_insert, ret. simpl.
    destruct (existsb (hasId _) _) eqn:Hid; [done|]. intros [= <- <-]. simpl.
    repeat split; try done.
    + unfold uniqueIds. simpl. rewrite fmap_app.
      apply NoDup_app. repeat split; [done| |apply NoDup_singleton].
      intros x Hx ->%list_elem_of_singleton. by apply existsb_hasId in Hid.
    + rewrite find_app_None by done. simpl. by rewrite Hnew.
    + intros p Hp _. apply elem_of_app. by left.
    + intros p [Hp|Hp%list_elem_of_singleton]%elem_of_app; [by left|by right].
    + rewrite (find_None_existsb _ _ Hfind). rewrite length_app. simpl. lia.
Qed.

(** The generator has not handed out the id of a stored record: the branch
    does not fail. *)
Lemma direct_grant_succeeds (q : Permission.doc → bool) (u : ObjectId)
  (t : option ObjectId) (ty : option ResourceType) (levels : list string) (g : bool)
  (st : Store) :
  (∀ p, p ∈ permissions st → Permission._id p ≠ nextObjectId st) →
  ∃ r st1,
    match find q (permissions st) with
    | Some existing => Permission_saveAccessLevel existing levels
    | None => Permission_create u t ty levels g
    end st = (Ok r, st1).
Proof.
  intros Hfresh. destruct (find q (permissions st)) as [e|].
  - by eexists _, _.
  - unfold Permission_create, bind, ObjectId_new, Permission_insert, ret. simpl.
    destruct (existsb (hasId _) _) eqn:Hid; [|by eexists _, _].
    apply existsb_elem_of in Hid as (p & Hp & Hid).
    apply bool_decide_eq_true in Hid. by destruct (Hfresh p Hp).
Qed.

Lemma userGlobalQuery_spec (u : ObjectId) (p : Permission.doc) :
  userGlobalQuery u p = true ↔ Permission.userId p = u ∧ Permission.isGlobal p = true.
Proof.
  unfold userGlobalQuery. rewrite andb_true_iff, bool_decide_eq_true. done.
Qed.

Lemma grantGlobalPermission_unfold (u : ObjectId) (accessLevel : AccessLevelInput)
  (st : Store) :
  validateAccessLevel accessLevel = true →
  grantGlobalPermission (OidStr u) accessLevel st =
  match find (userGlobalQuery u) (permissions st) with
  | Some existing => Permission_saveAccessLevel existing (toArray accessLevel)
  | None => Permission_create u None None (toArray accessLevel) true
  end st.
Proof.
  intros Hv. unfold grantGlobalPermission, bind, throwIf. simpl. rewrite Hv. simpl.
  unfold Permission_findOne. by destruct (find _ _).
Qed.

(** X4. [grantGlobalPermission] is an upsert of the one global record of a
    user: with valid levels it answers a global record of the user that
    lists exactly the levels asked for, which [getGlobalPermissions] then
    returns; the collection grows by one record when the user had no global
    record and keeps its size otherwise; folders, files and the records
    that are not global records of this user stay. *)
Theorem grantGlobalPermission_upsert (u : ObjectId) (accessLevel : AccessLevelInput)
  (st : Store) :
  uniqueIds st →
  validateAccessLevel accessLevel = true →
  (∀ p, p ∈ permissions st → Permission._id p ≠ nextObjectId st) →
  let result := grantGlobalPermission (OidStr u) accessLevel st in
  ∃ p, result.1 = Ok p ∧
    Permission.userId p = u ∧ Permission.isGlobal p = true ∧
    Permission.accessLevel p = toArray accessLevel ∧
    getGlobalPermissions (OidStr u) result.2 = (Ok (Some p), result.2) ∧
    folders result.2 = folders st ∧ files result.2 = files st ∧
    length (permissions result.2) =
      (if existsb (userGlobalQuery u) (permissions st) then length (permissions st)
       else S (length (permissions st))) ∧
    (∀ p', p' ∈ permissions st → userGlobalQuery u p' = false →
           p' ∈ permissions result.2) ∧
    uniqueIds result.2.
Proof.
  intros Hu Hv Hfresh. cbv zeta. rewrite grantGlobalPermission_unfold by done.
  destruct (direct_grant_succeeds (userGlobalQuery u) u None None (toArray accessLevel)
              true st Hfresh) as (r & st1 & Hstep).
  rewrite Hstep. simpl.
  destruct (direct_grant (userGlobalQuery u) u None None (toArray accessLevel) true
              st st1 r) as (Hf & Hfl & _ & Hu1 & Hfind & Hlev & Hframe & _ & Hlen);
    [| |done|done|].
  { intros x (? & ?)%userGlobalQuery_spec. by apply userGlobalQuery_spec. }
  { intros id. by apply userGlobalQuery_spec. }
  exists r. destruct (find_Some_elem_of _ _ _ Hfind) as [_ (? & ?)%userGlobalQuery_spec].
  repeat split; try done.
  unfold getGlobalPermissions, bind, throwIf, Permission_findOne. simpl. by rewrite Hfind.
Qed.

Lemma grantGlobalPermission_upsert_witness :
  ∃ p, (grantGlobalPermission (OidStr 8) (Many ["read"; "write"]) store_grants).1 = Ok p ∧
       Permission.accessLevel p = ["read"; "write"] ∧
       length (permissions (grantGlobalPermission (OidStr 8) (Many ["read"; "write"])
                              store_grants).2) = 3.
Proof.
  destruct (grantGlobalPermission_upsert 8 (Many ["read"; "write"]) store_grants)
    as (p & Hr & _ & _ & Hlev & _ & _ & _ & Hlen & _).
  - refine (bool_decide_unpack _ _). vm_compute. exact I.
  - reflexivity.
  - intros p Hp. vm_compute in Hp.
    repeat (apply elem_of_cons in Hp as [->|Hp]; [discriminate|]).
    by apply elem_of_nil in Hp.
  - exists p. split; [exact Hr|]. split; [exact Hlev|exact Hlen].
Defined.

(** X5. A global grant opens every resource that exists: after a
    successful [grantGlobalPermission] for user [u], [checkPermission] lets
    [u] perform each granted action on every stored file and folder. *)
Theorem global_grant_opens_every_resource (u : ObjectId) (accessLevel : AccessLevelInput)
  (st st' : Store) (p : Permission.doc) (action : string) (resource : ResourceType)
  (id : ObjectId) :
  uniqueIds st →
  grantGlobalPermission (OidStr u) accessLevel st = (Ok p, st') →
  action ∈ toArray accessLevel →
  is_Some (ownerOf st resource id) →
  checkPermission resource action (mkRequest (Some (authOf u)) (OidStr id)) st'
    = (Ok tt, st').
Proof.
  intros Hu Hgrant Hact [owner Hown].
  assert (Hv : validateAccessLevel accessLevel = true).
  { revert Hgrant. unfold grantGlobalPermission, bind, throwIf. simpl.
    by destruct (validateAccessLevel accessLevel). }
  rewrite grantGlobalPermission_unfold in Hgrant by done.
  destruct (direct_grant (userGlobalQuery u) u None None (toArray accessLevel) true
              st st' p) as (Hf & Hfl & _ & _ & Hfind & Hlev & _);
    [| |done|done|].
  { intros x (? & ?)%userGlobalQuery_spec. by apply userGlobalQuery_spec. }
  { intros i. by apply userGlobalQuery_spec. }
  destruct (find_Some_elem_of _ _ _ Hfind) as [Hp (Hpu & Hpg)%userGlobalQuery_spec].
  rewrite (checkPermission_found st' resource action (authOf u) id owner).
  - destruct (decide _); [done|].
    assert (existsb (globalQuery (auth_userId (authOf u)) action) (permissions st') = true)
      as ->; [|done].
    apply existsb_elem_of. exists p. split; [done|]. apply globalQuery_spec.
    split_and!; [done..|]. by rewrite Hlev.
  - by apply (validateAccessLevel_elem accessLevel).
  - apply truthy_oidToString.
  - unfold ownerOf in *. by rewrite Hf, Hfl.
Qed.

Lemma global_grant_opens_every_resource_witness :
  let st' := (grantGlobalPermission (OidStr 9) (Single "delete") store_grants).2 in
  checkPermission RFile "delete" (mkRequest (Some (authOf 9)) (OidStr 3)) st' = (Ok tt, st').
Proof.
  cbv zeta.
  apply (global_grant_opens_every_resource 9 (Single "delete") store_grants _
           (Permission.mk 1000 9 None None ["delete"] true)).
  - refine (bool_decide_unpack _ _). vm_compute. exact I.
  - reflexivity.
  - elem_of_explicit.
  - by eexists.
Defined.

(** X6. Input validation of the two grant methods: an id that is not an
    ObjectId is rejected first, levels outside the vocabulary second, each
    with its own message, and in both cases nothing is written. *)
Theorem grant_rejects_invalid_input (userId targetId : IdString)
  (targetType : ResourceType) (accessLevel : AccessLevelInput) (st : Store) :
  (isValid userId = false →
   grantGlobalPermission userId accessLevel st = (Err (Error InvalidUserID), st)) ∧
  (isValid userId = true → validateAccessLevel accessLevel = false →
   grantGlobalPermission userId accessLevel st = (Err (Error InvalidAccessLevels), st)) ∧
  (isValid userId = false ∨ isValid targetId = false →
   grantSpecificPermission userId targetId targetType accessLevel st
     = (Err (Error InvalidUserOrTargetID), st)) ∧
  (isValid userId = true → isValid targetId = true →
   validateAccessLevel accessLevel = false →
   grantSpecificPermission userId targetId targetType accessLevel st
     = (Err (Error InvalidAccessLevels), st)).
Proof.
  unfold grantGlobalPermission, grantSpecificPermission, bind, throwIf, throw.
  repeat split.
  - by intros ->.
  - by intros -> ->.
  - by intros [-> | ->]; [|rewrite orb_true_r].
  - by intros -> -> ->.
Qed.

Lemma grant_rejects_invalid_input_witness :
  grantSpecificPermission (OidStr 8) (RawStr "docs") RFolder (Single "admin") store_tree
    = (Err (Error InvalidUserOrTargetID), store_tree) ∧
  grantGlobalPermission (OidStr 8) (Many ["read"; "admin"]) store_tree
    = (Err (Error InvalidAccessLevels), store_tree).
Proof.
  destruct (grant_rejects_invalid_input (OidStr 8) (RawStr "docs") RFolder
              (Single "admin") store_tree) as (_ & _ & H & _).
  destruct (grant_rejects_invalid_input (OidStr 8) (RawStr "docs") RFolder
              (Many ["read"; "admin"]) store_tree) as (_ & H' & _).
  split; [apply H; by right|apply H'; reflexivity].
Defined.

Lemma grantSpecificPermission_unfold (u t : ObjectId) (ty : ResourceType)
  (accessLevel : AccessLevelInput) (st : Store) :
  validateAccessLevel accessLevel = true →
  grantSpecificPermission (OidStr u) (OidStr t) ty accessLevel st =
  match
    match find (targetQuery u t ty) (permissions st) with
    | Some existing => Permission_saveAccessLevel existing (toArray accessLevel)
    | None => Permission_create u (Some t) (Some ty) (toArray accessLevel) false
    end st
  with
  | (Ok _, st1) =>
      match
        match ty with
        | RFolder => propagatePermissions (OidStr u) (OidStr t) (toArray accessLevel)
        | RFile => ret tt
        end st1
      with
      | (Ok _, st2) => (Ok (find (targetQuery u t ty) (permissions st2)), st2)
      | (Err e, st2) => (Err e, st2)
      end
  | (Err e, st1) => (Err e, st1)
  end.
Proof.
  intros Hv. unfold grantSpecificPermission, bind, throwIf. simpl. rewrite Hv. simpl.
  unfold Permission_findOne. by destruct (find _ _).
Qed.

Lemma grantSpecificPermission_valid (userId targetId : IdString) (ty : ResourceType)
  (accessLevel : AccessLevelInput) (st st' : Store) (answer : option Permission.doc) :
  grantSpecificPermission userId targetId ty accessLevel st = (Ok answer, st') →
  validateAccessLevel accessLevel = true.
Proof.
  unfold grantSpecificPermission, bind, throwIf.
  destruct (negb (isValid userId) || negb (isValid targetId)); [done|]. simpl.
  by destruct (validateAccessLevel accessLevel).
Qed.

Lemma targetQuery_setAccessLevel (u t : ObjectId) (ty : ResourceType)
  (levels : list string) (x : Permission.doc) :
  targetQuery u t ty x = true → targetQuery u t ty (setAccessLevel levels x) = true.
Proof. intros (? & ? & ?)%targetQuery_spec. by apply targetQuery_spec. Qed.

(** [readsLevels] is kept by each upsert of the same user and levels. *)
Lemma Permission_upsertOne_readsLevels (u t : ObjectId) (ty : ResourceType)
  (levels : list string) (k : ObjectId * ResourceType) (st : Store) :
  readsLevels u levels k st →
  readsLevels u levels k (Permission_upsertOne u t ty levels st).2.
Proof.
  unfold Permission_upsertOne, bind, get, readsLevels.
  destruct k as [t' ty']. intros (p & Hp & Hl). simpl in *.
  destruct (existsb (targetQuery u t ty) (permissions st)) eqn:Hex; simpl.
  - destruct (decide ((t', ty') = (t, ty))) as [[= -> ->]|Hne].
    + rewrite find_update_first_same, Hp.
      * by eexists.
      * intros x (? & ? & ?)%targetQuery_spec. by apply targetQuery_spec.
    + exists p. split; [|done].
      rewrite find_update_first_other; [done|].
      intros x Hx. by apply (targetQuery_disjoint u t' t ty' ty).
  - unfold ObjectId_new, Permission_insert. simpl.
    destruct (existsb (hasId _) _); simpl; [by exists p|].
    exists p. split; [|done]. by apply find_app_Some.
Qed.

Lemma Permission_bulkWrite_readsLevels (u : ObjectId) (levels : list string)
  (k : ObjectId * ResourceType) (items : list (ObjectId * ResourceType)) :
  ∀ st, readsLevels u levels k st →
        readsLevels u levels k (Permission_bulkWrite (OidStr u) items levels st).2.
Proof.
  induction items as [|[t ty] items IH]; intros st Hk; simpl; [done|].
  unfold bind at 1. simpl. unfold bind at 1.
  pose proof (Permission_upsertOne_readsLevels u t ty levels k st Hk) as Hk1.
  destruct (Permission_upsertOne u t ty levels st) as [[[]|e] st1]; simpl in *; [|done].
  by apply IH.
Qed.

Lemma propagatePermissions_readsLevels (u root : ObjectId) (levels : list string)
  (k : ObjectId * ResourceType) (st : Store) :
  readsLevels u levels k st →
  readsLevels u levels k (propagatePermissions (OidStr u) (OidStr root) levels st).2.
Proof.
  intros Hk. unfold propagatePermissions, getAllNestedFoldersAndFiles, bind, get, ret.
  simpl. destruct (nestedItems st root) as [|item items] eqn:Hitems; [done|].
  by apply Permission_bulkWrite_readsLevels.
Qed.

(** What a successful specific grant leaves behind. *)
Lemma grantSpecificPermission_success (u t : ObjectId) (ty : ResourceType)
  (accessLevel : AccessLevelInput) (st st' : Store) (answer : option Permission.doc) :
  uniqueIds st →
  grantSpecificPermission (OidStr u) (OidStr t) ty accessLevel st = (Ok answer, st') →
  folders st' = folders st ∧ files st' = files st ∧ uniqueIds st' ∧
  answer = find (targetQuery u t ty) (permissions st') ∧
  readsLevels u (toArray accessLevel) (t, ty) st' ∧
  (ty = RFolder →
   ∀ item, item ∈ nestedItems st t → readsBack u (toArray accessLevel) item st') ∧
  (ty = RFile →
   ∃ r, answer = Some r ∧
     (∀ p, p ∈ permissions st → targetQuery u t ty p = false → p ∈ permissions st') ∧
     (∀ p, p ∈ permissions st' → p ∈ permissions st ∨ p = r) ∧
     length (permissions st') =
       (if existsb (targetQuery u t ty) (permissions st) then length (permissions st)
        else S (length (permissions st)))).
Proof.
  intros Hu Hgrant.
  pose proof (grantSpecificPermission_valid _ _ _ _ _ _ _ Hgrant) as Hv.
  rewrite grantSpecificPermission_unfold in Hgrant by done.
  set (levels := toArray accessLevel) in *.
  destruct (match find (targetQuery u t ty) (permissions st) with
            | Some existing => Permission_saveAccessLevel existing levels
            | None => Permission_create u (Some t) (Some ty) levels false
            end st) as [[r|e] st1] eqn:Hstep; [|done].
  destruct (direct_grant (targetQuery u t ty) u (Some t) (Some ty) levels false st st1 r)
    as (Hf & Hfl & _ & Hu1 & Hfind & Hlev & Hframe & Horigin & Hlen);
    [by apply targetQuery_setAccessLevel| |done|done|].
  { intros id. by apply targetQuery_spec. }
  destruct ty.
  - simpl in Hgrant. injection Hgrant as <- <-.
    repeat split; try done.
    + by exists r.
    + exists r. by repeat split.
  - destruct (propagatePermissions_spec u t levels st1)
      as (r2 & st2 & Hprop & Hf2 & Hfl2 & _ & _ & _ & _ & _ & Hu2).
    pose proof (propagatePermissions_readsBack u t levels st1) as Hback.
    pose proof (propagatePermissions_readsLevels u t levels (t, RFolder) st1) as Hkeep.
    rewrite Hprop in Hgrant, Hback, Hkeep. simpl in Hback, Hkeep.
    destruct r2 as [[]|e]; [|done]. injection Hgrant as <- <-.
    repeat split; try congruence.
    + by apply Hu2.
    + apply Hkeep. by exists r.
    + intros _ item Hitem. apply Hback; [done|].
      by rewrite (nestedItems_ext st st1).
Qed.



(** X8. A specific grant on a file is local: it creates or rewrites the one
    record of (user, file), so every other record stays, no record other
    than the answered one appears, the collection grows by at most one, and
    folders and files are untouched. *)
Theorem grant_on_file_is_local (u t : ObjectId) (accessLevel : AccessLevelInput)
  (st st' : Store) (answer : option Permission.doc) :
  uniqueIds st →
  grantSpecificPermission (OidStr u) (OidStr t) RFile accessLevel st = (Ok answer, st') →
  folders st' = folders st ∧ files st' = files st ∧
  ∃ r, answer = Some r ∧
    (∀ p, p ∈ permissions st → targetQuery u t RFile p = false → p ∈ permissions st') ∧
    (∀ p, p ∈ permissions st' → p ∈ permissions st ∨ p = r) ∧
    length (permissions st') =
      (if existsb (targetQuery u t RFile) (permissions st) then length (permissions st)
       else S (length (permissions st))).
Proof.
  intros Hu Hgrant.
  destruct (grantSpecificPermission_success u t RFile accessLevel st st' answer Hu Hgrant)
    as (Hf & Hfl & _ & _ & _ & _ & Hfile).
  split; [done|]. split; [done|]. by apply Hfile.
Qed.

Lemma grant_on_file_is_local_witness :
  let st' := (grantSpecificPermission (OidStr 8) (OidStr 3) RFile (Single "read")
                store_grants).2 in
  folders st' = folders store_grants ∧ length (permissions st') = 3.
Proof.
  cbv zeta.
  destruct (grant_on_file_is_local 8 3 (Single "read") store_grants
              (grantSpecificPermission (OidStr 8) (OidStr 3) RFile (Single "read")
                 store_grants).2
              (Some (Permission.mk 51 8 (Some 3%N) (Some RFile) ["read"] false)))
    as (Hf & _ & r & _ & _ & _ & Hlen).
  - refine (bool_decide_unpack _ _). vm_compute. exact I.
  - vm_compute. reflexivity.
  - split; [exact Hf|exact Hlen].
Defined.











(** ** Revocation, continued *)

Lemma delete_first_app_last {A} (q : A → bool) (l : list A) (x : A) :
  existsb q l = false → q x = true → delete_first q (l ++ [x]) = l.
Proof.
  induction l as [|y l IH]; simpl.
  - by intros _ ->.
  - destruct (q y); simpl; [done|]. intros H1 H2. by rewrite IH.
Qed.



(** X12. Granting on a file and revoking the answered record is a round
    trip: when the user had no record for the file, the permission
    collection after the revocation is the collection before the grant. *)
Theorem grant_on_file_then_revoke (u t : ObjectId) (accessLevel : AccessLevelInput)
  (st st' : Store) (p : Permission.doc) :
  find (targetQuery u t RFile) (permissions st) = None →
  grantSpecificPermission (OidStr u) (OidStr t) RFile accessLevel st = (Ok (Some p), st') →
  (revokePermission (OidStr (Permission._id p)) st').1 = Ok tt ∧
  permissions (revokePermission (OidStr (Permission._id p)) st').2 = permissions st ∧
  folders (revokePermission (OidStr (Permission._id p)) st').2 = folders st ∧
  files (revokePermission (OidStr (Permission._id p)) st').2 = files st.
Proof.
  intros Hnone Hgrant.
  pose proof (grantSpecificPermission_valid _ _ _ _ _ _ _ Hgrant) as Hv.
  rewrite grantSpecificPermission_unfold in Hgrant by done. rewrite Hnone in Hgrant.
  unfold Permission_create, bind, ObjectId_new, Permission_insert, ret in Hgrant.
  simpl in Hgrant.
  destruct (existsb (hasId (nextObjectId st)) (permissions st)) eqn:Hid; [done|].
  simpl in Hgrant. rewrite find_app_None in Hgrant by done. simpl in Hgrant.
  assert (targetQuery u t RFile
            (Permission.mk (nextObjectId st) u (Some t) (Some RFile)
               (toArray accessLevel) false) = true) as Hq by by apply targetQuery_spec.
  rewrite Hq in Hgrant. injection Hgrant as <- <-.
  unfold revokePermission, bind, throwIf, modify. simpl.
  repeat split. apply delete_first_app_last; [done|].
  by apply bool_decide_eq_true.
Qed.

Lemma grant_on_file_then_revoke_witness :
  let st' := (grantSpecificPermission (OidStr 5) (OidStr 3) RFile (Single "read")
                store_tree).2 in
  permissions (revokePermission (OidStr 1000) st').2 = permissions store_tree.
Proof.
  cbv zeta.
  refine (proj1 (proj2 (grant_on_file_then_revoke 5 3 (Single "read") store_tree _
           (Permission.mk 1000 5 (Some 3%N) (Some RFile) ["read"] false) _ _))).
  - reflexivity.
  - vm_compute. reflexivity.
Defined.

(** ** The subtree walk, continued *)







(** ** Child links, continued *)

Lemma pull_absent (x : ObjectId) (l : list ObjectId) : x ∉ l → pull x l = l.
Proof.
  unfold pull. induction l as [|y l IH]; [done|]. intros Hx.
  apply not_elem_of_cons in Hx as [Hne Hx].
  rewrite filter_cons_True by done. by rewrite IH.
Qed.

Lemma pull_gone (x : ObjectId) (l : list ObjectId) : x ∉ pull x l.
Proof. unfold pull. intros [Hne _]%list_elem_of_filter. done. Qed.

Lemma pull_app_last (x : ObjectId) (l : list ObjectId) : pull x (l ++ [x]) = pull x l.
Proof.
  unfold pull. rewrite filter_app, filter_cons_False by (intros H; by apply H).
  by rewrite filter_nil, app_nil_r.
Qed.

Lemma set_folders_id (f : gmap ObjectId Folder.doc → gmap ObjectId Folder.doc)
  (st : Store) : f (folders st) = folders st → set_folders f st = st.
Proof. intros H. destruct st. unfold set_folders. simpl in *. by rewrite H. Qed.

(** The two link operations on a stored parent, as runs of [save]. *)
Lemma addChildFolderToFolder_run (parentFolderId childFolderId : IdString)
  (d : Folder.doc) (st : Store) :
  isValid parentFolderId = true → isValid childFolderId = true →
  folders st !! objectIdOf parentFolderId = Some d →
  addChildFolderToFolder parentFolderId childFolderId st =
  if existsb (λ existingId, bool_decide (existingId = objectIdOf childFolderId))
       (Folder.folderIds d)
  then (Ok tt, st)
  else Folder_save (objectIdOf parentFolderId)
         (setFolderIds (Folder.folderIds d ++ [objectIdOf childFolderId]) d) st.
Proof.
  intros Hp Hc Hparent. unfold addChildFolderToFolder, bind, Folder_findById.
  rewrite !ObjectId_from_valid by done. rewrite Hparent.
  by destruct (existsb _ _).
Qed.

Lemma removeChildFolderFromFolder_run (parentFolderId childFolderId : IdString)
  (d : Folder.doc) (st : Store) :
  isValid parentFolderId = true → isValid childFolderId = true →
  folders st !! objectIdOf parentFolderId = Some d →
  removeChildFolderFromFolder parentFolderId childFolderId st =
  Folder_save (objectIdOf parentFolderId)
    (setFolderIds (pull (objectIdOf childFolderId) (Folder.folderIds d)) d) st.
Proof.
  intros Hp Hc Hparent. unfold removeChildFolderFromFolder, bind, Folder_findById.
  rewrite !ObjectId_from_valid by done. rewrite Hparent. done.
Qed.

(** X14. Linking a child folder and unlinking it again, for a stored
    parent and ids in any accepted spelling.  Both operations end in
    [save()], which validates the parent record.  When the parent record
    passes its validators, [removeChildFolderFromFolder] after
    [addChildFolderToFolder] succeeds and leaves the parent with its former
    child list without the child, where every copy of the child is removed;
    the other folders are untouched; and when the child was not listed
    before, the store is back to what it was.  When the parent record does
    not pass them (its stored name is blank, or its key empty), the removal
    fails with a validation error, and so does the addition unless the child
    is listed already; nothing is written. *)
Theorem child_link_round_trip (st : Store) (parentFolderId childFolderId : IdString)
  (d : Folder.doc) :
  isValid parentFolderId = true → isValid childFolderId = true →
  let parent := objectIdOf parentFolderId in
  let child := objectIdOf childFolderId in
  folders st !! parent = Some d →
  let linked := addChildFolderToFolder parentFolderId childFolderId st in
  let outcome := removeChildFolderFromFolder parentFolderId childFolderId linked.2 in
  if Folder_valid d then
    linked.1 = Ok tt ∧
    outcome.1 = Ok tt ∧
    folders outcome.2 !! parent
      = Some (setFolderIds (pull child (Folder.folderIds d)) d) ∧
    (child ∉ pull child (Folder.folderIds d)) ∧
    (∀ i, i ≠ parent → folders outcome.2 !! i = folders st !! i) ∧
    (child ∉ Folder.folderIds d → outcome.2 = st)
  else
    (child ∈ Folder.folderIds d → linked.1 = Ok tt) ∧
    (child ∉ Folder.folderIds d → ∃ path, linked.1 = Err (ValidationError path)) ∧
    (∃ path, outcome.1 = Err (ValidationError path)) ∧
    outcome.2 = st.
Proof.
  intros Hp Hc parent child Hparent. cbv zeta.
  rewrite (addChildFolderToFolder_run _ _ d st Hp Hc Hparent).
  fold parent child.
  destruct (existsb _ (Folder.folderIds d)) eqn:Hlinked.
  - apply alreadyLinked_spec in Hlinked. cbn [fst snd].
    rewrite (removeChildFolderFromFolder_run _ _ d st Hp Hc Hparent). fold parent child.
    pose proof (Folder_save_cases parent
                  (setFolderIds (pull child (Folder.folderIds d)) d) st) as Hsave.
    rewrite Folder_valid_setFolderIds in Hsave.
    destruct (Folder_valid d).
    + rewrite Hsave. cbn [fst snd].
      split; [done|]. split; [done|]. split; [apply lookup_insert_eq|].
      split; [apply pull_gone|].
      split; [intros i Hi; by apply lookup_insert_ne|done].
    + destruct Hsave as [path ->]. cbn [fst snd].
      split; [done|]. split; [done|]. split; [by exists path|done].
  - assert (child ∉ Folder.folderIds d) as Habsent.
    { intros Hin%alreadyLinked_spec. congruence. }
    pose proof (Folder_save_cases parent
                  (setFolderIds (Folder.folderIds d ++ [child]) d) st) as Hadd.
    rewrite Folder_valid_setFolderIds in Hadd.
    destruct (Folder_valid d) eqn:Hvalid.
    + rewrite Hadd. cbn [fst snd].
      rewrite (removeChildFolderFromFolder_run _ _
                 (setFolderIds (Folder.folderIds d ++ [child]) d) _ Hp Hc)
        by apply lookup_insert_eq.
      fold parent child.
      pose proof (Folder_save_cases parent
                    (setFolderIds
                       (pull child
                          (Folder.folderIds (setFolderIds (Folder.folderIds d ++ [child]) d)))
                       (setFolderIds (Folder.folderIds d ++ [child]) d))
                    (set_folders (insert parent
                                    (setFolderIds (Folder.folderIds d ++ [child]) d)) st))
        as Hsave.
      rewrite !Folder_valid_setFolderIds, Hvalid in Hsave. rewrite Hsave.
      cbn [fst snd]. simpl. rewrite insert_insert_eq, pull_app_last.
      split; [done|]. split; [done|]. split; [apply lookup_insert_eq|].
      split; [apply pull_gone|].
      split; [intros i Hi; by apply lookup_insert_ne|].
      intros _. rewrite pull_absent by done.
      destruct st as [fs fl ps tr nx]. unfold set_folders. simpl in *. f_equal.
      rewrite insert_insert_eq. apply insert_id. rewrite Hparent. f_equal. by destruct d.
    + destruct Hadd as [path ->]. cbn [fst snd].
      rewrite (removeChildFolderFromFolder_run _ _ d st Hp Hc Hparent). fold parent child.
      pose proof (Folder_save_cases parent
                    (setFolderIds (pull child (Folder.folderIds d)) d) st) as Hsave.
      rewrite Folder_valid_setFolderIds, Hvalid in Hsave.
      destruct Hsave as [path' ->]. cbn [fst snd].
      split; [done|]. split; [by exists path|]. split; [by exists path'|done].
Qed.

Lemma child_link_round_trip_witness :
  (let linked := addChildFolderToFolder (OidCased 9 0) (OidStr 2) store_tree in
   (removeChildFolderFromFolder (OidCased 9 0) (OidStr 2) linked.2).2 = store_tree) ∧
  (let blank := (updateFolder (OidStr 2) (FolderUpdate.mk (Some " ") None None None None None None) store_tree).2 in
   (∃ path, (addChildFolderToFolder (OidStr 2) (OidStr 9) blank).1
              = Err (ValidationError path)) ∧
   (∃ path, (removeChildFolderFromFolder (OidStr 2) (OidStr 9) blank).1
              = Err (ValidationError path))).
Proof.
  cbv zeta. split.
  - pose proof (child_link_round_trip store_tree (OidCased 9 0) (OidStr 2)
                  (Folder.mk "Other" 7 100 None "100/folders/9/" [] [])
                  eq_refl eq_refl eq_refl) as H.
    destruct H as (_ & _ & _ & _ & _ & H). apply H. apply not_elem_of_nil.
  - pose proof (child_link_round_trip
                  (updateFolder (OidStr 2) (FolderUpdate.mk (Some " ") None None None None None None) store_tree).2
                  (OidStr 2) (OidStr 9)
                  (Folder.mk "" 7 100 (Some 1%N) "100/folders/2/" [3%N] [])
                  eq_refl eq_refl eq_refl) as H.
    destruct H as (_ & Hadd & Hrem & Hst).
    split; [apply Hadd, not_elem_of_nil|].
    cbv zeta in Hrem.
    replace (addChildFolderToFolder (OidStr 2) (OidStr 9)
               (updateFolder (OidStr 2) (FolderUpdate.mk (Some " ") None None None None None None) store_tree).2).2
      with (updateFolder (OidStr 2) (FolderUpdate.mk (Some " ") None None None None None None) store_tree).2 in Hrem by reflexivity.
    exact Hrem.
Defined.

(** X15. Both link operations on folders refuse a parent that is not
    stored: for ids in any accepted spelling, [addChildFolderToFolder] and
    [removeChildFolderFromFolder] fail with the parent-not-found message,
    which carries the parent id as the caller wrote it, and write
    nothing. *)
Theorem child_link_missing_parent (st : Store) (parentFolderId childFolderId : IdString) :
  isValid parentFolderId = true → isValid childFolderId = true →
  folders st !! objectIdOf parentFolderId = None →
  addChildFolderToFolder parentFolderId childFolderId st
    = (Err (Error (ParentFolderNotFound (idText parentFolderId))), st) ∧
  removeChildFolderFromFolder parentFolderId childFolderId st
    = (Err (Error (ParentFolderNotFound (idText parentFolderId))), st).
Proof.
  intros Hp Hc Hnone.
  unfold addChildFolderToFolder, removeChildFolderFromFolder, bind, Folder_findById.
  rewrite !ObjectId_from_valid by done. by rewrite Hnone.
Qed.

Lemma child_link_missing_parent_witness :
  addChildFolderToFolder (OidCased 171 3) (OidStr 2) store_tree
    = (Err (Error (ParentFolderNotFound "0000000000000000000000AB")), store_tree) ∧
  removeChildFolderFromFolder (OidCased 171 3) (OidStr 2) store_tree
    = (Err (Error (ParentFolderNotFound "0000000000000000000000AB")), store_tree).
Proof.
  exact (child_link_missing_parent store_tree (OidCased 171 3) (OidStr 2)
           eq_refl eq_refl eq_refl).
Defined.

(** X16. A rename through [updateFolder]: for a stored folder the answer is
    the record after the update; its name is the given name trimmed and
    sanitized as [createFolder] does it, every other field is as before,
    and so are the other folders.  No sibling is looked at.  For an id that
    names no folder the answer is [null] and nothing changes. *)
Theorem updateFolder_rename (st : Store) (o : ObjectId) (n : string) :
  let folderData := FolderUpdate.mk (Some n) None None None None None None in
  let outcome := updateFolder (OidStr o) folderData st in
  files outcome.2 = files st ∧ permissions outcome.2 = permissions st ∧
  (∀ i, i ≠ o → folders outcome.2 !! i = folders st !! i) ∧
  match folders st !! o with
  | Some d =>
      let d' := Folder.mk (sanitizeFolderName (trim n)) (Folder.userId d)
                  (Folder.businessId d) (Folder.parentFolderId d) (Folder.s3Key d)
                  (Folder.fileIds d) (Folder.folderIds d) in
      outcome.1 = Ok (Some d') ∧ folders outcome.2 !! o = Some d'
  | None => outcome = (Ok None, st)
  end.
Proof.
  cbv zeta. unfold updateFolder, bind, throwIf, Folder_findByIdAndUpdate. simpl.
  split; [done|]. split; [done|].
  split; [intros i Hi; by apply lookup_alter_ne|].
  rewrite lookup_alter_eq.
  destruct (folders st !! o) as [d|] eqn:Ho; simpl.
  - assert (Hname : from_option trim (Folder.folderName d)
                      (if truthy n then Some (sanitizeFolderName (trim n)) else Some n)
                    = sanitizeFolderName (trim n)).
    { destruct n as [|c n]; [done|]. simpl.
      apply trim_no_js_space, no_js_space_sanitizeFolderName. }
    unfold Folder_applyBody, Folder_applyUpdate.
    cbn [FolderBody.fields FolderBody.set_ id
         FolderUpdate.folderName FolderUpdate.userId FolderUpdate.businessId
         FolderUpdate.parentFolderId FolderUpdate.s3Key FolderUpdate.fileIds
         FolderUpdate.folderIds from_option default].
    by rewrite Hname.
  - f_equal. apply set_folders_id. apply alter_id. intros x Hx. congruence.
Qed.

Lemma updateFolder_rename_witness :
  (updateFolder (OidStr 2) (FolderUpdate.mk (Some " 2025 plans ") None None None None None None)
     store_tree).1
  = Ok (Some (Folder.mk "2025_plans" 7 100 (Some 1%N) "100/folders/2/" [3%N] [])).
Proof.
  pose proof (updateFolder_rename store_tree 2 " 2025 plans ") as (_ & _ & _ & H).
  change (folders store_tree !! 2%N)
    with (Some (Folder.mk "2024" 7 100 (Some 1%N) "100/folders/2/" [3%N] [])) in H.
  exact (proj1 H).
Defined.

(** ** Deletion of folders, continued *)

Lemma folders_afterRootFiles (root : ObjectId) (d : Folder.doc) (st : Store) :
  folders (afterRootFiles root d st) = folders st.
Proof. unfold afterRootFiles. by destruct (negb _). Qed.

Lemma files_afterRootFiles (root : ObjectId) (d : Folder.doc) (st : Store) :
  files (afterRootFiles root d st)
  = filter (λ kv, File.folderId kv.2 ≠ Some root) (files st).
Proof. unfold afterRootFiles. by destruct (negb _). Qed.

Lemma permissions_afterRootFiles (root : ObjectId) (d : Folder.doc) (st : Store) :
  permissions (afterRootFiles root d st) = permissions st.
Proof. unfold afterRootFiles. by destruct (negb _). Qed.

Lemma trace_afterRootFiles (root : ObjectId) (d : Folder.doc) (st : Store) :
  ∃ t, trace (afterRootFiles root d st) = trace st ++ t.
Proof.
  unfold afterRootFiles. destruct (negb _); simpl.
  - by eexists.
  - rewrite <- app_assoc. by eexists.
Qed.

Lemma folders_afterUnlink_None (root i : ObjectId) (d : Folder.doc) (st : Store) :
  folders st !! i = None → folders (afterUnlink root d st) !! i = None.
Proof.
  unfold afterUnlink. destruct (Folder.parentFolderId d); [|done]. simpl.
  intros H. by apply lookup_alter_None.
Qed.

Lemma folders_afterUnlink_ne (root i : ObjectId) (d : Folder.doc) (st : Store) :
  Folder.parentFolderId d ≠ Some i →
  folders (afterUnlink root d st) !! i = folders st !! i.
Proof.
  unfold afterUnlink. destruct (Folder.parentFolderId d) as [p|]; [|done]. simpl.
  intros H. apply lookup_alter_ne. congruence.
Qed.

Lemma afterUnlink_rest (root : ObjectId) (d : Folder.doc) (st : Store) :
  files (afterUnlink root d st) = files st ∧
  permissions (afterUnlink root d st) = permissions st ∧
  trace (afterUnlink root d st) = trace st.
Proof. unfold afterUnlink. by destruct (Folder.parentFolderId d). Qed.

(** X17. [deleteFolder] on a folder that exists, whatever the shape of the
    child lists (shared children, dangling ids and cycles included): the
    call succeeds; the folder and every folder reached from it through
    child lists are removed; no file is left that points at one of the
    removed folders; for each removed folder below the root that has a
    prefix, the prefix is deleted from the blob store before the record is;
    permissions are never touched; folders outside the walk (the parent of
    the root apart) and files outside the removed folders are untouched.
    The answer is the record of the root, unless the root is reached from
    itself, in which case the answer is [null]. *)
Theorem deleteFolder_walk (st : Store) (root : ObjectId) (droot : Folder.doc) :
  folders st !! root = Some droot →
  let result := deleteFolder (OidStr root) st in
  (∃ answer, result.1 = Ok answer) ∧
  folders result.2 !! root = None ∧
  (∀ i, listedBelow (folders st) root i → folders result.2 !! i = None) ∧
  (∀ i di, i = root ∨ listedBelow (folders st) root i → folders st !! i = Some di →
     ∀ x dx, files result.2 !! x = Some dx → File.folderId dx ≠ Some i) ∧
  (∀ i di, listedBelow (folders st) root i → folders st !! i = Some di →
     truthy (Folder.s3Key di) = true →
     ∃ t, trace result.2 = trace st ++ t ∧
          before (S3DeletePrefix (Folder.s3Key di)) (FolderDeleted i) t) ∧
  permissions result.2 = permissions st ∧
  (∀ i, i ≠ root → ¬ listedBelow (folders st) root i →
        Folder.parentFolderId droot ≠ Some i →
        folders result.2 !! i = folders st !! i) ∧
  (∀ x dx, files st !! x = Some dx →
     (∀ i, File.folderId dx = Some i → i ≠ root ∧ ¬ listedBelow (folders st) root i) →
     files result.2 !! x = Some dx) ∧
  (¬ listedBelow (folders st) root root → Folder.parentFolderId droot ≠ Some root →
   result.1 = Ok (Some droot)) ∧
  (listedBelow (folders st) root root → result.1 = Ok None).
Proof.
  intros Hroot result. subst result.
  rewrite (deleteFolder_found root droot st Hroot).
  set (stack := reverse (Folder.folderIds droot)).
  set (st0 := afterRootFiles root droot st).
  pose proof (folders_afterRootFiles root droot st) as Hfs0.
  pose proof (files_afterRootFiles root droot st) as Hfl0.
  pose proof (permissions_afterRootFiles root droot st) as Hps0.
  destruct (trace_afterRootFiles root droot st) as [t0 Ht0].
  fold st0 in Hfs0, Hfl0, Hps0, Ht0.
  destruct (deleteSubtree_spec (loopBound stack (folders st0)) stack st0)
    as (st1 & -> & Hps1 & [t1 Ht1] & Hstack & Honly & Hfiles & Hgone & Hframe); [done|].
  destruct (Hframe (listedBelow (folders st) root)) as [Hframe_folders Hframe_files].
  { intros i Hi. unfold stack in Hi. rewrite elem_of_reverse in Hi.
    by apply (listed_child _ _ _ droot). }
  { intros i d c Hi Hd Hc. rewrite Hfs0 in Hd. by apply (listed_deeper _ _ _ i d). }
  destruct (afterUnlink_rest root droot st1) as (Hfl2 & Hps2 & Htr2).
  assert (Hbelow : ∀ i, listedBelow (folders st) root i → folders st1 !! i = None).
  { intros i Hi. induction Hi as [c doc Hdoc Hc|c i doc Hi IH Hdoc Hc].
    - apply Hstack. unfold stack. rewrite elem_of_reverse.
      rewrite Hroot in Hdoc. by injection Hdoc as <-.
    - destruct (Hgone i doc) as (Hchildren & _); [by rewrite Hfs0|done|].
      by apply Hchildren. }
  cbn [fst snd log set_folders folders files permissions trace].
  split; [by eexists|].
  split; [apply lookup_delete_eq|].
  split.
  { intros i Hi. destruct (decide (i = root)) as [->|Hne]; [apply lookup_delete_eq|].
    rewrite lookup_delete_ne by done. apply folders_afterUnlink_None. by apply Hbelow. }
  split.
  { intros i di Hi Hdi x dx. rewrite Hfl2. intros Hx.
    destruct Hi as [->|Hi].
    - destruct (Hfiles x) as [Hnone|Hsame]; [congruence|].
      rewrite Hx, Hfl0 in Hsame. symmetry in Hsame.
      by apply map_lookup_filter_Some in Hsame as [_ ?].
    - destruct (Hgone i di) as (_ & Hnofile & _); [by rewrite Hfs0|by apply Hbelow|].
      by apply (Hnofile x dx). }
  split.
  { intros i di Hi Hdi Hkey.
    destruct (Hgone i di) as (_ & _ & Htrace); [by rewrite Hfs0|by apply Hbelow|].
    destruct (Htrace Hkey) as (t & Ht & Hbefore).
    exists (t0 ++ t ++ [FolderDeleted root]). split.
    - rewrite Htr2, Ht, Ht0. by rewrite <- !app_assoc.
    - by apply before_app_l, before_app_r. }
  split; [congruence|].
  split.
  { intros i Hne Hout Hparent. rewrite lookup_delete_ne by done.
    rewrite folders_afterUnlink_ne by done. rewrite Hframe_folders by done.
    by rewrite Hfs0. }
  split.
  { intros x dx Hx Hout. rewrite Hfl2. apply Hframe_files.
    - rewrite Hfl0. apply map_lookup_filter_Some. split; [done|]. simpl.
      intros Hi. by destruct (Hout root Hi).
    - intros i Hi. by destruct (Hout i Hi). }
  split.
  - intros Hout Hparent. rewrite folders_afterUnlink_ne by done.
    rewrite Hframe_folders by done. by rewrite Hfs0, Hroot.
  - intros Hin. by rewrite folders_afterUnlink_None by by apply Hbelow.
Qed.

Lemma deleteFolder_walk_witness :
  let result := deleteFolder (OidStr 1) store_cycle in
  result.1 = Ok None ∧ folders result.2 !! 2%N = None ∧
  folders result.2 !! 5%N = folders store_cycle !! 5%N.
Proof.
  cbv zeta.
  assert (H12 : listedBelow (folders store_cycle) 1 2).
  { apply (listed_child _ _ _
             (Folder.mk "a" 7 100 (Some 2%N) "100/folders/1/" [] [2%N]));
      [reflexivity|elem_of_explicit]. }
  assert (H11 : listedBelow (folders store_cycle) 1 1).
  { apply (listed_deeper _ _ _ 2%N
             (Folder.mk "b" 7 100 (Some 1%N) "100/folders/2/" [] [1%N]));
      [exact H12|reflexivity|elem_of_explicit]. }
  destruct (deleteFolder_walk store_cycle 1
              (Folder.mk "a" 7 100 (Some 2%N) "100/folders/1/" [] [2%N]))
    as (_ & _ & Hbelow & _ & _ & _ & Hframe & _ & _ & Hnull); [reflexivity|].
  split; [by apply Hnull|]. split; [by apply Hbelow|].
  vm_compute. reflexivity.
Defined.



(** ** Creation of folders, continued *)

Lemma given_OidStr (parent : option ObjectId) :
  given (OidStr <$> parent) = OidStr <$> parent.
Proof. by destruct parent. Qed.

(** [createFolder_cases] for ids in the canonical spelling. *)
Lemma createFolder_cases_oid (folderName : string) (u b : ObjectId)
  (parent : option ObjectId) (st : Store) :
  truthy folderName = true →
  let normalizedName := sanitizeFolderName (trim folderName) in
  let id := nextObjectId st in
  let st0 := afterNewId st in
  let doc := Folder.mk normalizedName u b parent
               (folderPrefix (oidToString b) (oidToString id)) [] [] in
  let st1 := set_folders (insert id doc) st0 in
  createFolder folderName (OidStr u) (OidStr b) (OidStr <$> parent) st =
  match find (siblingQuery b parent normalizedName) (map_to_list (folders st)).*2 with
  | Some _ => (Err (Error (FolderAlreadyExists normalizedName)), st0)
  | None =>
      if negb (truthy normalizedName) then (Err (ValidationError "folderName"), st0)
      else
        match folders st !! id with
        | Some _ => (Err (DuplicateKey "_id"), st0)
        | None =>
            match parent with
            | None => (Ok (id, doc), st1)
            | Some p =>
                match folders st1 !! p with
                | None => (Err (Error (ParentFolderNotFound (oidToString p))), st1)
                | Some pd =>
                    if existsb (λ existingId, bool_decide (existingId = id))
                         (Folder.folderIds pd)
                    then (Ok (id, doc), st1)
                    else
                      match Folder_save p
                              (setFolderIds (Folder.folderIds pd ++ [id]) pd) st1 with
                      | (Ok _, st2) =>
                          (Ok (id, if decide (p = id) then setFolderIds [id] doc else doc),
                           st2)
                      | (Err e, st2) => (Err e, st2)
                      end
                end
            end
        end
  end.
Proof.
  intros Hname. cbv zeta.
  rewrite (createFolder_cases folderName (OidStr u) (OidStr b) (OidStr <$> parent) st
             Hname eq_refl eq_refl).
  - cbv zeta. rewrite given_OidStr. by destruct parent.
  - intros s. rewrite given_OidStr. destruct parent; [by intros [= <-]|done].
Qed.

Lemma createFolder_truthy (folderName : string) (userId businessId : IdString)
  (parentFolderId : option IdString) (st st' : Store) (r : ObjectId * Folder.doc) :
  createFolder folderName userId businessId parentFolderId st = (Ok r, st') →
  truthy folderName = true.
Proof.
  unfold createFolder, bind, throwIf. destruct (truthy folderName); [done|]. done.
Qed.

(** What a successful [createFolder] leaves behind. *)
Lemma createFolder_success (folderName : string) (u b : ObjectId)
  (parent : option ObjectId) (st st' : Store) (id : ObjectId) (created : Folder.doc) :
  createFolder folderName (OidStr u) (OidStr b) (OidStr <$> parent) st
    = (Ok (id, created), st') →
  id = nextObjectId st ∧ folders st !! id = None ∧
  find (siblingQuery b parent (sanitizeFolderName (trim folderName)))
    (map_to_list (folders st)).*2 = None ∧
  truthy (sanitizeFolderName (trim folderName)) = true ∧
  folders st' !! id = Some created ∧
  Folder.folderName created = sanitizeFolderName (trim folderName) ∧
  Folder.userId created = u ∧ Folder.businessId created = b ∧
  Folder.parentFolderId created = parent ∧
  Folder.s3Key created = folderPrefix (oidToString b) (oidToString id) ∧
  Folder.fileIds created = [] ∧
  (parent ≠ Some id → Folder.folderIds created = []) ∧
  files st' = files st ∧ permissions st' = permissions st ∧ trace st' = trace st ∧
  nextObjectId st' = N.succ (nextObjectId st) ∧
  (∀ i, i ≠ id →
     folders st' !! i = folders st !! i ∨
     parent = Some i ∧
     ∃ pd, folders st !! i = Some pd ∧
           folders st' !! i = Some (setFolderIds (Folder.folderIds pd ++ [id]) pd)).
Proof.
  intros Hcreate.
  pose proof (createFolder_truthy _ _ _ _ _ _ _ Hcreate) as Hname.
  rewrite createFolder_cases_oid in Hcreate by done. cbv zeta in Hcreate.
  destruct (find _ _) as [sibling|] eqn:Hsibling; [done|].
  destruct (truthy (sanitizeFolderName (trim folderName))) eqn:Hnorm; [|done].
  cbn [negb] in Hcreate.
  destruct (folders st !! nextObjectId st) as [taken|] eqn:Hfresh; [done|].
  destruct parent as [p|].
  - set (doc := Folder.mk _ _ _ _ _ _ _) in Hcreate.
    destruct (folders (set_folders (insert (nextObjectId st) doc) (afterNewId st)) !! p)
      as [pd|] eqn:Hp; [|done].
    cbn [set_folders afterNewId folders] in Hp.
    destruct (existsb _ _) eqn:Hlinked.
    + injection Hcreate as <- <- <-. cbn [set_folders afterNewId folders files permissions
                                          trace nextObjectId].
      assert (Hne : p ≠ nextObjectId st).
      { intros ->. rewrite lookup_insert_eq in Hp. by injection Hp as <-. }
      rewrite lookup_insert_eq. split_and!; try done.
      intros i Hi. left. by apply lookup_insert_ne.
    + pose proof (Folder_save_cases p
                    (setFolderIds (Folder.folderIds pd ++ [nextObjectId st]) pd)
                    (set_folders (insert (nextObjectId st) doc) (afterNewId st)))
        as Hsave.
      destruct (Folder_valid _); [|destruct Hsave as [path Hsave]; by rewrite Hsave in Hcreate].
      rewrite Hsave in Hcreate.
      injection Hcreate as <- <- <-. cbn [set_folders afterNewId folders files permissions
                                          trace nextObjectId].
      destruct (decide (p = nextObjectId st)) as [->|Hne].
      * rewrite lookup_insert_eq in Hp. injection Hp as <-.
        rewrite lookup_insert_eq. split_and!; try done.
        intros i Hi. left. by rewrite !lookup_insert_ne by done.
      * rewrite lookup_insert_ne in Hp by done.
        rewrite lookup_insert_ne, lookup_insert_eq by done. split_and!; try done.
        intros i Hi. destruct (decide (i = p)) as [->|Hip].
        -- right. split; [done|]. exists pd. split; [done|]. apply lookup_insert_eq.
        -- left. by rewrite !lookup_insert_ne by done.
  - injection Hcreate as <- <- <-. cbn [set_folders afterNewId folders files permissions
                                        trace nextObjectId].
    rewrite lookup_insert_eq. split_and!; try done.
    intros i Hi. left. by apply lookup_insert_ne.
Qed.

Lemma find_unique {A} (q : A → bool) (l : list A) (x : A) :
  x ∈ l → q x = true → (∀ y, y ∈ l → q y = true → y = x) → find q l = Some x.
Proof.
  intros Hx Hq Huniq. destruct (find_elem_of_Some q l x Hx Hq) as [y Hy].
  rewrite Hy. f_equal. apply find_Some_elem_of in Hy as [? ?]. by apply Huniq.
Qed.

Lemma siblingQuery_spec (b : ObjectId) (parent : option ObjectId) (name : string)
  (d : Folder.doc) :
  siblingQuery b parent name d = true ↔
  Folder.businessId d = b ∧ Folder.parentFolderId d = parent ∧ Folder.folderName d = name.
Proof.
  unfold siblingQuery. rewrite !andb_true_iff, !bool_decide_eq_true. tauto.
Qed.

Lemma siblingQuery_setFolderIds (b : ObjectId) (parent : option ObjectId) (name : string)
  (ids : list ObjectId) (d : Folder.doc) :
  siblingQuery b parent name (setFolderIds ids d) = siblingQuery b parent name d.
Proof. done. Qed.

(** After a successful [createFolder] the sibling query of the new folder
    finds the new folder and nothing else. *)
Lemma createFolder_findOne (folderName : string) (u b : ObjectId)
  (parent : option ObjectId) (st st' : Store) (id : ObjectId) (created : Folder.doc) :
  createFolder folderName (OidStr u) (OidStr b) (OidStr <$> parent) st
    = (Ok (id, created), st') →
  find (siblingQuery b parent (sanitizeFolderName (trim folderName)))
    (map_to_list (folders st')).*2 = Some created.
Proof.
  intros Hcreate.
  destruct (createFolder_success _ _ _ _ _ _ _ _ Hcreate)
    as (-> & Hfresh & Hnone & _ & Hid & Hname & _ & Hb & Hparent & _ & _ & _ & _ & _ & _ & _
        & Hrest).
  apply find_unique.
  - apply elem_of_folder_docs. by exists (nextObjectId st).
  - by apply siblingQuery_spec.
  - intros d (i & Hi)%elem_of_folder_docs Hq.
    destruct (decide (i = nextObjectId st)) as [->|Hne]; [congruence|].
    exfalso.
    assert (Hold : ∀ d0, folders st !! i = Some d0 →
              siblingQuery b parent (sanitizeFolderName (trim folderName)) d0 = false).
    { intros d0 Hd0. apply find_None_existsb in Hnone.
      rewrite existsb_false_elem_of in Hnone. apply Hnone.
      apply elem_of_folder_docs. by exists i. }
    destruct (Hrest i Hne) as [Hsame|(_ & pd & Hpd & Hnew)].
    + rewrite Hsame in Hi. rewrite (Hold d Hi) in Hq. done.
    + rewrite Hnew in Hi. injection Hi as <-.
      rewrite siblingQuery_setFolderIds, (Hold pd Hpd) in Hq. done.
Qed.

(** X19. Round trip of [createFolder] and [getFolderByName]: after a
    successful creation, the lookup by workspace, parent and the sanitized
    name returns the folder that was created; the stored name is the
    sanitized one, so it is under that name that the folder is found. *)
Theorem createFolder_then_getFolderByName (folderName : string) (u b : ObjectId)
  (parent : option ObjectId) (st st' : Store) (id : ObjectId) (created : Folder.doc) :
  createFolder folderName (OidStr u) (OidStr b) (OidStr <$> parent) st
    = (Ok (id, created), st') →
  Folder.folderName created = sanitizeFolderName (trim folderName) ∧
  getFolderByName (OidStr b) (sanitizeFolderName (trim folderName)) (OidStr <$> parent) st'
    = (Ok (Some created), st').
Proof.
  intros Hcreate.
  destruct (createFolder_success _ _ _ _ _ _ _ _ Hcreate)
    as (_ & _ & _ & _ & _ & Hname & _).
  split; [done|].
  unfold getFolderByName, bind, ObjectId_orNull, Folder_findOne, ret.
  rewrite given_OidStr. simpl.
  rewrite (trim_no_js_space (sanitizeFolderName (trim folderName)))
    by apply no_js_space_sanitizeFolderName.
  rewrite <- (createFolder_findOne _ _ _ _ _ _ _ _ Hcreate).
  by destruct parent.
Qed.

Lemma createFolder_then_getFolderByName_witness :
  let st' := (createFolder " Q2 report" (OidStr 8) (OidStr 100) None store_sibling).2 in
  getFolderByName (OidStr 100) "Q2_report" None st'
  = (Ok (Some (Folder.mk "Q2_report" 8 100 None
                 "000000000000000000000064/folders/0000000000000000000003e8/" [] [])), st').
Proof.
  cbv zeta.
  refine (proj2 (createFolder_then_getFolderByName " Q2 report" 8 100 None store_sibling
                   _ 1000 _ _)).
  vm_compute. reflexivity.
Defined.

(** X20. Creating the same name twice: after a successful [createFolder],
    a second call in the same workspace and under the same parent, by any
    user and with any name that sanitizes to the same name, fails with the
    already-exists message and stores no folder. *)
Theorem createFolder_twice_conflicts (folderName folderName' : string) (u u' b : ObjectId)
  (parent : option ObjectId) (st st' : Store) (id : ObjectId) (created : Folder.doc) :
  createFolder folderName (OidStr u) (OidStr b) (OidStr <$> parent) st
    = (Ok (id, created), st') →
  truthy folderName' = true →
  sanitizeFolderName (trim folderName') = sanitizeFolderName (trim folderName) →
  let second := createFolder folderName' (OidStr u') (OidStr b) (OidStr <$> parent) st' in
  second.1 = Err (Error (FolderAlreadyExists (sanitizeFolderName (trim folderName)))) ∧
  folders second.2 = folders st' ∧ files second.2 = files st' ∧
  permissions second.2 = permissions st'.
Proof.
  intros Hcreate Hname' Hsame. cbv zeta.
  rewrite createFolder_cases_oid by done. cbv zeta. rewrite Hsame.
  by rewrite (createFolder_findOne _ _ _ _ _ _ _ _ Hcreate).
Qed.

Lemma createFolder_twice_conflicts_witness :
  let st' := (createFolder "Q2 report" (OidStr 8) (OidStr 100) (Some (OidStr 10))
                store_sibling).2 in
  (createFolder "Q2/report" (OidStr 9) (OidStr 100) (Some (OidStr 10)) st').1
  = Err (Error (FolderAlreadyExists "Q2_report")).
Proof.
  cbv zeta.
  refine (proj1 (createFolder_twice_conflicts "Q2 report" "Q2/report" 8 9 100 (Some 10%N)
                   store_sibling _ 1000 _ _ _ _)).
  - vm_compute. reflexivity.
  - reflexivity.
  - vm_compute. reflexivity.
Defined.

(** Either an input check of [createFolder] fails, and nothing is written,
    or the name is there and the ids are valid. *)
Lemma createFolder_checks (folderName : string) (userId businessId : IdString)
  (parentFolderId : option IdString) (st : Store) :
  (∃ m, createFolder folderName userId businessId parentFolderId st = (Err (Error m), st) ∧
        m ∈ [RequiredFields; InvalidUserId; InvalidBusinessId; InvalidParentFolderId]) ∨
  (truthy folderName = true ∧ isValid userId = true ∧ isValid businessId = true ∧
   ∀ s, given parentFolderId = Some s → isValid s = true).
Proof.
  destruct (truthy folderName) eqn:Hname;
    [|left; exists RequiredFields; split; [|elem_of_explicit];
      unfold createFolder, bind, throwIf; by rewrite Hname].
  destruct (truthyId userId) eqn:Hu;
    [|left; exists RequiredFields; split; [|elem_of_explicit];
      unfold createFolder, bind, throwIf; by rewrite Hname, Hu].
  destruct (truthyId businessId) eqn:Hb;
    [|left; exists RequiredFields; split; [|elem_of_explicit];
      unfold createFolder, bind, throwIf; by rewrite Hname, Hu, Hb].
  destruct (isValid userId) eqn:Hvu;
    [|left; exists InvalidUserId; split; [|elem_of_explicit];
      unfold createFolder, bind, throwIf; by rewrite Hname, Hu, Hb, Hvu].
  destruct (isValid businessId) eqn:Hvb;
    [|left; exists InvalidBusinessId; split; [|elem_of_explicit];
      unfold createFolder, bind, throwIf; by rewrite Hname, Hu, Hb, Hvu, Hvb].
  destruct (given parentFolderId) as [p|] eqn:Hgiven; [|by right].
  destruct (isValid p) eqn:Hvp.
  - right. split_and!; try done. by intros s [= <-].
  - left. exists InvalidParentFolderId. split; [|elem_of_explicit].
    unfold createFolder, bind, throwIf. by rewrite Hname, Hu, Hb, Hvu, Hvb, Hgiven, Hvp.
Qed.

(** X21. The failures of [createFolder]: a missing name, user or workspace
    is answered with the required-fields message and nothing at all
    changes; the message "Folder creation failed." is never produced; and
    whatever the failure is, no file or permission has been written and
    nothing was asked of the blob store.  The folders are as they were,
    too, unless the failure comes from the step that links the new folder
    to its parent, that is, the parent is not found or the parent record is
    refused by its validators when it is saved: then the new folder has
    been stored under the generated id, and that is the only change.  In
    particular a failed creation without a parent writes no folder. *)
Theorem createFolder_failure_modes (folderName : string) (userId businessId : IdString)
  (parentFolderId : option IdString) (st : Store) :
  let result := createFolder folderName userId businessId parentFolderId st in
  (truthy folderName = false ∨ truthyId userId = false ∨ truthyId businessId = false →
   result = (Err (Error RequiredFields), st)) ∧
  result.1 ≠ Err (Error FolderCreationFailed) ∧
  (∀ e, result.1 = Err e →
        files result.2 = files st ∧ permissions result.2 = permissions st ∧
        trace result.2 = trace st ∧
        (folders result.2 = folders st ∨
         ∃ s created,
           given parentFolderId = Some s ∧ isValid s = true ∧
           folders st !! nextObjectId st = None ∧
           folders result.2 = <[nextObjectId st := created]> (folders st) ∧
           Folder.parentFolderId created = Some (objectIdOf s) ∧
           (e = Error (ParentFolderNotFound (idText s)) ∧
            folders st !! objectIdOf s = None ∨
            ∃ parent path,
              e = ValidationError path ∧ folders st !! objectIdOf s = Some parent ∧
              Folder_valid parent = false)) ∧
        ((∀ p, e ≠ Error (ParentFolderNotFound p)) → (∀ path, e ≠ ValidationError path) →
         folders result.2 = folders st) ∧
        (given parentFolderId = None → folders result.2 = folders st)).
Proof.
  cbv zeta. split.
  { unfold createFolder, bind, throwIf.
    intros [-> | [-> | ->]]; [done| |]; by rewrite ?orb_true_r. }
  destruct (createFolder_checks folderName userId businessId parentFolderId st)
    as [(m & -> & Hm)|(Hname & Hu & Hb & Hp)].
  { split; [|intros e _; split_and!; try done; by left]. simpl. intros [= ->].
    repeat (apply elem_of_cons in Hm as [Hm|Hm]; [discriminate|]).
    by apply elem_of_nil in Hm. }
  rewrite createFolder_cases by done. cbv zeta.
  destruct (find _ _) as [sibling|];
    [split; [done|intros e _; split_and!; try done; by left]|].
  destruct (truthy (sanitizeFolderName (trim folderName))) eqn:Hnorm; cbn [negb];
    [|split; [done|intros e _; split_and!; try done; by left]].
  destruct (folders st !! nextObjectId st) as [taken|] eqn:Hfresh;
    [split; [done|intros e _; split_and!; try done; by left]|].
  destruct (given parentFolderId) as [s|] eqn:Hgiven; [|by split].
  cbn [fmap option_fmap option_map].
  set (doc := Folder.mk _ _ _ _ _ _ _).
  set (st1 := set_folders (insert (nextObjectId st) doc) (afterNewId st)).
  destruct (folders st1 !! objectIdOf s) as [pd|] eqn:Hpd.
  - destruct (existsb _ _); [by split|].
    pose proof (Folder_save_cases (objectIdOf s)
                  (setFolderIds (Folder.folderIds pd ++ [nextObjectId st]) pd) st1)
      as Hsave.
    rewrite Folder_valid_setFolderIds in Hsave.
    destruct (Folder_valid pd) eqn:Hvalid; [by rewrite Hsave|].
    destruct Hsave as [path ->]. split; [done|]. cbn [fst snd].
    intros e [= <-].
    assert (Hne : objectIdOf s ≠ nextObjectId st).
    { intros Heq. subst st1. cbn [set_folders afterNewId folders] in Hpd.
      rewrite Heq, lookup_insert_eq in Hpd. injection Hpd as <-.
      unfold Folder_valid, doc in Hvalid.
      cbn [Folder.folderName Folder.s3Key] in Hvalid.
      rewrite trim_no_js_space in Hvalid by apply no_js_space_sanitizeFolderName.
      rewrite Hnorm in Hvalid. unfold folderPrefix in Hvalid.
      rewrite truthy_app in Hvalid; [done|]. by apply truthy_idText. }
    subst st1. cbn [set_folders afterNewId folders] in Hpd.
    rewrite lookup_insert_ne in Hpd by done.
    split_and!; try done.
    + right. exists s, doc. split_and!; try done; [by apply Hp|].
      right. by exists pd, path.
    + intros _ Hnot. by destruct (Hnot path).
  - split; [done|]. cbn [fst snd]. intros e [= <-].
    assert (Hne : objectIdOf s ≠ nextObjectId st).
    { intros Heq. subst st1. cbn [set_folders afterNewId folders] in Hpd.
      by rewrite Heq, lookup_insert_eq in Hpd. }
    subst st1. cbn [set_folders afterNewId folders] in Hpd.
    rewrite lookup_insert_ne in Hpd by done.
    split_and!; try done.
    + right. exists s, doc. split_and!; try done; [by apply Hp|]. by left.
    + intros Hnot _. by destruct (Hnot (idText s)).
Qed.

Lemma createFolder_failure_modes_witness :
  (createFolder "   " (OidStr 7) (OidStr 100) None store_tree
     = (Err (ValidationError "folderName"), afterNewId store_tree) ∧
   folders (createFolder "   " (OidStr 7) (OidStr 100) None store_tree).2
     = folders store_tree) ∧
  (let blank :=
     (updateFolder (OidStr 9) (FolderUpdate.mk (Some " ") None None None None None None)
        store_tree).2 in
   let result := createFolder "Drafts" (OidStr 7) (OidStr 100) (Some (OidStr 9)) blank in
   result.1 = Err (ValidationError "folderName") ∧
   ∃ created, folders result.2 = <[1000%N := created]> (folders blank)).
Proof.
  split.
  - split; [vm_compute; reflexivity|].
    destruct (createFolder_failure_modes "   " (OidStr 7) (OidStr 100) None store_tree)
      as (_ & _ & H).
    destruct (H (ValidationError "folderName")) as (_ & _ & _ & _ & _ & Hf);
      [reflexivity|]. by apply Hf.
  - cbv zeta.
    assert (Hresult :
      (createFolder "Drafts" (OidStr 7) (OidStr 100) (Some (OidStr 9))
         (updateFolder (OidStr 9)
            (FolderUpdate.mk (Some " ") None None None None None None) store_tree).2).1
      = Err (ValidationError "folderName")) by (vm_compute; reflexivity).
    split; [exact Hresult|].
    destruct (createFolder_failure_modes "Drafts" (OidStr 7) (OidStr 100)
                (Some (OidStr 9))
                (updateFolder (OidStr 9)
                   (FolderUpdate.mk (Some " ") None None None None None None)
                   store_tree).2) as (_ & _ & H).
    destruct (H _ Hresult) as (_ & _ & _ & [Hsame|Hnew] & _).
    + apply (f_equal (λ m, m !! 1000%N)) in Hsame. vm_compute in Hsame. discriminate.
    + destruct Hnew as (s & created & _ & _ & _ & Hfolders & _).
      exists created. exact Hfolders.
Defined.

(** X22. [createFolder] at the top level of a workspace, for ids in any
    accepted spelling: when the name is not blank after sanitizing, no
    top-level folder of the workspace has the sanitized name and the
    generated id is free, the call succeeds; the new folder carries the
    sanitized name, the caller as owner, no parent, the prefix
    [<workspace>/folders/<id>/] as storage key, where the workspace id is
    spelled as the caller wrote it and the new id in lower case, and empty
    child lists; it is stored under the generated id and nothing else
    changes. *)
Theorem createFolder_at_root (folderName : string) (userId businessId : IdString)
  (st : Store) :
  isValid userId = true → isValid businessId = true →
  truthy folderName = true →
  truthy (sanitizeFolderName (trim folderName)) = true →
  find (siblingQuery (objectIdOf businessId) None (sanitizeFolderName (trim folderName)))
    (map_to_list (folders st)).*2 = None →
  folders st !! nextObjectId st = None →
  let id := nextObjectId st in
  let doc := Folder.mk (sanitizeFolderName (trim folderName)) (objectIdOf userId)
               (objectIdOf businessId) None
               (idText businessId +:+ "/folders/" +:+ oidToString id +:+ "/") [] [] in
  let result := createFolder folderName userId businessId None st in
  result.1 = Ok (id, doc) ∧
  folders result.2 = <[id := doc]> (folders st) ∧
  files result.2 = files st ∧ permissions result.2 = permissions st ∧
  trace result.2 = trace st.
Proof.
  intros Hu Hb Hname Hnorm Hnone Hfresh. cbv zeta.
  pose proof (createFolder_cases folderName userId businessId None st Hname Hu Hb)
    as Hcases.
  cbv zeta in Hcases. cbn [given fmap option_fmap option_map] in Hcases.
  rewrite Hcases by done. by rewrite Hnone, Hnorm, Hfresh.
Qed.

Lemma createFolder_at_root_witness :
  (createFolder "Drafts: v2" (OidStr 7) (OidCased 171 3) None store_tree).1
  = Ok (1000%N, Folder.mk "Drafts__v2" 7 171 None
                  "0000000000000000000000AB/folders/0000000000000000000003e8/" [] []).
Proof.
  refine (proj1 (createFolder_at_root "Drafts: v2" (OidStr 7) (OidCased 171 3) store_tree
                   _ _ _ _ _ _));
    vm_compute; reflexivity.
Defined.

(** ** Files *)

Lemma no_js_space_sanitizeFilename (s : string) : no_js_space (sanitizeFilename s) = true.
Proof. apply no_js_space_slice0, no_js_space_replace_unsafe. Qed.

Lemma truthy_trim (s : string) : truthy (trim s) = true → truthy s = true.
Proof. by destruct s. Qed.

(** The run of [deleteFile] on a stored file. *)
Lemma deleteFile_run (st : Store) (x : ObjectId) (dx : File.doc) :
  files st !! x = Some dx →
  deleteFile (OidStr x) st =
    (Ok (Some dx),
     log (FileDeleted x)
       (set_files (delete x)
          ((if truthy (File.s3Key dx) then log (S3DeleteObject (File.s3Key dx)) else id)
             (match File.folderId dx with
              | Some f =>
                  set_folders
                    (alter (λ d, setFileIds (pull x (Folder.fileIds d)) d) f) st
              | None => st
              end)))).
Proof.
  intros Hx.
  unfold deleteFile, File_findByIdAndDelete, Folder_findByIdAndUpdate, S3_deleteObject,
    bind, throwIf, File_findById, modify, ret. simpl. rewrite Hx.
  destruct (File.folderId dx) as [f|]; destruct (truthy (File.s3Key dx)) eqn:Hkey;
    simpl; by rewrite ?Hx.
Qed.

(** X23. [deleteFile] on a stored file: the answer is the record; the record
    is removed and the other files stay; the folder the file points at no
    longer lists it, and no other folder changes; the object is deleted from
    the blob store before the record is; permissions are untouched.  A
    second [deleteFile] of the same id fails with the not-found message and
    writes nothing. *)
Theorem deleteFile_effects (st : Store) (x : ObjectId) (dx : File.doc) :
  files st !! x = Some dx →
  let result := deleteFile (OidStr x) st in
  result.1 = Ok (Some dx) ∧
  files result.2 = delete x (files st) ∧
  permissions result.2 = permissions st ∧
  folders result.2 =
    match File.folderId dx with
    | Some f => alter (λ d, setFileIds (pull x (Folder.fileIds d)) d) f (folders st)
    | None => folders st
    end ∧
  (∀ f d, File.folderId dx = Some f → folders result.2 !! f = Some d →
          x ∉ Folder.fileIds d) ∧
  trace result.2 =
    trace st ++ (if truthy (File.s3Key dx) then [S3DeleteObject (File.s3Key dx)] else [])
      ++ [FileDeleted x] ∧
  deleteFile (OidStr x) result.2 = (Err (Error FileNotFoundForDeletion), result.2).
Proof.
  intros Hx. cbv zeta.
  rewrite (deleteFile_run st x dx Hx). cbn [fst snd].
  split; [done|].
  split; [by destruct (File.folderId dx), (truthy (File.s3Key dx))|].
  split; [by destruct (File.folderId dx), (truthy (File.s3Key dx))|].
  assert (Hfolders : ∀ st0 : Store,
            folders (log (FileDeleted x)
              (set_files (delete x)
                ((if truthy (File.s3Key dx) then log (S3DeleteObject (File.s3Key dx))
                  else id) st0))) = folders st0)
    by (intros st0; by destruct (truthy (File.s3Key dx))).
  split; [rewrite Hfolders; by destruct (File.folderId dx)|].
  split.
  { intros f d -> Hd. rewrite Hfolders in Hd. cbn [set_folders folders] in Hd.
    rewrite lookup_alter_eq in Hd. destruct (folders st !! f) as [d0|]; [|done].
    injection Hd as <-. apply pull_gone. }
  split.
  { destruct (File.folderId dx), (truthy (File.s3Key dx)); simpl;
      by rewrite <- ?app_assoc. }
  assert (Hmissing : ∀ st0, files st0 !! x = None →
            deleteFile (OidStr x) st0 = (Err (Error FileNotFoundForDeletion), st0)).
  { intros st0 Hnone. unfold deleteFile, bind, throwIf, File_findById. simpl.
    by rewrite Hnone. }
  apply Hmissing.
  destruct (File.folderId dx), (truthy (File.s3Key dx)); apply lookup_delete_eq.
Qed.

Lemma deleteFile_effects_witness :
  let result := deleteFile (OidStr 3) store_tree in
  trace result.2 = [S3DeleteObject "100/folders/2/files/3-q1.pdf"; FileDeleted 3] ∧
  deleteFile (OidStr 3) result.2 = (Err (Error FileNotFoundForDeletion), result.2).
Proof.
  cbv zeta.
  destruct (deleteFile_effects store_tree 3
              (File.mk 7 100 (Some 2%N) "q1.pdf" 10000 None "100/folders/2/files/3-q1.pdf"))
    as (_ & _ & _ & _ & _ & Htrace & Hagain); [reflexivity|].
  split; [exact Htrace|exact Hagain].
Defined.

(** The record that [completeUpload] saves. *)
Lemma File_insert_fresh (id : ObjectId) (u b : ObjectId) (folder : option ObjectId)
  (name : string) (size : Z) (contentType : option string) (key : string) (st : Store) :
  truthy (sanitizeFilename name) = true →
  (0 ≤ size)%Z →
  truthy (trim key) = true →
  files st !! id = None →
  s3KeyTaken (trim key) (files st) = false →
  let saved := File.mk u b folder (sanitizeFilename name) size (trim <$> contentType)
                 (trim key) in
  File_insert id (File.mk u b folder (sanitizeFilename name) size contentType key) st
  = (Ok saved, set_files (insert id saved) st).
Proof.
  intros Hname Hsize Hkey Hfresh Htaken. cbv zeta. unfold File_insert, File_setters.
  cbn [File.fileName File.s3Key File.userId File.businessId File.folderId File.fileSize
       File.contentType].
  rewrite !(trim_no_js_space (sanitizeFilename name)) by apply no_js_space_sanitizeFilename.
  rewrite Hname, Hkey, Hfresh, Htaken.
  assert ((size <? 0)%Z = false) as -> by lia. reflexivity.
Qed.

Lemma addToSet_in (x : ObjectId) (l : list ObjectId) : x ∈ addToSet x l.
Proof.
  unfold addToSet. destruct (bool_decide (x ∈ l)) eqn:Hx.
  - by apply bool_decide_eq_true in Hx.
  - apply elem_of_app. right. apply list_elem_of_here.
Qed.

Lemma given_Some_valid (s : IdString) : isValid s = true → given (Some s) = Some s.
Proof. by destruct s. Qed.

(** The run of [completeUpload] on valid ids, in any accepted spelling,
    when the record passes the validators and the unique indexes. *)
Lemma completeUpload_run_ids (st : Store) (fileId userId businessId : IdString)
  (folderId : option IdString) (name : string) (size : Z) (contentType : option string)
  (key : string) :
  isValid fileId = true → isValid userId = true → isValid businessId = true →
  (∀ s, given folderId = Some s → isValid s = true) →
  truthy (sanitizeFilename (trim name)) = true →
  (0 ≤ size)%Z →
  truthy (trim key) = true →
  files st !! objectIdOf fileId = None →
  s3KeyTaken (trim key) (files st) = false →
  let file := objectIdOf fileId in
  let saved := File.mk (objectIdOf userId) (objectIdOf businessId)
                 (objectIdOf <$> given folderId) (sanitizeFilename (trim name)) size
                 (trim <$> contentType) (trim key) in
  let st1 := set_files (insert file saved) st in
  completeUpload
    (mkCompleteUpload fileId userId businessId folderId name size contentType key) st =
  match given folderId with
  | None => (Ok saved, st1)
  | Some s =>
      match folders st !! objectIdOf s with
      | Some df =>
          (Ok saved,
           set_folders
             (insert (objectIdOf s) (setFileIds (addToSet file (Folder.fileIds df)) df))
             st1)
      | None => (Err (Error (FolderWithIdNotFound (idText s))), st1)
      end
  end.
Proof.
  intros Hfile Hu Hb Hfolder Hname Hsize Hkey Hfresh Htaken. cbv zeta.
  unfold completeUpload, bind, throwIf, ObjectId_orNull.
  cbn [cu_fileId cu_userId cu_businessId cu_folderId cu_fileName cu_fileSize
       cu_contentType cu_s3Key].
  rewrite Hfile, Hu, Hb, (truthy_trim key Hkey). cbn [negb].
  assert (Hvalid : match given folderId with
                   | Some f => negb (isValid f) | None => false end = false).
  { destruct (given folderId) as [s|]; [|done]. by rewrite (Hfolder s eq_refl). }
  rewrite Hvalid. cbn [negb]. unfold ret. cbv beta iota.
  rewrite !ObjectId_from_valid by done.
  assert (Hcast : ∀ st0 : Store,
            match given folderId with
            | Some s => bind (ObjectId_from s) (λ (o : ObjectId) (st1 : Store), (Ok (Some o), st1))
            | None => λ st1 : Store, (Ok None, st1)
            end st0 = (Ok (objectIdOf <$> given folderId), st0)).
  { intros st0. destruct (given folderId) as [s|]; [|done].
    unfold bind. by rewrite (ObjectId_from_valid s st0 (Hfolder s eq_refl)). }
  rewrite Hcast. cbv beta iota.
  rewrite File_insert_fresh by done. cbv beta iota zeta.
  destruct (given folderId) as [s|]; cbn [fmap option_fmap option_map]; [|done].
  unfold addFileToFolder, bind, Folder_findById, modify.
  pose proof (Hfolder s eq_refl) as Hs.
  rewrite !ObjectId_from_valid by done. cbn [objectIdOf set_files folders].
  by destruct (folders st !! objectIdOf s).
Qed.

(** The run of [completeUpload] on ids in the canonical spelling. *)
Lemma completeUpload_run (st : Store) (file u b : ObjectId) (folder : option ObjectId)
  (name : string) (size : Z) (contentType : option string) (key : string) :
  truthy (sanitizeFilename (trim name)) = true →
  (0 ≤ size)%Z →
  truthy (trim key) = true →
  files st !! file = None →
  s3KeyTaken (trim key) (files st) = false →
  let saved := File.mk u b folder (sanitizeFilename (trim name)) size (trim <$> contentType)
                 (trim key) in
  let st1 := set_files (insert file saved) st in
  completeUpload
    (mkCompleteUpload (OidStr file) (OidStr u) (OidStr b) (OidStr <$> folder) name size
       contentType key) st =
  match folder with
  | None => (Ok saved, st1)
  | Some f =>
      match folders st !! f with
      | Some df =>
          (Ok saved,
           set_folders (insert f (setFileIds (addToSet file (Folder.fileIds df)) df)) st1)
      | None => (Err (Error (FolderWithIdNotFound (oidToString f))), st1)
      end
  end.
Proof.
  intros Hname Hsize Hkey Hfresh Htaken. cbv zeta.
  rewrite (completeUpload_run_ids st (OidStr file) (OidStr u) (OidStr b) (OidStr <$> folder)
             name size contentType key eq_refl eq_refl eq_refl); try done.
  - cbv zeta. rewrite given_OidStr. by destruct folder.
  - intros s. rewrite given_OidStr. destruct folder; [by intros [= <-]|done].
Qed.

(** X24. [completeUpload] on valid input: when the sanitized name is not
    blank, the size is not negative, the key is not blank, and neither the
    file id nor the key is in use, the call succeeds; the record is stored
    under the given id with the sanitized name and the trimmed key; the
    folder, when one is given and exists, lists the file afterwards and is
    otherwise unchanged; nothing else changes. *)
Theorem completeUpload_stores_and_links (st : Store) (file u b : ObjectId)
  (folder : option ObjectId) (name : string) (size : Z) (contentType : option string)
  (key : string) :
  truthy (sanitizeFilename (trim name)) = true →
  (0 ≤ size)%Z →
  truthy (trim key) = true →
  files st !! file = None →
  s3KeyTaken (trim key) (files st) = false →
  (∀ f, folder = Some f → is_Some (folders st !! f)) →
  let saved := File.mk u b folder (sanitizeFilename (trim name)) size (trim <$> contentType)
                 (trim key) in
  let result :=
    completeUpload
      (mkCompleteUpload (OidStr file) (OidStr u) (OidStr b) (OidStr <$> folder) name size
         contentType key) st in
  result.1 = Ok saved ∧
  files result.2 = <[file := saved]> (files st) ∧
  permissions result.2 = permissions st ∧ trace result.2 = trace st ∧
  match folder with
  | Some f =>
      ∀ df, folders st !! f = Some df →
            folders result.2
              = <[f := setFileIds (addToSet file (Folder.fileIds df)) df]> (folders st) ∧
            file ∈ addToSet file (Folder.fileIds df)
  | None => folders result.2 = folders st
  end.
Proof.
  intros Hname Hsize Hkey Hfresh Htaken Hfolder. cbv zeta.
  rewrite completeUpload_run by done. cbv zeta.
  destruct folder as [f|]; [|done].
  destruct (Hfolder f eq_refl) as [df Hdf]. rewrite Hdf.
  split_and!; try done.
  intros df' [= <-]. split; [done|apply addToSet_in].
Qed.

Lemma completeUpload_stores_and_links_witness :
  let result :=
    completeUpload
      (mkCompleteUpload (OidStr 4) (OidStr 7) (OidStr 100) (Some (OidStr 2)) " q2 (final).pdf"
         2048 (Some "application/pdf") "100/folders/2/files/4-q2__final_.pdf") store_tree in
  result.1 = Ok (File.mk 7 100 (Some 2%N) "q2__final_.pdf" 2048 (Some "application/pdf")
                   "100/folders/2/files/4-q2__final_.pdf") ∧
  Folder.fileIds <$> folders result.2 !! 2%N = Some [3%N; 4%N].
Proof.
  cbv zeta.
  destruct (completeUpload_stores_and_links store_tree 4 7 100 (Some 2%N) " q2 (final).pdf"
              2048 (Some "application/pdf") "100/folders/2/files/4-q2__final_.pdf")
    as (Hr & _ & _ & _ & Hf); try (vm_compute; reflexivity).
  - vm_compute. discriminate.
  - intros f [= <-]. by eexists.
  - split; [exact Hr|].
    destruct (Hf (Folder.mk "2024" 7 100 (Some 1%N) "100/folders/2/" [3%N] []) eq_refl)
      as [Heq _].
    exact (eq_trans (f_equal (λ m, Folder.fileIds <$> m !! 2%N) Heq) eq_refl).
Defined.

Lemma File_insert_used (id : ObjectId) (d : File.doc) (st : Store) :
  is_Some (files st !! id) ∨ s3KeyTaken (trim (File.s3Key d)) (files st) = true →
  ∃ e, File_insert id d st = (Err e, st).
Proof.
  intros Hused. unfold File_insert, File_setters.
  cbn [File.fileName File.s3Key File.userId File.businessId File.folderId
       File.fileSize File.contentType].
  destruct (negb (truthy _)); [by eexists|].
  destruct (_ <? 0)%Z; [by eexists|].
  destruct (negb (truthy _)); [by eexists|].
  destruct (files st !! id) as [d0|] eqn:Hfile; [by eexists|].
  destruct Hused as [[d0 Hd]|Hused]; [done|]. rewrite Hused. by eexists.
Qed.

(** X25. The failures of [completeUpload], for ids in any accepted
    spelling: a call whose file id or whose key is already in use fails and
    writes nothing, so a stored record is never overwritten and no two
    records share a key; a call that names a folder that is not stored
    fails with the folder-not-found message, which carries the folder id as
    the caller wrote it, but only after the record was saved, which stays
    in the collection. *)
Theorem completeUpload_failures (st : Store) :
  (∀ params,
     isValid (cu_fileId params) = true →
     is_Some (files st !! objectIdOf (cu_fileId params)) ∨
       s3KeyTaken (trim (cu_s3Key params)) (files st) = true →
     ∃ e, completeUpload params st = (Err e, st)) ∧
  (∀ fileId userId businessId folderId name size contentType key,
     isValid fileId = true → isValid userId = true → isValid businessId = true →
     isValid folderId = true →
     truthy (sanitizeFilename (trim name)) = true →
     (0 ≤ size)%Z →
     truthy (trim key) = true →
     files st !! objectIdOf fileId = None →
     s3KeyTaken (trim key) (files st) = false →
     folders st !! objectIdOf folderId = None →
     let result :=
       completeUpload
         (mkCompleteUpload fileId userId businessId (Some folderId) name size
            contentType key) st in
     result.1 = Err (Error (FolderWithIdNotFound (idText folderId))) ∧
     files result.2 !! objectIdOf fileId
       = Some (File.mk (objectIdOf userId) (objectIdOf businessId)
                 (Some (objectIdOf folderId)) (sanitizeFilename (trim name)) size
                 (trim <$> contentType) (trim key)) ∧
     folders result.2 = folders st).
Proof.
  split.
  - intros [fileId userId businessId folderId name size contentType key].
    cbn [cu_fileId cu_s3Key]. intros Hfile Hused.
    unfold completeUpload, bind, throwIf, ObjectId_orNull, throw.
    cbn [cu_fileId cu_userId cu_businessId cu_folderId cu_fileName cu_fileSize
         cu_contentType cu_s3Key].
    rewrite Hfile. cbn [negb].
    destruct (isValid userId) eqn:Hu; cbn [negb]; [|by eexists].
    destruct (isValid businessId) eqn:Hb; cbn [negb]; [|by eexists].
    assert (Hcast : ∀ st0 : Store,
              (match given folderId with
               | Some f => negb (isValid f) | None => false end) = false →
              ∃ folder,
                match given folderId with
                | Some s =>
                    bind (ObjectId_from s) (λ (o : ObjectId) (st1 : Store), (Ok (Some o), st1))
                | None => λ st1 : Store, (Ok None, st1)
                end st0 = (Ok folder, st0)).
    { intros st0. destruct (given folderId) as [s|]; [|by eexists].
      intros Hs%negb_false_iff. unfold bind. rewrite ObjectId_from_valid by done.
      by eexists. }
    destruct (match given folderId with
              | Some f => negb (isValid f) | None => false end) eqn:Hfolder;
      [by eexists|].
    destruct (truthy key); cbn [negb]; [|by eexists].
    unfold ret. cbv beta iota. rewrite !ObjectId_from_valid by done.
    destruct (Hcast st eq_refl) as [folder ->].
    match goal with
    | |- context [File_insert ?i ?d st] =>
        destruct (File_insert_used i d st Hused) as [e ->]
    end.
    by eexists.
  - intros fileId userId businessId folderId name size contentType key
      Hfile Hu Hb Hfolder Hname Hsize Hkey Hfresh Htaken Hnone.
    cbv zeta.
    rewrite (completeUpload_run_ids st fileId userId businessId (Some folderId) name size
               contentType key Hfile Hu Hb); try done.
    + cbv zeta. rewrite (given_Some_valid folderId Hfolder), Hnone.
      cbn [fst snd set_files files folders fmap option_fmap option_map].
      split; [done|]. split; [apply lookup_insert_eq|done].
    + intros s. rewrite (given_Some_valid folderId Hfolder). by intros [= <-].
Qed.

Lemma completeUpload_failures_witness :
  (∃ e, completeUpload
          (mkCompleteUpload (OidStr 3) (OidStr 7) (OidStr 100) None "other.pdf" 1 None
             "100/root/files/3-other.pdf") store_tree = (Err e, store_tree)) ∧
  (let result :=
     completeUpload
       (mkCompleteUpload (OidStr 4) (OidStr 7) (OidStr 100) (Some (OidCased 171 3)) "a.pdf" 1
          None "k") store_tree in
   result.1 = Err (Error (FolderWithIdNotFound "0000000000000000000000AB")) ∧
   files result.2 !! 4%N = Some (File.mk 7 100 (Some 171%N) "a.pdf" 1 None "k")).
Proof.
  destruct (completeUpload_failures store_tree) as [Hused Hfolder].
  split.
  - apply Hused; [reflexivity|]. left. by eexists.
  - cbv zeta.
    assert (Hsize : (0 ≤ 1)%Z) by lia.
    pose proof (Hfolder (OidStr 4) (OidStr 7) (OidStr 100) (OidCased 171 3) "a.pdf" 1%Z
                  None "k" eq_refl eq_refl eq_refl eq_refl eq_refl Hsize eq_refl eq_refl
                  eq_refl eq_refl) as (Hr & Hf & _).
    split; [exact Hr|exact Hf].
Defined.

(** X26. Upload and delete are a round trip on the metadata: after a
    successful [completeUpload] of a file that its folder did not list,
    [deleteFile] of that file answers the saved record and leaves the file
    and folder collections as they were before the upload. *)
Theorem completeUpload_then_deleteFile (st : Store) (file u b : ObjectId)
  (folder : option ObjectId) (name : string) (size : Z) (contentType : option string)
  (key : string) :
  truthy (sanitizeFilename (trim name)) = true →
  (0 ≤ size)%Z →
  truthy (trim key) = true →
  files st !! file = None →
  s3KeyTaken (trim key) (files st) = false →
  (∀ f, folder = Some f →
        ∃ df, folders st !! f = Some df ∧ file ∉ Folder.fileIds df) →
  let saved := File.mk u b folder (sanitizeFilename (trim name)) size (trim <$> contentType)
                 (trim key) in
  let uploaded :=
    (completeUpload
       (mkCompleteUpload (OidStr file) (OidStr u) (OidStr b) (OidStr <$> folder) name size
          contentType key) st).2 in
  let result := deleteFile (OidStr file) uploaded in
  result.1 = Ok (Some saved) ∧
  files result.2 = files st ∧ folders result.2 = folders st ∧
  permissions result.2 = permissions st ∧
  trace result.2 = trace st ++ [S3DeleteObject (trim key); FileDeleted file].
Proof.
  intros Hname Hsize Hkey Hfresh Htaken Hfolder. cbv zeta.
  rewrite completeUpload_run by done. cbv zeta.
  set (saved := File.mk u b folder _ _ _ _).
  destruct folder as [f|].
  - destruct (Hfolder f eq_refl) as (df & Hdf & Hnew). rewrite Hdf. cbn [snd].
    rewrite (deleteFile_run _ file saved) by apply lookup_insert_eq.
    subst saved. cbn [File.s3Key File.folderId]. rewrite Hkey.
    cbn [fst snd log set_files set_folders files folders permissions trace].
    split; [done|]. split; [by apply delete_insert_id|].
    split; [|split; [done|by rewrite <- app_assoc]].
    rewrite alter_insert_eq.
    cbn [setFileIds Folder.fileIds]. unfold addToSet.
    rewrite bool_decide_eq_false_2 by done. rewrite pull_app_last, pull_absent by done.
    apply insert_id. rewrite Hdf. f_equal. by destruct df.
  - cbn [snd]. rewrite (deleteFile_run _ file saved) by apply lookup_insert_eq.
    subst saved. cbn [File.s3Key File.folderId]. rewrite Hkey.
    cbn [fst snd log set_files set_folders files folders permissions trace].
    split; [done|]. split; [by apply delete_insert_id|].
    split; [done|]. split; [done|by rewrite <- app_assoc].
Qed.

Lemma completeUpload_then_deleteFile_witness :
  let uploaded :=
    (completeUpload
       (mkCompleteUpload (OidStr 4) (OidStr 7) (OidStr 100) (Some (OidStr 2)) "q2.pdf" 2048
          None "100/folders/2/files/4-q2.pdf") store_tree).2 in
  files (deleteFile (OidStr 4) uploaded).2 = files store_tree ∧
  folders (deleteFile (OidStr 4) uploaded).2 = folders store_tree.
Proof.
  cbv zeta.
  destruct (completeUpload_then_deleteFile store_tree 4 7 100 (Some 2%N) "q2.pdf" 2048 None
              "100/folders/2/files/4-q2.pdf")
    as (_ & Hfl & Hfs & _); try (vm_compute; reflexivity).
  - vm_compute. discriminate.
  - intros f [= <-]. eexists. split; [reflexivity|].
    intros Hin. apply elem_of_cons in Hin as [Hin|Hin]; [discriminate|].
    by apply elem_of_nil in Hin.
  - split; [exact Hfl|exact Hfs].
Defined.

(** ** Names and keys *)

Lemma all_safe_replace_unsafe (s : string) : all_safe (replace_unsafe s) = true.
Proof.
  induction s as [|c s IH]; simpl; [done|].
  rewrite IH, andb_true_r. by destruct (is_safe_char c) eqn:Hc.
Qed.

Lemma replace_unsafe_safe (s : string) : all_safe s = true → replace_unsafe s = s.
Proof.
  induction s as [|c s IH]; simpl; [done|].
  intros [Hc Hs]%andb_true_iff. by rewrite Hc, IH.
Qed.

Lemma length_replace_unsafe (s : string) :
  String.length (replace_unsafe s) = String.length s.
Proof. induction s as [|c s IH]; simpl; congruence. Qed.

Lemma all_safe_slice0 (n : nat) (s : string) :
  all_safe s = true → all_safe (slice0 n s) = true.
Proof.
  revert s. induction n as [|n IH]; intros [|c s]; simpl; try done.
  intros [Hc Hs]%andb_true_iff. by rewrite Hc, IH.
Qed.

Lemma length_slice0 (n : nat) (s : string) :
  String.length (slice0 n s) = n `min` String.length s.
Proof.
  revert s. induction n as [|n IH]; intros [|c s]; simpl; try done. by rewrite IH.
Qed.

Lemma slice0_short (n : nat) (s : string) : String.length s ≤ n → slice0 n s = s.
Proof.
  revert s. induction n as [|n IH]; intros [|c s]; simpl; try done; [lia|].
  intros H. rewrite IH; [done|lia].
Qed.

(** X27. The two name sanitizers: the result holds only letters, digits,
    dot, underscore and hyphen; its length is the length of the input capped
    at 120 (folders) or 180 (files); a name that is already of that form is
    returned as it is, so sanitizing twice is sanitizing once. *)
Theorem sanitizers_normalize (s : string) :
  all_safe (sanitizeFolderName s) = true ∧
  all_safe (sanitizeFilename s) = true ∧
  String.length (sanitizeFolderName s) = 120 `min` String.length s ∧
  String.length (sanitizeFilename s) = 180 `min` String.length s ∧
  (all_safe s = true → String.length s ≤ 120 → sanitizeFolderName s = s) ∧
  (all_safe s = true → String.length s ≤ 180 → sanitizeFilename s = s) ∧
  sanitizeFolderName (sanitizeFolderName s) = sanitizeFolderName s ∧
  sanitizeFilename (sanitizeFilename s) = sanitizeFilename s.
Proof.
  assert (Hfix : ∀ n t, all_safe t = true → String.length t ≤ n →
                        slice0 n (replace_unsafe t) = t).
  { intros n t Hsafe Hlen. rewrite replace_unsafe_safe by done. by apply slice0_short. }
  assert (Hsafe : ∀ n, all_safe (slice0 n (replace_unsafe s)) = true).
  { intros n. apply all_safe_slice0, all_safe_replace_unsafe. }
  assert (Hlen : ∀ n, String.length (slice0 n (replace_unsafe s)) = n `min` String.length s).
  { intros n. by rewrite length_slice0, length_replace_unsafe. }
  unfold sanitizeFolderName, sanitizeFilename.
  split_and!; [done|done|done|done|apply Hfix|apply Hfix| |].
  - apply Hfix; [done|]. rewrite Hlen. lia.
  - apply Hfix; [done|]. rewrite Hlen. lia.
Qed.

Lemma sanitizers_normalize_witness :
  sanitizeFolderName "Q1_report-v2.final" = "Q1_report-v2.final" ∧
  sanitizeFolderName (sanitizeFolderName "Q1 report/#2") = sanitizeFolderName "Q1 report/#2".
Proof.
  destruct (sanitizers_normalize "Q1_report-v2.final") as (_ & _ & _ & _ & Hfix & _).
  destruct (sanitizers_normalize "Q1 report/#2") as (_ & _ & _ & _ & _ & _ & Hidem & _).
  split; [apply Hfix; [reflexivity|simpl; lia]|exact Hidem].
Defined.

(** ** Presigned urls *)

Lemma le_zero_false (q : QArith_base.Q) :
  QArith_base.Qle_bool q (QArith_base.inject_Z 0) = false →
  QArith_base.Qlt (QArith_base.inject_Z 0) q.
Proof.
  intros Hle. apply QArith_base.Qnot_le_lt. intros H%QArith_base.Qle_bool_iff. congruence.
Qed.

Lemma normalizeExpirySeconds_Some (expiresInSeconds : option JsNumber)
  (n : QArith_base.Q) :
  normalizeExpirySeconds expiresInSeconds = Some n →
  QArith_base.Qlt (QArith_base.inject_Z 0) n ∧
  QArith_base.Qle n (QArith_base.inject_Z 3600) ∧
  match expiresInSeconds with
  | Some (Finite requested) =>
      QArith_base.Qle n requested ∧
      (QArith_base.Qle requested (QArith_base.inject_Z 3600) → n = requested)
  | Some _ => False
  | None => n = QArith_base.inject_Z 3600
  end.
Proof.
  unfold normalizeExpirySeconds.
  destruct expiresInSeconds as [[requested| | |]|];
    cbn [from_option id Number_isFinite negb orb le_zero]; try done.
  - destruct (QArith_base.Qle_bool requested (QArith_base.inject_Z 0)) eqn:Hle; [done|].
    apply le_zero_false in Hle.
    change MAX_PRESIGN_SECONDS with (QArith_base.inject_Z 3600).
    destruct (QArith_base.Qle_bool requested (QArith_base.inject_Z 3600)) eqn:Hmax;
      intros [= <-].
    + apply QArith_base.Qle_bool_iff in Hmax.
      split_and!; try done. apply QArith_base.Qle_refl.
    + assert (QArith_base.Qlt (QArith_base.inject_Z 3600) requested) as Hlt.
      { apply QArith_base.Qnot_le_lt. intros H%QArith_base.Qle_bool_iff. congruence. }
      split_and!.
      * reflexivity.
      * apply QArith_base.Qle_refl.
      * by apply QArith_base.Qlt_le_weak.
      * intros Hle'. by destruct (QArith_base.Qlt_not_le _ _ Hlt).
  - change MAX_PRESIGN_SECONDS with (QArith_base.inject_Z 3600).
    change (QArith_base.Qle_bool (QArith_base.inject_Z 3600) (QArith_base.inject_Z 0))
      with false.
    destruct (QArith_base.Qle_bool _ _); intros [= <-];
      (split_and!; [reflexivity|apply QArith_base.Qle_refl|done]).
Qed.

(** X28. The lifetime of a presigned url: [normalizeExpirySeconds] answers
    a number of seconds that is positive and at most one hour, and never
    more than what was asked for; it refuses exactly the requests that are
    not a finite number (NaN and the two infinities) or are zero or
    negative; without a request the lifetime is one hour.  So every url
    that [presignUpload] or [presignDownload] answers is signed for a key
    that is not empty and for a lifetime of at most one hour. *)
Theorem presigned_lifetime_capped
  (getSignedUrl : string → string → option string → QArith_base.Q → string)
  (objectKey : string) (contentType : option string)
  (expiresInSeconds : option JsNumber) :
  let zero := QArith_base.inject_Z 0 in
  let hour := QArith_base.inject_Z 3600 in
  match normalizeExpirySeconds expiresInSeconds with
  | Some n =>
      QArith_base.Qlt zero n ∧ QArith_base.Qle n hour ∧
      match expiresInSeconds with
      | Some (Finite requested) =>
          QArith_base.Qle n requested ∧ (QArith_base.Qle requested hour → n = requested)
      | Some _ => False
      | None => n = hour
      end
  | None =>
      ∃ requested, expiresInSeconds = Some requested ∧
        (Number_isFinite requested = false ∨
         ∃ q, requested = Finite q ∧ QArith_base.Qle q zero)
  end ∧
  (∀ url, presignUpload getSignedUrl objectKey contentType expiresInSeconds = inr url →
     truthy objectKey = true ∧
     ∃ n ct, QArith_base.Qlt zero n ∧ QArith_base.Qle n hour ∧
             url = getSignedUrl "PUT" objectKey ct n) ∧
  (∀ url, presignDownload getSignedUrl objectKey expiresInSeconds = inr url →
     truthy objectKey = true ∧
     ∃ n, QArith_base.Qlt zero n ∧ QArith_base.Qle n hour ∧
          url = getSignedUrl "GET" objectKey None n).
Proof.
  cbv zeta. split; [|split].
  - destruct (normalizeExpirySeconds expiresInSeconds) as [n|] eqn:Hn.
    + by apply normalizeExpirySeconds_Some.
    + destruct expiresInSeconds as [requested|]; [|done].
      exists requested. split; [done|].
      destruct requested as [q| | |]; [|by left..].
      right. exists q. split; [done|].
      destruct (QArith_base.Qle_bool q (QArith_base.inject_Z 0)) eqn:Hle.
      * by apply QArith_base.Qle_bool_iff.
      * exfalso. revert Hn. unfold normalizeExpirySeconds.
        cbn [from_option id Number_isFinite negb orb le_zero]. by rewrite Hle.
  - intros url. unfold presignUpload.
    destruct (truthy objectKey); [|done]. simpl.
    destruct (normalizeExpirySeconds expiresInSeconds) as [n|] eqn:Hn; [|done].
    intros [= <-]. split; [done|].
    apply normalizeExpirySeconds_Some in Hn as (Hpos & Hcap & _). by eexists _, _.
  - intros url. unfold presignDownload.
    destruct (truthy objectKey); [|done]. simpl.
    destruct (normalizeExpirySeconds expiresInSeconds) as [n|] eqn:Hn; [|done].
    intros [= <-]. split; [done|].
    apply normalizeExpirySeconds_Some in Hn as (Hpos & Hcap & _). by eexists.
Qed.

Lemma presigned_lifetime_capped_witness :
  let sign := λ (method key : string) (_ : option string) (n : QArith_base.Q),
                if QArith_base.Qeq_bool n (QArith_base.inject_Z 3600)
                then method +:+ " " +:+ key else "" in
  (∃ n, QArith_base.Qlt (QArith_base.inject_Z 0) n ∧
        QArith_base.Qle n (QArith_base.inject_Z 3600) ∧
        "GET 100/root/files/a.pdf" = sign "GET" "100/root/files/a.pdf" None n) ∧
  (∃ requested, Some NaN = Some requested ∧
     (Number_isFinite requested = false ∨
      ∃ q, requested = Finite q ∧ QArith_base.Qle q (QArith_base.inject_Z 0))).
Proof.
  cbv zeta. split.
  - exact (proj2 (proj2 (proj2 (presigned_lifetime_capped
             (λ (method key : string) (_ : option string) (n : QArith_base.Q),
                if QArith_base.Qeq_bool n (QArith_base.inject_Z 3600)
                then method +:+ " " +:+ key else "")
             "100/root/files/a.pdf" None
             (Some (Finite (QArith_base.inject_Z 86400)))))
             "GET 100/root/files/a.pdf" eq_refl)).
  - exact (proj1 (presigned_lifetime_capped (λ _ _ _ _, "") "k" None (Some NaN))).
Defined.

(** ** The permission queries *)



(** ** The upload workflow *)

Lemma truthy_app_r (s1 s2 : string) : truthy s2 = true → truthy (s1 +:+ s2) = true.
Proof. destruct s1; [done|]. by destruct s2. Qed.

Lemma no_js_space_oidToString (o : ObjectId) : no_js_space (oidToString o) = true.
Proof. by apply no_js_space_hex_digits. Qed.

Lemma some_non_space_rev_app (s1 s2 : string) :
  some_non_space (String.rev_app s1 s2) = some_non_space s1 || some_non_space s2.
Proof.
  revert s2. induction s1 as [|a s1 IH]; intros s2; simpl; [done|].
  rewrite IH. simpl. by destruct (is_js_space a), (some_non_space s1).
Qed.

Lemma some_non_space_trimStart (s : string) :
  some_non_space (trimStart s) = some_non_space s.
Proof.
  induction s as [|a s IH]; simpl; [done|].
  destruct (is_js_space a) eqn:Ha; simpl; [done|by rewrite Ha].
Qed.

Lemma truthy_some_non_space (s : string) : some_non_space s = true → truthy s = true.
Proof. by destruct s. Qed.

(** A string that holds a character that is not white space is not empty
    after [trim]. *)
Lemma truthy_trim_some_non_space (s : string) :
  some_non_space s = true → truthy (trim s) = true.
Proof.
  intros Hs. apply truthy_some_non_space. unfold trim, String.rev.
  rewrite some_non_space_rev_app, some_non_space_trimStart, some_non_space_rev_app,
    some_non_space_trimStart, Hs. done.
Qed.

Lemma some_non_space_app_r (s1 s2 : string) :
  some_non_space s2 = true → some_non_space (s1 +:+ s2) = true.
Proof.
  intros Hs. induction s1 as [|a s1 IH]; [done|].
  change (String a s1 +:+ s2) with (String a (s1 +:+ s2)). simpl.
  rewrite IH. apply orb_true_r.
Qed.

(** X30. Start and completion of an upload fit together, for ids in any
    accepted spelling: when [startUpload] succeeds it has stored nothing;
    the id it answers is the generated one, the key is the prefix of the
    folder (or the root prefix of the workspace, whose id is spelled as the
    caller wrote it) followed by [files/<id>-<sanitized name>], and the url
    is signed for that key with a lifetime of one hour.  A [completeUpload]
    with the answered id and key then succeeds, provided the name is not
    blank after sanitizing and neither the id nor the trimmed key is in use,
    and it stores the record under that id with the normalized name that
    [startUpload] answered and with the answered key, trimmed, listed in
    the folder.  The trimmed key is the answered key itself whenever the
    prefix holds no white space, which is always so for an upload to the
    root of the workspace. *)
Theorem startUpload_then_completeUpload
  (getSignedUrl : string → string → option string → QArith_base.Q → string)
  (st st1 : Store) (userId businessId : IdString) (folderId : option IdString)
  (name : string) (size : Z) (contentType : option string) (r : StartUploadResult) :
  startUpload getSignedUrl
    (mkStartUpload businessId userId folderId name size contentType) st
    = (inr r, st1) →
  truthy (sanitizeFilename (trim name)) = true →
  files st !! nextObjectId st = None →
  s3KeyTaken (trim (sr_s3Key r)) (files st) = false →
  let id := nextObjectId st in
  let folder := objectIdOf <$> given folderId in
  let keyPrefix :=
    match folder with
    | Some f => from_option Folder.s3Key "" (folders st !! f)
    | None => idText businessId +:+ "/root/"
    end in
  sr_fileId r = oidToString id ∧
  sr_s3Key r = keyPrefix +:+ "files/" +:+ oidToString id +:+ "-"
                 +:+ sanitizeFilename (trim name) ∧
  sr_normalizedFileName r = sanitizeFilename (trim name) ∧
  sr_uploadUrl r =
    getSignedUrl "PUT" (sr_s3Key r)
      (match contentType with Some c => if truthy c then Some c else None | None => None end)
      (QArith_base.inject_Z 3600) ∧
  folders st1 = folders st ∧ files st1 = files st ∧ permissions st1 = permissions st ∧
  (no_js_space keyPrefix = true → trim (sr_s3Key r) = sr_s3Key r) ∧
  (folder = None → trim (sr_s3Key r) = sr_s3Key r) ∧
  let saved := File.mk (objectIdOf userId) (objectIdOf businessId) folder
                 (sr_normalizedFileName r) size (trim <$> contentType)
                 (trim (sr_s3Key r)) in
  let result :=
    completeUpload
      (mkCompleteUpload (OidStr id) userId businessId folderId name size
         contentType (sr_s3Key r)) st1 in
  result.1 = Ok saved ∧
  files result.2 = <[id := saved]> (files st) ∧
  (∀ f, folder = Some f →
        ∃ df, folders result.2 !! f = Some df ∧ id ∈ Folder.fileIds df).
Proof.
  intros Hstart Hname Hfresh Htaken. cbv zeta.
  unfold startUpload in Hstart.
  cbn [su_businessId su_userId su_folderId su_fileName su_fileSize su_contentType]
    in Hstart.
  destruct (isValid businessId) eqn:Hb; cbn [negb] in Hstart; [|done].
  destruct (isValid userId) eqn:Hu; cbn [negb] in Hstart; [|done].
  destruct (truthy name) eqn:Hn; cbn [negb] in Hstart; [|done].
  destruct (size <? 0)%Z eqn:Hsize; [done|].
  set (folder := objectIdOf <$> given folderId).
  set (keyPrefix := match folder with
                    | Some f => from_option Folder.s3Key "" (folders st !! f)
                    | None => idText businessId +:+ "/root/"
                    end).
  set (key := keyPrefix +:+ "files/" +:+ oidToString (nextObjectId st) +:+ "-"
                +:+ sanitizeFilename (trim name)).
  match type of Hstart with
  | (match ?k with inl _ => _ | inr _ => _ end) = _ =>
      destruct k as [e|keyPrefix'] eqn:Hprefix; [done|]
  end.
  assert (Hfacts : keyPrefix' = keyPrefix ∧
                   (∀ s, given folderId = Some s → isValid s = true) ∧
                   (∀ f, folder = Some f → is_Some (folders st !! f)) ∧
                   (folder = None → no_js_space keyPrefix = true)).
  { subst keyPrefix folder.
    destruct (given folderId) as [s|]; cbn [fmap option_fmap option_map].
    - destruct (isValid s) eqn:Hs; cbn [negb] in Hprefix; [|done].
      change (folders (afterNewId st)) with (folders st) in Hprefix.
      destruct (folders st !! objectIdOf s) as [df|] eqn:Hdf; [|done].
      injection Hprefix as <-.
      split_and!; [done|by intros ? [= <-]|intros f [= <-]; by eexists|done].
    - injection Hprefix as <-. split_and!; try done.
      intros _. apply no_js_space_app; [by apply no_js_space_idText|done]. }
  destruct Hfacts as (-> & Hvalid & Hfolder & Hroot). clear Hprefix.
  fold key in Hstart.
  assert (Hkey : truthy (trim key) = true).
  { apply truthy_trim_some_non_space. subst key. by apply some_non_space_app_r. }
  assert (Hkeyspace : no_js_space keyPrefix = true → trim key = key).
  { intros Hspace. apply trim_no_js_space. subst key.
    repeat apply no_js_space_app; try done.
    - apply no_js_space_oidToString.
    - apply no_js_space_sanitizeFilename. }
  unfold presignUpload in Hstart. rewrite (truthy_trim key Hkey) in Hstart.
  cbn [negb] in Hstart.
  change (normalizeExpirySeconds (Some (Finite (QArith_base.inject_Z 3600))))
    with (Some (QArith_base.inject_Z 3600)) in Hstart.
  injection Hstart as <- <-.
  cbn [sr_fileId sr_s3Key sr_uploadUrl sr_normalizedFileName] in *.
  change (folders (afterNewId st)) with (folders st).
  change (files (afterNewId st)) with (files st).
  change (permissions (afterNewId st)) with (permissions st).
  split_and!; try done; [by intros ?; apply Hkeyspace, Hroot|..].
  all: pose proof (completeUpload_run_ids (afterNewId st) (OidStr (nextObjectId st)) userId
                     businessId folderId name size contentType key eq_refl Hu Hb Hvalid
                     Hname) as Hrun;
    cbv zeta in Hrun; cbn [objectIdOf] in Hrun;
    rewrite Hrun by (try done; lia); clear Hrun; fold folder.
  - subst folder. destruct (given folderId) as [s|]; [|done].
    destruct (Hfolder _ eq_refl) as [df Hdf].
    change (folders (afterNewId st)) with (folders st). by rewrite Hdf.
  - subst folder. destruct (given folderId) as [s|]; [|done].
    destruct (Hfolder _ eq_refl) as [df Hdf].
    change (folders (afterNewId st)) with (folders st). by rewrite Hdf.
  - subst folder. intros f Hf. destruct (given folderId) as [s|]; [|done].
    injection Hf as <-. destruct (Hfolder _ eq_refl) as [df Hdf].
    change (folders (afterNewId st)) with (folders st). rewrite Hdf.
    eexists. split; [apply lookup_insert_eq|]. apply addToSet_in.
Qed.

Lemma startUpload_then_completeUpload_witness :
  let sign := λ (method key : string) (_ : option string) (_ : QArith_base.Q),
                method +:+ " " +:+ key in
  let key := "100/folders/2/files/0000000000000000000003e8-q2_final.pdf" in
  let r := mkStartUploadResult "0000000000000000000003e8" key ("PUT " +:+ key)
             "q2_final.pdf" in
  let rootKey := "0000000000000000000000AB/root/files/0000000000000000000003e8-a.pdf" in
  let r' := mkStartUploadResult "0000000000000000000003e8" rootKey ("PUT " +:+ rootKey)
              "a.pdf" in
  startUpload sign
    (mkStartUpload (OidStr 100) (OidStr 7) (Some (OidStr 2)) "q2 final.pdf" 2048 None)
    store_tree = (inr r, afterNewId store_tree) ∧
  (completeUpload
     (mkCompleteUpload (OidStr 1000) (OidStr 7) (OidStr 100) (Some (OidStr 2)) "q2 final.pdf"
        2048 None key) (afterNewId store_tree)).1
  = Ok (File.mk 7 100 (Some 2%N) "q2_final.pdf" 2048 None (trim key)) ∧
  trim key = key ∧
  startUpload sign (mkStartUpload (OidCased 171 3) (OidStr 7) None "a.pdf" 1 None)
    store_tree = (inr r', afterNewId store_tree) ∧
  trim rootKey = rootKey.
Proof.
  cbv zeta.
  set (sign := λ (method key : string) (_ : option string) (_ : QArith_base.Q),
                 method +:+ " " +:+ key).
  set (key := "100/folders/2/files/0000000000000000000003e8-q2_final.pdf").
  set (r := mkStartUploadResult "0000000000000000000003e8" key ("PUT " +:+ key)
              "q2_final.pdf").
  set (rootKey := "0000000000000000000000AB/root/files/0000000000000000000003e8-a.pdf").
  set (r' := mkStartUploadResult "0000000000000000000003e8" rootKey ("PUT " +:+ rootKey)
               "a.pdf").
  assert (Hstart : startUpload sign
            (mkStartUpload (OidStr 100) (OidStr 7) (Some (OidStr 2)) "q2 final.pdf" 2048
               None) store_tree = (inr r, afterNewId store_tree))
    by (vm_compute; reflexivity).
  assert (Hname : truthy (sanitizeFilename (trim "q2 final.pdf")) = true)
    by (vm_compute; reflexivity).
  assert (Hfresh : files store_tree !! nextObjectId store_tree = None)
    by (vm_compute; reflexivity).
  assert (Htaken : s3KeyTaken (trim (sr_s3Key r)) (files store_tree) = false)
    by (vm_compute; reflexivity).
  pose proof (startUpload_then_completeUpload sign store_tree (afterNewId store_tree)
                (OidStr 7) (OidStr 100) (Some (OidStr 2)) "q2 final.pdf" 2048 None r
                Hstart Hname Hfresh Htaken)
    as H.
  cbv zeta in H. destruct H as (_ & _ & _ & _ & _ & _ & _ & Htrim & _ & Hdone & _).
  assert (Hstart' : startUpload sign
            (mkStartUpload (OidCased 171 3) (OidStr 7) None "a.pdf" 1 None) store_tree
            = (inr r', afterNewId store_tree))
    by (vm_compute; reflexivity).
  assert (Hname' : truthy (sanitizeFilename (trim "a.pdf")) = true)
    by (vm_compute; reflexivity).
  assert (Htaken' : s3KeyTaken (trim (sr_s3Key r')) (files store_tree) = false)
    by (vm_compute; reflexivity).
  pose proof (startUpload_then_completeUpload sign store_tree (afterNewId store_tree)
                (OidStr 7) (OidCased 171 3) None "a.pdf" 1 None r'
                Hstart' Hname' Hfresh Htaken')
    as H'.
  cbv zeta in H'. destruct H' as (_ & _ & _ & _ & _ & _ & _ & _ & Hroot & _).
  split; [exact Hstart|]. split; [exact Hdone|].
  split; [apply Htrim; reflexivity|]. split; [exact Hstart'|]. apply Hroot. reflexivity.
Defined.
